(** * Rectified-flow training loss and Euler samplers

    A shallow embedding of [models/rf.py]: the classes [RectifiedFlow] and
    [LatentRectifiedFlow], their training loss ([forward]), the samplers
    ([sample], [cond_sample], [fid_sample]) and the latent scaling
    ([encode], [decode]); and of the parts of [trainer.py] that work on
    numbers, lists and tensors: [num_to_groups], [save_ckpt] and the sample
    batches of [log_samples].

    Conventions of the embedding.
    - A tensor of shape (B, C, H, W) is a four-level nested list; its entries
      are exact rationals ([Qc]), so tensor arithmetic is the real-number
      arithmetic the floating-point code approximates.  The one place where
      rounding itself is the question (does the latent scale cancel exactly?)
      is also modelled in IEEE binary32, in module [Float32].
    - Arithmetic between two tensors is entry by entry, on operands of one
      shape.  Broadcasting, and the RuntimeError of torch on shapes that do
      not fit, are not modelled: statements about arithmetic on a prediction
      of the network are made for networks that keep the shape of their
      input ([Net.keeps_shape], [Net.cfg_keeps_shape]).
    - The random generator is explicit state; [torch.randn] and [torch.rand]
      fill a tensor entry by entry from it.
    - Calls to the collaborators (the velocity network, the autoencoder) and
      every division of a tensor by the Python integer [sampling_steps] are
      recorded in a trace, so that statements about which queries and which
      divisions happen can be made about a run.
    - A failed [assert] is the outcome [AssertionError]. *)

From Stdlib Require Import String Bool List ZArith QArith Qcanon Lia.
From Stdlib Require Import Floats.SpecFloat.
Import ListNotations.

Local Open Scope Qc_scope.

(** ** The tensor operations the source calls *)

Module Torch.

Abbreviation tensor1 := (list Qc).
Abbreviation tensor2 := (list (list Qc)).
Abbreviation tensor3 := (list (list (list Qc))).
Abbreviation tensor4 := (list (list (list (list Qc)))).
(** [torch.stack] of a list of (B, C, H, W) tensors. *)
Abbreviation tensor5 := (list (list (list (list (list Qc))))).

Definition Qc_of_nat (n : nat) : Qc := Q2Qc (inject_Z (Z.of_nat n)).

Fixpoint zip {A B C : Type} (f : A -> B -> C) (xs : list A) (ys : list B)
  : list C :=
  match xs, ys with
  | x :: xs', y :: ys' => f x y :: zip f xs' ys'
  | _, _ => []
  end.

Definition map4 (f : Qc -> Qc) : tensor4 -> tensor4 :=
  map (map (map (map f))).

(** The entry-by-entry combination of two tensors of one shape.  On
    operands of different shapes torch broadcasts or raises a RuntimeError,
    which this does not describe: the statements about arithmetic on a
    prediction of the network are made for networks that keep the shape of
    their input ([Net.keeps_shape], [Net.cfg_keeps_shape]), under which all
    operands have one shape. *)
Definition zip4 (f : Qc -> Qc -> Qc) : tensor4 -> tensor4 -> tensor4 :=
  zip (zip (zip (zip f))).

(** [a + b] and [a - b] on tensors of one shape. *)
Definition add : tensor4 -> tensor4 -> tensor4 := zip4 Qcplus.
Definition sub : tensor4 -> tensor4 -> tensor4 := zip4 Qcminus.

(** [1 - t] on a tensor of shape (B,). *)
Definition rsub1 (t : tensor1) : tensor1 := map (fun tb => 1 - tb) t.

(** [t_ * x] where [t_ = rearrange(t, "b -> b 1 1 1")]: the entry of [t] for
    sample [b] multiplies every channel and pixel of that sample. *)
Definition mul_b111 (t : tensor1) (x : tensor4) : tensor4 :=
  zip (fun tb xb => map (map (map (Qcmult tb))) xb) t x.

(** [x.mul_(k)] and [x / k] for a Python float [k]. *)
Definition mul_scalar (x : tensor4) (k : Qc) : tensor4 :=
  map4 (fun q => q * k) x.
Definition div_scalar (x : tensor4) (k : Qc) : tensor4 :=
  map4 (fun q => q / k) x.

Definition clip1 (lo hi q : Qc) : Qc :=
  match q ?= lo with
  | Lt => lo
  | _ => match q ?= hi with Gt => hi | _ => q end
  end.

(** [x.clip(lo, hi)]. *)
Definition clip (x : tensor4) (lo hi : Qc) : tensor4 := map4 (clip1 lo hi) x.

Definition flatten4 (x : tensor4) : list Qc :=
  concat (map (fun s => concat (map (@concat Qc) s)) x).

Definition numel (x : tensor4) : nat := length (flatten4 x).

Definition sum (xs : list Qc) : Qc := fold_right Qcplus 0 xs.

(** The value of a reduction to one number: the mean of no element at all is
    0/0, which the floating-point code returns as NaN. *)
Inductive loss_value : Type :=
| Scalar (q : Qc)
| NaN.

Definition mean (xs : list Qc) : loss_value :=
  match xs with
  | [] => NaN
  | _ => Scalar (sum xs / Qc_of_nat (length xs))
  end.

(** [F.mse_loss(input, target)], with the default mean reduction. *)
Definition mse_loss (input target : tensor4) : loss_value :=
  mean (flatten4 (zip4 (fun a b => (a - b) * (a - b)) input target)).

(** [torch.linspace(start, end, steps)]: no point for [steps = 0], the point
    [start] alone for [steps = 1], otherwise [steps] points with the common
    difference [(end - start) / (steps - 1)]. *)
Definition linspace (start stop : Qc) (steps : nat) : tensor1 :=
  match steps with
  | O => []
  | S O => [start]
  | _ => map (fun i => start
                        + Qc_of_nat i * ((stop - start) / Qc_of_nat (steps - 1)))
             (seq 0 steps)
  end.

(** [reversed(t)] of a one-dimensional tensor flips it. *)
Definition reversed (t : tensor1) : tensor1 := rev t.

(** [t.repeat(n)] of a zero-dimensional tensor. *)
Definition repeat0 (t : Qc) (n : nat) : tensor1 := repeat t n.

(** *** Shapes *)

Definition has_shape1 (w : nat) (r : tensor1) : bool := Nat.eqb (length r) w.
Definition has_shape2 (h w : nat) (m : tensor2) : bool :=
  Nat.eqb (length m) h && forallb (has_shape1 w) m.
Definition has_shape3 (c h w : nat) (s : tensor3) : bool :=
  Nat.eqb (length s) c && forallb (has_shape2 h w) s.
Definition has_shape (shape : nat * nat * nat * nat) (x : tensor4) : bool :=
  let '(b, c, h, w) := shape in
  Nat.eqb (length x) b && forallb (has_shape3 c h w) x.

Fixpoint same_len {A B : Type} (p : A -> B -> bool) (xs : list A)
  (ys : list B) : bool :=
  match xs, ys with
  | [], [] => true
  | x :: xs', y :: ys' => p x y && same_len p xs' ys'
  | _, _ => false
  end.

Definition same_shape (x y : tensor4) : bool :=
  same_len (same_len (same_len (same_len (fun _ _ : Qc => true)))) x y.

(** The entry [x[b, c, h, w]]. *)
Definition get (x : tensor4) (b c h w : nat) : Qc :=
  nth w (nth h (nth c (nth b x []) []) []) 0.

(** *** Random draws *)

(** The state of the default generator and its two primitive draws, one
    standard normal and one uniform number; [sigmoid] is the logistic
    function of the backend. *)
Record Backend : Type := {
  gstate : Type;
  next_normal : gstate -> Qc * gstate;
  next_uniform : gstate -> Qc * gstate;
  sigmoid : Qc -> Qc
}.

Section Draws.
Context {G : Type}.

(** [n] successive draws. *)
Fixpoint draws {X : Type} (next : G -> X * G) (n : nat) (g : G)
  : list X * G :=
  match n with
  | O => ([], g)
  | S n' =>
      let (x, g1) := next g in
      let (xs, g2) := draws next n' g1 in
      (x :: xs, g2)
  end.

(** One draw for every element of [ys], in order. *)
Fixpoint draws_like {X Y : Type} (next : Y -> G -> X * G) (ys : list Y)
  (g : G) : list X * G :=
  match ys with
  | [] => ([], g)
  | y :: ys' =>
      let (x, g1) := next y g in
      let (xs, g2) := draws_like next ys' g1 in
      (x :: xs, g2)
  end.

End Draws.

(** [torch.randn((b, c, h, w))], filled in row-major order. *)
Definition randn (B : Backend) (shape : nat * nat * nat * nat)
  (g : gstate B) : tensor4 * gstate B :=
  let '(b, c, h, w) := shape in
  draws (draws (draws (draws (next_normal B) w) h) c) b g.

(** [torch.randn((b,))] and [torch.rand((b,))]. *)
Definition randn1 (B : Backend) (b : nat) (g : gstate B)
  : tensor1 * gstate B := draws (next_normal B) b g.
Definition rand1 (B : Backend) (b : nat) (g : gstate B)
  : tensor1 * gstate B := draws (next_uniform B) b g.

(** [torch.randn_like(x)]. *)
Definition randn_like (B : Backend) (x : tensor4) (g : gstate B)
  : tensor4 * gstate B :=
  draws_like
    (draws_like (draws_like (draws_like (fun _ : Qc => next_normal B)))) x g.

End Torch.

(** ** Collaborators *)

Module Utils.
Import Torch.

(** Modelled from the spec: [modules/utils.py], which defines
    [normalize_to_neg1_1] and [unnormalize_to_0_1], is not among the sources.
    The spec describes them as the fixed affine transforms that map [0,1] to
    [-1,1] before any noising arithmetic and [-1,1] back to [0,1] after
    sampling. *)
Definition normalize_to_neg1_1 (x : tensor4) : tensor4 :=
  map4 (fun q => q * Qc_of_nat 2 - 1) x.

(** Modelled from the spec: the inverse affine transform, see
    [normalize_to_neg1_1]. *)
Definition unnormalize_to_0_1 (x : tensor4) : tensor4 :=
  map4 (fun q => (q + 1) / Qc_of_nat 2) x.

End Utils.

Module Net.
Import Torch.

(** Integer class labels, one per sample. *)
Definition labels := list nat.

(** The time argument the network receives: a zero-dimensional tensor in
    [sample], a tensor of shape (B,) in [forward] and [cond_sample]. *)
Inductive time_arg : Type :=
| T0 (t : Qc)
| T1 (t : tensor1).

(** The velocity network: [net(z, t, c)] with [c] defaulting to [None],
    [net.forward_with_cfg(z, t, y, cfg_scale)] and the attribute
    [net.num_classes]. *)
Record t : Type := {
  num_classes : option nat;
  call : tensor4 -> time_arg -> option labels -> tensor4;
  forward_with_cfg : tensor4 -> time_arg -> labels -> Qc -> tensor4
}.

(** The contract of a velocity network: the prediction has the shape of the
    state it is made for, so that [z - v_t / sampling_steps],
    [F.mse_loss(target, v_t)] and [torch.stack(images)] work on tensors of
    one shape. *)
Definition keeps_shape (net : t) : Prop :=
  forall z t c, same_shape (call net z t c) z = true.

(** The same contract for [net.forward_with_cfg]. *)
Definition cfg_keeps_shape (net : t) : Prop :=
  forall z t y s, same_shape (forward_with_cfg net z t y s) z = true.

End Net.

(** The autoencoder of the latent model:
    [vae.encode(x).latent_dist.sample()], which draws from the generator, and
    [vae.decode(x).sample]. *)
Record AutoencoderKL (B : Torch.Backend) : Type := {
  encode_sample :
    Torch.tensor4 -> Torch.gstate B -> Torch.tensor4 * Torch.gstate B;
  decode_sample : Torch.tensor4 -> Torch.tensor4
}.
Arguments encode_sample {B}.
Arguments decode_sample {B}.

(** A decoder whose output has a shape determined by the shape of its
    input: what [torch.stack] needs to stack the decoded states of a
    trajectory. *)
Definition decode_respects_shape {B : Torch.Backend} (vae : AutoencoderKL B)
  : Prop :=
  forall a b, Torch.same_shape a b = true ->
    Torch.same_shape (decode_sample vae a) (decode_sample vae b) = true.

(** ** Runs: generator state, trace and assertion failures *)

Module Run.
Import Torch.

Inductive event : Type :=
| NetCall (z : tensor4) (t : Net.time_arg) (c : option Net.labels)
| CfgCall (z : tensor4) (t : Net.time_arg) (y : Net.labels) (cfg_scale : Qc)
| DivInt (divisor : nat)
| Encode (x : tensor4)
| Decode (x : tensor4).

Record world (B : Backend) : Type := {
  rng : gstate B;
  trace : list event
}.
Arguments rng {B}.
Arguments trace {B}.

Inductive outcome (A : Type) : Type :=
| Ok (a : A)
| AssertionError (msg : string).
Arguments Ok {A}.
Arguments AssertionError {A}.

Definition M (B : Backend) (A : Type) : Type :=
  world B -> outcome (A * world B).

Definition ret {B : Backend} {A : Type} (a : A) : M B A :=
  fun w => Ok (a, w).

Definition bind {B : Backend} {A C : Type} (m : M B A) (k : A -> M B C)
  : M B C :=
  fun w =>
    match m w with
    | Ok (a, w') => k a w'
    | AssertionError msg => AssertionError msg
    end.

(** [assert b, msg]. *)
Definition assert_ {B : Backend} (b : bool) (msg : string) : M B unit :=
  fun w => if b then Ok (tt, w) else AssertionError msg.

(** A call that draws from the generator. *)
Definition draw {B : Backend} {A : Type} (f : gstate B -> A * gstate B)
  : M B A :=
  fun w =>
    let (a, g) := f (rng w) in
    Ok (a, {| rng := g; trace := trace w |}).

Definition emit {B : Backend} (e : event) : M B unit :=
  fun w => Ok (tt, {| rng := rng w; trace := trace w ++ [e] |}).

End Run.

Notation "x <- m ;; k" := (Run.bind m (fun x => k))
  (at level 61, m at next level, right associativity).
Notation "' pat <- m ;; k" :=
  (Run.bind m (fun x => match x with pat => k end))
  (at level 61, pat pattern, m at next level, right associativity).
Notation "m ;; k" := (Run.bind m (fun _ => k))
  (at level 61, right associativity).

Module Calls.
Import Torch Run.

(** [net(z, t, c)]. *)
Definition call_net {B : Backend} (net : Net.t) (z : tensor4)
  (t : Net.time_arg) (c : option Net.labels) : M B tensor4 :=
  emit (NetCall z t c) ;; ret (Net.call net z t c).

(** [net.forward_with_cfg(z, t, y, cfg_scale)]. *)
Definition call_cfg {B : Backend} (net : Net.t) (z : tensor4)
  (t : Net.time_arg) (y : Net.labels) (cfg_scale : Qc) : M B tensor4 :=
  emit (CfgCall z t y cfg_scale) ;; ret (Net.forward_with_cfg net z t y cfg_scale).

(** [v / n] for a Python integer [n].  The quotient is the exact one; for
    [n = 0] it carries no meaning (the floating-point code would produce
    infinities and NaN), and the trace tells whether a run gets there. *)
Definition div_int {B : Backend} (v : tensor4) (n : nat) : M B tensor4 :=
  emit (DivInt n) ;; ret (div_scalar v (Qc_of_nat n)).

(** [vae.encode(x).latent_dist.sample()]. *)
Definition call_encode {B : Backend} (vae : AutoencoderKL B) (x : tensor4)
  : M B tensor4 :=
  emit (Encode x) ;; draw (encode_sample vae x).

(** [vae.decode(x).sample]. *)
Definition call_decode {B : Backend} (vae : AutoencoderKL B) (x : tensor4)
  : M B tensor4 :=
  emit (Decode x) ;; ret (decode_sample vae x).

(** [for x in xs: state = body(x, state)]. *)
Fixpoint for_each {B : Backend} {A S : Type} (xs : list A)
  (body : A -> S -> M B S) (s : S) : M B S :=
  match xs with
  | [] => ret s
  | x :: xs' => s' <- body x s ;; for_each xs' body s'
  end.

(** [[f(x) for x in xs]]. *)
Fixpoint for_list {B : Backend} {A C : Type} (f : A -> M B C) (xs : list A)
  : M B (list C) :=
  match xs with
  | [] => ret []
  | x :: xs' => y <- f x ;; ys <- for_list f xs' ;; ret (y :: ys)
  end.

End Calls.

(** ** [class RectifiedFlow] *)

(** What a sampler returns: the images alone, or the images and the stacked
    trajectory when [return_all_steps] is set. *)
Inductive sample_output : Type :=
| Images (z : Torch.tensor4)
| ImagesAndSteps (z : Torch.tensor4) (all_steps : Torch.tensor5).

Definition images_of (o : sample_output) : Torch.tensor4 :=
  match o with
  | Images z => z
  | ImagesAndSteps z _ => z
  end.

Definition steps_of (o : sample_output) : option Torch.tensor5 :=
  match o with
  | Images _ => None
  | ImagesAndSteps _ s => Some s
  end.

Definition result_of (return_all_steps : bool) (z : Torch.tensor4)
  (all_steps : Torch.tensor5) : sample_output :=
  if return_all_steps then ImagesAndSteps z all_steps else Images z.

(** [torch.stack(images).clip(-1, 1)] followed by [unnormalize_to_0_1], on
    the stacked tensor. *)
Definition stack (images : list Torch.tensor4) : Torch.tensor5 := images.
Definition clip5 (x : Torch.tensor5) (lo hi : Qc) : Torch.tensor5 :=
  map (fun img => Torch.clip img lo hi) x.
Definition unnormalize_to_0_1_5 (x : Torch.tensor5) : Torch.tensor5 :=
  map Utils.unnormalize_to_0_1 x.

Module RectifiedFlow.
Import Torch Run Calls Utils.

Record t : Type := {
  net : Net.t;
  use_cond : bool;
  channels : nat;
  image_size : nat;
  logit_normal_sampling_t : bool
}.

(** [__init__]: [use_cond] is [net.num_classes is not None]. *)
Definition init (net : Net.t) (channels image_size : nat)
  (logit_normal_sampling_t : bool) : t :=
  {| net := net;
     use_cond := match Net.num_classes net with Some _ => true | None => false end;
     channels := channels;
     image_size := image_size;
     logit_normal_sampling_t := logit_normal_sampling_t |}.

Definition is_not_None {A : Type} (c : option A) : bool :=
  match c with Some _ => true | None => false end.

Definition forward {B : Backend} (self : t) (x : tensor4)
  (c : option Net.labels) : M B loss_value :=
  (if use_cond self
   then assert_ (is_not_None c) "Conditional model requires class labels"
   else ret tt) ;;
  t <- (if logit_normal_sampling_t self
        then r <- draw (randn1 B (length x)) ;; ret (map (sigmoid B) r)
        else draw (rand1 B (length x))) ;;
  let t_ := t in
  z <- draw (randn_like B x) ;;
  let x := normalize_to_neg1_1 x in
  let z_t := add (mul_b111 (rsub1 t_) x) (mul_b111 t_ z) in
  v_t <- call_net (net self) z_t (Net.T1 t) c ;;
  let target := sub z x in
  ret (mse_loss target v_t).

Definition sample {B : Backend} (self : t) (batch_size sampling_steps : nat)
  (return_all_steps : bool) : M B sample_output :=
  z <- draw (randn B (batch_size, channels self, image_size self,
                      image_size self)) ;;
  let images := [z] in
  let t_span := linspace 0 1 sampling_steps in
  '(z, images) <-
    for_each (reversed t_span)
      (fun t '(z, images) =>
         v_t <- call_net (net self) z (Net.T0 t) None ;;
         dz <- div_int v_t sampling_steps ;;
         let z := sub z dz in
         ret (z, images ++ [z]))
      (z, images) ;;
  let z := unnormalize_to_0_1 (clip z (- (1)) 1) in
  if return_all_steps
  then ret (ImagesAndSteps z
              (unnormalize_to_0_1_5 (clip5 (stack images) (- (1)) 1)))
  else ret (Images z).

Definition cond_sample {B : Backend} (self : t) (classes : Net.labels)
  (sampling_steps : nat) (cfg_scale : Qc) (return_all_steps : bool)
  : M B sample_output :=
  assert_ (use_cond self) EmptyString ;;
  let y := classes in
  z <- draw (randn B (length classes, channels self, image_size self,
                      image_size self)) ;;
  let images := [z] in
  let t_span := linspace 0 1 sampling_steps in
  '(z, images) <-
    for_each (reversed t_span)
      (fun t '(z, images) =>
         let t := repeat0 t (length z) in
         v_t <- call_cfg (net self) z (Net.T1 t) y cfg_scale ;;
         dz <- div_int v_t sampling_steps ;;
         let z := sub z dz in
         ret (z, images ++ [z]))
      (z, images) ;;
  let z := unnormalize_to_0_1 (clip z (- (1)) 1) in
  if return_all_steps
  then ret (ImagesAndSteps z
              (unnormalize_to_0_1_5 (clip5 (stack images) (- (1)) 1)))
  else ret (Images z).

End RectifiedFlow.

(** ** [class LatentRectifiedFlow(RectifiedFlow)] *)

Module LatentRectifiedFlow.
Import Torch Run Calls Utils.

(** The inherited attributes and the autoencoder loaded by [__init__]. *)
Record t (B : Backend) : Type := {
  base : RectifiedFlow.t;
  vae : AutoencoderKL B
}.
Arguments base {B}.
Arguments vae {B}.

(** The literal [0.13025]. *)
Definition scale : Qc := Q2Qc (13025 # 100000).

Definition encode {B : Backend} (self : t B) (x : tensor4) : M B tensor4 :=
  l <- call_encode (vae self) x ;;
  ret (mul_scalar l scale).

Definition decode {B : Backend} (self : t B) (x : tensor4) : M B tensor4 :=
  call_decode (vae self) (div_scalar x scale).

Definition forward {B : Backend} (self : t B) (x : tensor4)
  (c : option Net.labels) : M B loss_value :=
  (if RectifiedFlow.use_cond (base self)
   then assert_ (RectifiedFlow.is_not_None c)
          "Conditional model requires class labels"
   else ret tt) ;;
  t <- (if RectifiedFlow.logit_normal_sampling_t (base self)
        then r <- draw (randn1 B (length x)) ;; ret (map (sigmoid B) r)
        else draw (rand1 B (length x))) ;;
  let t_ := t in
  let x := normalize_to_neg1_1 x in
  x <- encode self x ;;
  z <- draw (randn_like B x) ;;
  let z_t := add (mul_b111 (rsub1 t_) x) (mul_b111 t_ z) in
  v_t <- call_net (RectifiedFlow.net (base self)) z_t (Net.T1 t) c ;;
  let target := sub z x in
  ret (mse_loss target v_t).

Definition sample {B : Backend} (self : t B) (batch_size sampling_steps : nat)
  (return_all_steps : bool) : M B sample_output :=
  z <- draw (randn B (batch_size, RectifiedFlow.channels (base self),
                      RectifiedFlow.image_size (base self),
                      RectifiedFlow.image_size (base self))) ;;
  let images := [z] in
  let t_span := linspace 0 1 sampling_steps in
  '(z, images) <-
    for_each (reversed t_span)
      (fun t '(z, images) =>
         v_t <- call_net (RectifiedFlow.net (base self)) z (Net.T0 t) None ;;
         dz <- div_int v_t sampling_steps ;;
         let z := sub z dz in
         ret (z, images ++ [z]))
      (z, images) ;;
  z <- decode self z ;;
  let z := unnormalize_to_0_1 (clip z (- (1)) 1) in
  if return_all_steps
  then all_steps <- for_list (decode self) images ;;
       let all_steps :=
         unnormalize_to_0_1_5 (clip5 (stack all_steps) (- (1)) 1) in
       ret (ImagesAndSteps z all_steps)
  else ret (Images z).

Definition cond_sample {B : Backend} (self : t B) (classes : Net.labels)
  (sampling_steps : nat) (cfg_scale : Qc) (return_all_steps : bool)
  : M B sample_output :=
  assert_ (RectifiedFlow.use_cond (base self)) EmptyString ;;
  let y := classes in
  z <- draw (randn B (length classes, RectifiedFlow.channels (base self),
                      RectifiedFlow.image_size (base self),
                      RectifiedFlow.image_size (base self))) ;;
  let images := [z] in
  let t_span := linspace 0 1 sampling_steps in
  '(z, images) <-
    for_each (reversed t_span)
      (fun t '(z, images) =>
         let t := repeat0 t (length z) in
         v_t <- call_cfg (RectifiedFlow.net (base self)) z (Net.T1 t) y
                  cfg_scale ;;
         dz <- div_int v_t sampling_steps ;;
         let z := sub z dz in
         ret (z, images ++ [z]))
      (z, images) ;;
  z <- decode self z ;;
  let z := unnormalize_to_0_1 (clip z (- (1)) 1) in
  if return_all_steps
  then all_steps <- for_list (decode self) images ;;
       let all_steps :=
         unnormalize_to_0_1_5 (clip5 (stack all_steps) (- (1)) 1) in
       ret (ImagesAndSteps z all_steps)
  else ret (Images z).

End LatentRectifiedFlow.

(** ** The Euler integration, stated on its own

    The samplers are compared with these definitions, which follow the
    description of the integration: starting from [z], for each time point
    [t] in turn, query the velocity at [(z, t)] and move [z] by
    [- v / sampling_steps]. *)

Module Euler.
Import Torch.

Section Integrate.
Variable query : tensor4 -> Qc -> tensor4.
Variable n : nat.

Definition step (z : tensor4) (t : Qc) : tensor4 :=
  sub z (div_scalar (query z t) (Qc_of_nat n)).

(** The state after all time points. *)
Definition final (ts : list Qc) (z : tensor4) : tensor4 :=
  fold_left step ts z.

(** The initial state followed by the state after each time point. *)
Fixpoint states (ts : list Qc) (z : tensor4) : list tensor4 :=
  z :: match ts with
       | [] => []
       | t :: ts' => states ts' (step z t)
       end.

(** What a run records: at each time point the query, then the division by
    [n]. *)
Fixpoint events (ev : tensor4 -> Qc -> Run.event) (ts : list Qc)
  (z : tensor4) : list Run.event :=
  match ts with
  | [] => []
  | t :: ts' => ev z t :: Run.DivInt n :: events ev ts' (step z t)
  end.

End Integrate.

(** [n] values from [t] downwards, [h] apart. *)
Fixpoint down_from (t h : Qc) (n : nat) : list Qc :=
  match n with
  | O => []
  | S n' => t :: down_from (t - h) h n'
  end.

(** The descending sequence of [n] evenly spaced values from 1 down to 0. *)
Definition descending_times (n : nat) : list Qc :=
  down_from 1 (1 / Qc_of_nat (n - 1)) n.

(** The time points [sample] and [cond_sample] iterate over. *)
Definition sample_times (n : nat) : list Qc := reversed (linspace 0 1 n).

(** The three ways the velocity is queried: [net(z, t)],
    [net.forward_with_cfg(z, t.repeat(len(z)), y, cfg_scale)] and the
    conditional prediction without guidance, [net(z, t.repeat(len(z)), y)]. *)
Definition plain (net : Net.t) (z : tensor4) (t : Qc) : tensor4 :=
  Net.call net z (Net.T0 t) None.
Definition guided (net : Net.t) (y : Net.labels) (cfg_scale : Qc)
  (z : tensor4) (t : Qc) : tensor4 :=
  Net.forward_with_cfg net z (Net.T1 (repeat0 t (length z))) y cfg_scale.
Definition conditional (net : Net.t) (y : Net.labels) (z : tensor4) (t : Qc)
  : tensor4 :=
  Net.call net z (Net.T1 (repeat0 t (length z))) (Some y).

Definition plain_event (z : tensor4) (t : Qc) : Run.event :=
  Run.NetCall z (Net.T0 t) None.
Definition guided_event (y : Net.labels) (cfg_scale : Qc) (z : tensor4)
  (t : Qc) : Run.event :=
  Run.CfgCall z (Net.T1 (repeat0 t (length z))) y cfg_scale.

(** Clip to [-1,1], then map to [0,1]. *)
Definition to_image (z : tensor4) : tensor4 :=
  Utils.unnormalize_to_0_1 (clip z (- (1)) 1).

(** The conditional Euler integration without guidance, from the noise [z0]:
    what [cond_sample] is compared with at [cfg_scale = 1]. *)
Definition unguided_cond_sample (net : Net.t) (y : Net.labels) (n : nat)
  (z0 : tensor4) : tensor4 :=
  to_image (final (conditional net y) n (sample_times n) z0).

(** Entrywise agreement within an absolute tolerance. *)
Definition allclose (atol : Qc) (a b : tensor4) : Prop :=
  same_shape a b = true /\
  Forall (fun d => - atol <= d /\ d <= atol) (flatten4 (sub a b)).

End Euler.

(** ** The value and the trace entry of a [decode] call *)

Module Latent.
Import Torch.

Definition decoded {B : Backend} (self : LatentRectifiedFlow.t B)
  (x : tensor4) : tensor4 :=
  decode_sample (LatentRectifiedFlow.vae self)
    (div_scalar x LatentRectifiedFlow.scale).

Definition decode_event (x : tensor4) : Run.event :=
  Run.Decode (div_scalar x LatentRectifiedFlow.scale).

(** The [decode] calls of a latent sampler: one on the integrated state,
    then, when the trajectory is requested, one on every recorded state. *)
Definition decode_events (return_all_steps : bool) (z : tensor4)
  (images : list tensor4) : list Run.event :=
  decode_event z
    :: (if return_all_steps then map decode_event images else []).

End Latent.

(** ** The draws and the interpolation of the training loss *)

Module Loss.
Import Torch.

(** The per-sample times: uniform draws, or the logistic function of
    standard normal draws when [logit_normal_sampling_t] is set. *)
Definition times (B : Backend) (logit_normal : bool) (b : nat) (g : gstate B)
  : tensor1 * gstate B :=
  if logit_normal
  then let (r, g1) := randn1 B b g in (map (sigmoid B) r, g1)
  else rand1 B b g.

(** [(1 - t_) * x + t_ * z]. *)
Definition interpolate (t : tensor1) (x z : tensor4) : tensor4 :=
  add (mul_b111 (rsub1 t) x) (mul_b111 t z).

(** The index (b, c, h, w) is within the tensor. *)
Definition in_range (x : tensor4) (b c h w : nat) : Prop :=
  (b < length x)%nat /\
  (c < length (nth b x []))%nat /\
  (h < length (nth c (nth b x []) []))%nat /\
  (w < length (nth h (nth c (nth b x []) []) []))%nat.

End Loss.

(** ** Vocabulary for statements about runs *)

Module Claims.
Import Torch Run.

Definition is_ok {A : Type} (o : outcome A) : bool :=
  match o with Ok _ => true | AssertionError _ => false end.

Definition raises {A : Type} (o : outcome A) : Prop :=
  exists msg, o = AssertionError msg.

(** The events a run started in [w] has added to the trace. *)
Definition new_events {B : Backend} {A : Type} (w : world B)
  (o : outcome (A * world B)) : list event :=
  match o with
  | Ok (_, w') => skipn (length (trace w)) (trace w')
  | AssertionError _ => []
  end.

(** A run divides by zero when it records a division by the integer 0. *)
Definition divides_by_zero {B : Backend} {A : Type} (w : world B)
  (o : outcome (A * world B)) : Prop :=
  In (DivInt 0) (new_events w o).

(** [sample] draws its noise with the shape (batch_size, channels,
    image_size, image_size), integrates over the time points [times] -- at
    each of them it queries [net(z, t)] and moves [z] by [- v_t / n] -- and
    returns the integrated state clipped to [-1,1] and mapped to [0,1]. *)
Definition sample_integrates_over {B : Backend} (times : list Qc)
  (self : RectifiedFlow.t) (batch_size n : nat) (return_all_steps : bool)
  (w : world B) : Prop :=
  let shape := (batch_size, RectifiedFlow.channels self,
                RectifiedFlow.image_size self, RectifiedFlow.image_size self) in
  let q := Euler.plain (RectifiedFlow.net self) in
  exists z0 g out,
    randn B shape (rng w) = (z0, g) /\
    has_shape shape z0 = true /\
    RectifiedFlow.sample self batch_size n return_all_steps w
    = Ok (out, {| rng := g;
                  trace := trace w
                           ++ Euler.events q n Euler.plain_event times z0 |}) /\
    images_of out = Euler.to_image (Euler.final q n times z0) /\
    Forall (fun v => 0 <= v /\ v <= 1) (flatten4 (images_of out)).

(** A sampler run returns a trajectory [map post states] that has [n + 1]
    elements, begins with [post z0] and ends with the returned sample. *)
Definition returns_trajectory {B : Backend} (n : nat)
  (post : tensor4 -> tensor4) (states : list tensor4) (z0 : tensor4)
  (o : outcome (sample_output * world B)) : Prop :=
  exists z all_steps w',
    o = Ok (ImagesAndSteps z all_steps, w') /\
    all_steps = map post states /\
    length all_steps = S n /\
    hd_error all_steps = Some (post z0) /\
    last all_steps [] = z.

(** The pixel-space run [o_base] and the latent run [o_latent] start from
    the same noise, go through the same integration and record the same
    queries and divisions; the latent run then decodes the integrated state
    (and every recorded state when the trajectory is returned) before the
    clip and the map to [0,1]. *)
Definition differ_by_decode {B : Backend} (self : LatentRectifiedFlow.t B)
  (query : tensor4 -> Qc -> tensor4) (ev : tensor4 -> Qc -> event)
  (shape : nat * nat * nat * nat) (n : nat) (return_all_steps : bool)
  (w : world B) (o_base o_latent : outcome (sample_output * world B)) : Prop :=
  exists z0 g,
    randn B shape (rng w) = (z0, g) /\
    let ts := Euler.sample_times n in
    let states := Euler.states query n ts z0 in
    let z := Euler.final query n ts z0 in
    let evs := Euler.events query n ev ts z0 in
    o_base
    = Ok (result_of return_all_steps (Euler.to_image z)
            (map Euler.to_image states),
          {| rng := g; trace := trace w ++ evs |}) /\
    o_latent
    = Ok (result_of return_all_steps
            (Euler.to_image (Latent.decoded self z))
            (map (fun x => Euler.to_image (Latent.decoded self x)) states),
          {| rng := g;
             trace := trace w ++ evs
                      ++ Latent.decode_events return_all_steps z states |}).

End Claims.

(** ** Concrete instances, for running the definitions *)

Module Demo.
Import Torch.

Definition q (a : Z) (b : positive) : Qc := Q2Qc (a # b).

Definition abs (x : Qc) : Qc :=
  match x ?= 0 with Lt => - x | _ => x end.

(** A generator that cycles through -3/2, -3/4, 0, 3/4, 3/2 for normal draws
    and through 0, 1/4, 1/2, 3/4 for uniform draws, and a rational stand-in
    for the logistic function. *)
Definition backend : Backend :=
  {| gstate := nat;
     next_normal := fun g => (q (3 * (Z.of_nat (g mod 5) - 2)) 4, S g);
     next_uniform := fun g => (q (Z.of_nat (g mod 4)) 4, S g);
     sigmoid := fun x => (1 + x / (1 + abs x)) / Qc_of_nat 2 |}.

Definition world0 : Run.world backend := Run.Build_world backend O [].

Definition time_value (t : Net.time_arg) : Qc :=
  match t with
  | Net.T0 t => t
  | Net.T1 ts => hd 0 ts
  end.

Definition offset (c : option Net.labels) : Qc :=
  match c with
  | None => 0
  | Some y => Qc_of_nat (list_sum y)
  end.

Definition velocity (t off v : Qc) : Qc := v * (1 + t) / Qc_of_nat 4 + off.

(** A network whose prediction is affine in its input, with the usual
    guidance combination [v_uncond + cfg_scale * (v_cond - v_uncond)]. *)
Definition net (classes : option nat) : Net.t :=
  {| Net.num_classes := classes;
     Net.call := fun z t c => map4 (velocity (time_value t) (offset c)) z;
     Net.forward_with_cfg := fun z t y s =>
       map4 (fun v =>
               let v_uncond := velocity (time_value t) 0 v in
               let v_cond := velocity (time_value t) (offset (Some y)) v in
               v_uncond + s * (v_cond - v_uncond)) z |}.

(** A network that returns the same tensor whatever it is asked. *)
Definition constant_net (v : tensor4) : Net.t :=
  {| Net.num_classes := None;
     Net.call := fun _ _ _ => v;
     Net.forward_with_cfg := fun _ _ _ _ => v |}.

(** A batch of one 1x2x2 image, and the target [z - x] that [forward]
    forms for it from the first draws of the generator. *)
Definition batch : tensor4 := [[[[q 1 2; q 1 4]; [q 0 1; q 1 1]]]].

Definition target : tensor4 :=
  sub (fst (randn_like backend batch
              (snd (Loss.times backend false (length batch) O))))
    (Utils.normalize_to_neg1_1 batch).

(** The model around the network that always answers [target]. *)
Definition oracle_flow : RectifiedFlow.t :=
  RectifiedFlow.init (constant_net target) 1 2 false.

Definition flow : RectifiedFlow.t := RectifiedFlow.init (net None) 1 2 false.
Definition cond_flow : RectifiedFlow.t :=
  RectifiedFlow.init (net (Some 10%nat)) 1 2 false.

(** A deterministic autoencoder stand-in that doubles on the way in and
    halves on the way out, and the identity stand-in. *)
Definition doubling_vae : AutoencoderKL backend :=
  {| encode_sample := fun x g => (map4 (fun v => v * Qc_of_nat 2) x, g);
     decode_sample := fun x => map4 (fun v => v / Qc_of_nat 2) x |}.
Definition identity_vae : AutoencoderKL backend :=
  {| encode_sample := fun x g => (x, g);
     decode_sample := fun x => x |}.

Definition latent_flow : LatentRectifiedFlow.t backend :=
  {| LatentRectifiedFlow.base := flow; LatentRectifiedFlow.vae := doubling_vae |}.
Definition cond_latent_flow : LatentRectifiedFlow.t backend :=
  {| LatentRectifiedFlow.base := cond_flow;
     LatentRectifiedFlow.vae := doubling_vae |}.

End Demo.

(** ** The latent scaling in IEEE binary32

    [encode] and [decode] once more, on tensors of binary32 numbers (the
    default dtype), with the arithmetic of [SpecFloat]: every operation is
    rounded to nearest, ties to even.  The autoencoder is a deterministic
    stand-in here. *)

Module Float32.

Definition prec : Z := 24.
Definition emax : Z := 128.

Definition f32 : Type := spec_float.
Definition tensor4 : Type := list (list (list (list f32))).

Definition map4 (f : f32 -> f32) : tensor4 -> tensor4 :=
  map (map (map (map f))).

Definition mul : f32 -> f32 -> f32 := SFmul prec emax.
Definition div : f32 -> f32 -> f32 := SFdiv prec emax.

(** The Python float [0.13025]: the binary64 number nearest to
    13025/100000. *)
Definition literal : spec_float :=
  SFdiv 53 1024 (binary_normalize 53 1024 13025 0 false)
    (binary_normalize 53 1024 100000 0 false).

(** Conversion of a binary64 number to binary32. *)
Definition of_f64 (x : spec_float) : f32 :=
  match x with
  | S754_finite s m e =>
      binary_normalize prec emax (cond_Zopp s (Zpos m)) e s
  | _ => x
  end.

(** The scalar operand, converted to the dtype of the tensor. *)
Definition scale : f32 := of_f64 literal.

Record codec : Type := {
  enc : tensor4 -> tensor4;
  dec : tensor4 -> tensor4
}.

Definition identity : codec := {| enc := fun x => x; dec := fun x => x |}.

(** [vae.encode(x).latent_dist.sample().mul_(0.13025)]. *)
Definition encode (vae : codec) (x : tensor4) : tensor4 :=
  map4 (fun v => mul v scale) (enc vae x).

(** [vae.decode(x / 0.13025).sample], the division done as a division. *)
Definition decode (vae : codec) (x : tensor4) : tensor4 :=
  dec vae (map4 (fun v => div v scale) x).

(** The same with [x / 0.13025] computed as [x * (1 / 0.13025)], the way a
    tensor is divided by a scalar on a GPU. *)
Definition decode_by_reciprocal (vae : codec) (x : tensor4) : tensor4 :=
  dec vae (map4 (fun v => mul v (div (binary_normalize prec emax 1 0 false) scale)) x).

(** The binary32 number nearest to 0.96, which is 16106127 * 2^-24. *)
Definition x0 : f32 :=
  div (binary_normalize prec emax 96 0 false)
    (binary_normalize prec emax 100 0 false).

End Float32.

(** ** Python exceptions other than a failed assertion *)

Module Py.
Import Torch.

Inductive exn : Type :=
| AssertionError (msg : string)
| ZeroDivisionError
| RuntimeError
| FileNotFoundError
| IndexError
| TypeError
| ValueError.

Inductive result (A : Type) : Type :=
| Returned (a : A)
| Raised (e : exn).
Arguments Returned {A}.
Arguments Raised {A}.

Definition of_outcome {A : Type} (o : Run.outcome A) : result A :=
  match o with
  | Run.Ok a => Returned a
  | Run.AssertionError msg => Raised (AssertionError msg)
  end.

(** Runs that may raise any of the exceptions. *)
Definition M (B : Backend) (A : Type) : Type :=
  Run.world B -> result (A * Run.world B).

Definition ret {B : Backend} {A : Type} (a : A) : M B A :=
  fun w => Returned (a, w).

Definition bind {B : Backend} {A C : Type} (m : M B A) (k : A -> M B C)
  : M B C :=
  fun w =>
    match m w with
    | Returned (a, w') => k a w'
    | Raised e => Raised e
    end.

Definition raise {B : Backend} {A : Type} (e : exn) : M B A :=
  fun _ => Raised e.

(** A call of one of the methods of the flow models. *)
Definition lift {B : Backend} {A : Type} (m : Run.M B A) : M B A :=
  fun w => of_outcome (m w).

(** A computation that touches neither the generator nor the trace. *)
Definition pure {B : Backend} {A : Type} (r : result A) : M B A :=
  fun w =>
    match r with
    | Returned a => Returned (a, w)
    | Raised e => Raised e
    end.

(** The events a run started in [w] has added to the trace. *)
Definition new_events {B : Backend} {A : Type} (w : Run.world B)
  (r : result (A * Run.world B)) : list Run.event :=
  match r with
  | Returned (_, w') => skipn (length (Run.trace w)) (Run.trace w')
  | Raised _ => []
  end.

End Py.

Notation "x <~ m ;; k" := (Py.bind m (fun x => k))
  (at level 61, m at next level, right associativity).
Notation "' pat <~ m ;; k" :=
  (Py.bind m (fun x => match x with pat => k end))
  (at level 61, pat pattern, m at next level, right associativity).

(** ** Counting the events of a run *)

Module Trace.

Definition is_query (e : Run.event) : bool :=
  match e with
  | Run.NetCall _ _ _ | Run.CfgCall _ _ _ _ => true
  | _ => false
  end.

Definition is_division (e : Run.event) : bool :=
  match e with Run.DivInt _ => true | _ => false end.

Definition is_decode (e : Run.event) : bool :=
  match e with Run.Decode _ => true | _ => false end.

Definition is_encode (e : Run.event) : bool :=
  match e with Run.Encode _ => true | _ => false end.

Definition count (p : Run.event -> bool) (evs : list Run.event) : nat :=
  length (filter p evs).

(** The divisors of the recorded divisions, in order. *)
Fixpoint divisors (evs : list Run.event) : list nat :=
  match evs with
  | [] => []
  | Run.DivInt d :: evs' => d :: divisors evs'
  | _ :: evs' => divisors evs'
  end.

(** The guided queries of a run, as (labels, cfg_scale, time vector, batch
    length of the state). *)
Fixpoint guided_queries (evs : list Run.event)
  : list (Net.labels * Qc * Net.time_arg * nat) :=
  match evs with
  | [] => []
  | Run.CfgCall z t y s :: evs' => (y, s, t, length z) :: guided_queries evs'
  | _ :: evs' => guided_queries evs'
  end.

(** Two runs return the same images and leave the generator in the same
    state. *)
Definition same_images_and_generator {B : Torch.Backend}
  (o1 o2 : Run.outcome (sample_output * Run.world B)) : Prop :=
  exists out1 w1 out2 w2,
    o1 = Run.Ok (out1, w1) /\ o2 = Run.Ok (out2, w2) /\
    images_of out1 = images_of out2 /\ Run.rng w1 = Run.rng w2.

End Trace.

(** ** [RectifiedFlow.fid_sample] *)

Module Fid.
Import Torch.

(** [torch.randint(low, high, ...)]: one integer draw of the generator. *)
Record IntSource (B : Backend) : Type := {
  next_randint : nat -> nat -> gstate B -> nat * gstate B
}.
Arguments next_randint {B}.

(** [torch.randint(low, high, (n,))], which refuses an empty range. *)
Definition randint {B : Backend} (I : IntSource B) (low high n : nat)
  : Py.M B (list nat) :=
  if Nat.leb high low
  then Py.raise Py.RuntimeError
  else fun w =>
         let (y, g) := draws (next_randint I low high) n (Run.rng w) in
         Py.Returned (y, {| Run.rng := g; Run.trace := Run.trace w |}).

(** [fid_sample] of the pixel-space model; [sampling_steps] and
    [return_all_steps] take their defaults, 50 and [False]. *)
Definition fid_sample {B : Backend} (I : IntSource B)
  (self : RectifiedFlow.t) (batch_size : nat) (cfg_scale : Qc)
  : Py.M B sample_output :=
  if RectifiedFlow.use_cond self
  then match Net.num_classes (RectifiedFlow.net self) with
       | Some num_classes =>
           y <~ randint I 0 num_classes batch_size ;;
           Py.lift (RectifiedFlow.cond_sample self y 50 cfg_scale false)
       | None => Py.raise Py.TypeError
       end
  else Py.lift (RectifiedFlow.sample self batch_size 50 false).

(** The inherited [fid_sample] of the latent model, which reaches the
    overriding [sample] and [cond_sample]. *)
Definition latent_fid_sample {B : Backend} (I : IntSource B)
  (self : LatentRectifiedFlow.t B) (batch_size : nat) (cfg_scale : Qc)
  : Py.M B sample_output :=
  if RectifiedFlow.use_cond (LatentRectifiedFlow.base self)
  then match Net.num_classes
               (RectifiedFlow.net (LatentRectifiedFlow.base self)) with
       | Some num_classes =>
           y <~ randint I 0 num_classes batch_size ;;
           Py.lift (LatentRectifiedFlow.cond_sample self y 50 cfg_scale false)
       | None => Py.raise Py.TypeError
       end
  else Py.lift (LatentRectifiedFlow.sample self batch_size 50 false).

End Fid.

(** ** [trainer.py] *)

Module Trainer.
Import Torch.

(** [num_to_groups(num, divisor)] on Python integers: [//] and [%] round
    towards minus infinity, as [Z.div] and [Z.modulo] do, and raise for a
    zero divisor; a list repeated a negative number of times is empty. *)
Definition num_to_groups (num divisor : Z) : Py.result (list Z) :=
  if Z.eqb divisor 0
  then Py.Raised Py.ZeroDivisionError
  else
    let groups := (num / divisor)%Z in
    let remainder := (num mod divisor)%Z in
    let arr := repeat divisor (Z.to_nat groups) in
    Py.Returned (if Z.ltb 0 remainder then arr ++ [remainder] else arr).

(** The sum of a list of integers. *)
Definition total (l : list Z) : Z := fold_right Z.add 0%Z l.

(** Each element is smaller than the next. *)
Fixpoint increasing (l : list nat) : bool :=
  match l with
  | a :: (b :: _) as l' => Nat.ltb a b && increasing l'
  | _ => true
  end.

(** A checkpoint file [log_dir / "model-step{step}.ckpt"] is named by its
    step; the directory is the list of the checkpoint files in it. *)
Definition path : Type := nat.
Definition directory : Type := list path.

Definition file_exists (p : path) (d : directory) : bool :=
  existsb (Nat.eqb p) d.

(** [torch.save(state_dict, p)] creates or overwrites the file. *)
Definition torch_save (p : path) (d : directory) : directory :=
  if file_exists p d then d else p :: d.

(** [os.remove(p)]. *)
Definition os_remove (p : path) (d : directory) : Py.result directory :=
  if file_exists p d
  then Py.Returned (filter (fun q => negb (Nat.eqb q p)) d)
  else Py.Raised Py.FileNotFoundError.

(** The attributes of the trainer that the modelled methods read or
    write. *)
Record t : Type := {
  model : RectifiedFlow.t;
  sample_batch_size : Z;
  sampling_steps : nat;
  n_per_class : nat;
  step : nat;
  ckpt_paths : list path
}.

Definition set_ckpt_paths (self : t) (paths : list path) : t :=
  {| model := model self;
     sample_batch_size := sample_batch_size self;
     sampling_steps := sampling_steps self;
     n_per_class := n_per_class self;
     step := step self;
     ckpt_paths := paths |}.

Definition set_step (self : t) (s : nat) : t :=
  {| model := model self;
     sample_batch_size := sample_batch_size self;
     sampling_steps := sampling_steps self;
     n_per_class := n_per_class self;
     step := s;
     ckpt_paths := ckpt_paths self |}.

(** [save_ckpt], as far as the checkpoint files go: the file of the current
    step is written and its path appended; when more than three paths are
    kept, the oldest is popped and its file removed. *)
Definition save_ckpt (self : t) (d : directory)
  : Py.result (t * directory) :=
  let ckpt_path := step self in
  let d := torch_save ckpt_path d in
  let paths := ckpt_paths self ++ [ckpt_path] in
  if Nat.ltb 3 (length paths)
  then match paths with
       | [] => Py.Raised Py.IndexError
       | p :: rest =>
           match os_remove p d with
           | Py.Returned d' => Py.Returned (set_ckpt_paths self rest, d')
           | Py.Raised e => Py.Raised e
           end
       end
  else Py.Returned (set_ckpt_paths self paths, d).

(** [save_ckpt] called at each of the given steps in turn. *)
Fixpoint save_at_steps (steps : list nat) (self : t) (d : directory)
  : Py.result (t * directory) :=
  match steps with
  | [] => Py.Returned (self, d)
  | s :: steps' =>
      match save_ckpt (set_step self s) d with
      | Py.Returned (self', d') => save_at_steps steps' self' d'
      | Py.Raised e => Py.Raised e
      end
  end.

(** The last [k] elements of a list. *)
Definition lastn {A : Type} (k : nat) (l : list A) : list A :=
  skipn (length l - k) l.

(** [torch.arange(0, k)] and [y.repeat(n)] on a one-dimensional tensor. *)
Definition arange (k : nat) : list nat := seq 0 k.
Definition repeat1 (y : list nat) (n : nat) : list nat :=
  concat (repeat y n).

(** [y.split(split_size)]: a negative size is refused, and so is the size 0
    unless [y] is empty; there is always at least one chunk. *)
Definition split (y : list nat) (split_size : Z)
  : Py.result (list (list nat)) :=
  if Z.ltb split_size 0 then Py.Raised Py.RuntimeError
  else
    let s := Z.to_nat split_size in
    if Nat.eqb s 0 && negb (Nat.eqb (length y) 0)
    then Py.Raised Py.RuntimeError
    else
      let num_splits :=
        if Nat.eqb s 0 then 1%nat
        else Nat.max ((length y + s - 1) / s) 1 in
      Py.Returned
        (map (fun i => firstn s (skipn (i * s) y)) (seq 0 num_splits)).

(** The label batches of the conditional branch of [log_samples]:
    [torch.arange(0, num_classes).repeat(n_per_class).split(sample_batch_size)]. *)
Definition label_batches (self : t) (num_classes : nat)
  : Py.result (list (list nat)) :=
  split (repeat1 (arange num_classes) (n_per_class self))
    (sample_batch_size self).

(** [torch.cat] along the first dimension, on tensors none of whose
    dimensions is empty: an empty list is refused with a ValueError, and
    tensors whose slices do not have one shape with a RuntimeError. *)
Definition cat {A : Type} (same : A -> A -> bool) (ts : list (list A))
  : Py.result (list A) :=
  match ts with
  | [] => Py.Raised Py.ValueError
  | _ =>
      let slices := concat ts in
      match slices with
      | [] => Py.Returned []
      | s0 :: _ =>
          if forallb (same s0) slices
          then Py.Returned slices
          else Py.Raised Py.RuntimeError
      end
  end.

Definition same_shape3 (x y : tensor3) : bool :=
  same_len (same_len (same_len (fun _ _ : Qc => true))) x y.

Fixpoint for_each {B : Backend} {A S : Type} (xs : list A)
  (body : A -> S -> Py.M B S) (s : S) : Py.M B S :=
  match xs with
  | [] => Py.ret s
  | x :: xs' => s' <~ body x s ;; for_each xs' body s'
  end.

(** The unconditional branch of [log_samples], up to the two [torch.cat]
    calls: 100 samples are drawn in groups of at most [sample_batch_size],
    each with its trajectory, and the samples and the trajectories are
    concatenated.  What follows in the source (grids, files, trackers) works
    on these two tensors. *)
Definition log_samples_else {B : Backend} (self : t)
  : Py.M B (tensor4 * tensor5) :=
  batch_batch_size <~
    Py.pure (num_to_groups 100 (sample_batch_size self)) ;;
  '(samples, samples_each_step) <~
    for_each batch_batch_size
      (fun _b '(samples, samples_each_step) =>
         if Z.ltb _b 0 then Py.raise Py.RuntimeError
         else
           out <~ Py.lift (RectifiedFlow.sample (model self) (Z.to_nat _b)
                             (sampling_steps self) true) ;;
           match out with
           | ImagesAndSteps _samples _samples_each_step =>
               Py.ret (samples ++ [_samples],
                       samples_each_step ++ [_samples_each_step])
           | Images _ => Py.raise Py.ValueError
           end)
      ([], []) ;;
  samples <~ Py.pure (cat same_shape3 samples) ;;
  samples_each_step <~ Py.pure (cat same_shape samples_each_step) ;;
  Py.ret (samples, samples_each_step).

End Trainer.

(** ** A concrete trainer *)

Module TrainerDemo.

Definition trainer : Trainer.t :=
  {| Trainer.model := Demo.flow;
     Trainer.sample_batch_size := 30;
     Trainer.sampling_steps := 2;
     Trainer.n_per_class := 2;
     Trainer.step := 0;
     Trainer.ckpt_paths := [] |}.

(** The same trainer with groups of 50. *)
Definition even_trainer : Trainer.t :=
  {| Trainer.model := Demo.flow;
     Trainer.sample_batch_size := 50;
     Trainer.sampling_steps := 2;
     Trainer.n_per_class := 2;
     Trainer.step := 0;
     Trainer.ckpt_paths := [] |}.

(** A generator of integers that counts upwards within the range. *)
Definition int_source : Fid.IntSource Demo.backend :=
  Fid.Build_IntSource Demo.backend
    (fun (low high g : nat) => ((low + g mod (high - low))%nat, S g)).

End TrainerDemo.

(** * Properties *)

(** ** Runs of the Euler loop *)

Section LoopFacts.
Import Torch Run Calls.
Context {B : Backend}.

Lemma states_head (query : tensor4 -> Qc -> tensor4) (n : nat) (ts : list Qc)
  (z : tensor4) :
  z :: tl (Euler.states query n ts z) = Euler.states query n ts z.
Proof. destruct ts; reflexivity. Qed.

Lemma states_length (query : tensor4 -> Qc -> tensor4) (n : nat)
  (ts : list Qc) :
  forall z, length (Euler.states query n ts z) = S (length ts).
Proof.
  induction ts as [|t ts IH]; intros z; simpl; [reflexivity|].
  now rewrite IH.
Qed.

Lemma states_last (query : tensor4 -> Qc -> tensor4) (n : nat)
  (ts : list Qc) :
  forall z d,
    last (Euler.states query n ts z) d = Euler.final query n ts z.
Proof.
  induction ts as [|t ts IH]; intros z d; [reflexivity|].
  change (Euler.states query n (t :: ts) z)
    with (z :: Euler.states query n ts (Euler.step query n z t)).
  change (Euler.final query n (t :: ts) z)
    with (Euler.final query n ts (Euler.step query n z t)).
  rewrite <- (IH (Euler.step query n z t) d).
  destruct (Euler.states query n ts (Euler.step query n z t)) eqn:E.
  - pose proof (states_length query n ts (Euler.step query n z t)) as L.
    rewrite E in L. discriminate L.
  - reflexivity.
Qed.

(** The loop of the samplers, for any way [Q] of querying the velocity that
    returns [query z t] and records [ev z t]. *)
Lemma euler_loop (Q : tensor4 -> Qc -> M B tensor4)
  (query : tensor4 -> Qc -> tensor4) (ev : tensor4 -> Qc -> event) (n : nat) :
  (forall z t w,
      Q z t w = Ok (query z t,
                    {| rng := rng w; trace := trace w ++ [ev z t] |})) ->
  forall ts z images w,
    for_each ts
      (fun t '(z, images) =>
         v_t <- Q z t ;;
         dz <- div_int v_t n ;;
         let z := sub z dz in
         ret (z, images ++ [z]))
      (z, images) w
    = Ok ((Euler.final query n ts z,
           images ++ tl (Euler.states query n ts z)),
          {| rng := rng w;
             trace := trace w ++ Euler.events query n ev ts z |}).
Proof.
  intros HQ ts.
  induction ts as [|t ts IH]; intros z images w.
  - simpl. unfold ret. rewrite !app_nil_r. destruct w; reflexivity.
  - cbn [for_each]. unfold bind at 1. unfold bind at 1.
    rewrite HQ. unfold bind at 1. unfold div_int at 1, bind at 1, emit, ret.
    cbn [rng trace].
    rewrite IH. cbn [rng trace].
    change (Euler.final query n (t :: ts) z)
      with (Euler.final query n ts (Euler.step query n z t)).
    change (Euler.states query n (t :: ts) z)
      with (z :: Euler.states query n ts (Euler.step query n z t)).
    cbn [tl Euler.events].
    rewrite <- (states_head query n ts (Euler.step query n z t)).
    unfold Euler.step at 3.
    rewrite <- !app_assoc. reflexivity.
Qed.

End LoopFacts.

(** ** What the four samplers compute *)

Section SamplerRuns.
Import Torch Run Calls.
Context {B : Backend}.

(** Replace the loop of the goal by its value, as given by [L]. *)
Ltac use_loop L :=
  cbv beta zeta in L;
  match type of L with
  | _ = ?R =>
      match goal with
      | |- context [for_each ?a ?b ?c ?d] =>
          replace (for_each a b c d) with R by (symmetry; exact L)
      end
  end.

Lemma call_net_run (net : Net.t) (z : tensor4) (t : Net.time_arg)
  (c : option Net.labels) (w : world B) :
  call_net net z t c w
  = Ok (Net.call net z t c,
        {| rng := rng w; trace := trace w ++ [NetCall z t c] |}).
Proof. reflexivity. Qed.

Lemma call_cfg_run (net : Net.t) (z : tensor4) (t : Net.time_arg)
  (y : Net.labels) (s : Qc) (w : world B) :
  call_cfg net z t y s w
  = Ok (Net.forward_with_cfg net z t y s,
        {| rng := rng w; trace := trace w ++ [CfgCall z t y s] |}).
Proof. reflexivity. Qed.

Lemma map_to_image (l : list tensor4) :
  unnormalize_to_0_1_5 (clip5 (stack l) (- (1)) 1) = map Euler.to_image l.
Proof.
  unfold unnormalize_to_0_1_5, clip5, stack. rewrite map_map. reflexivity.
Qed.

Lemma sample_run (self : RectifiedFlow.t) (batch_size n : nat) (ras : bool)
  (w : world B) :
  RectifiedFlow.sample self batch_size n ras w
  = let (z0, g) :=
      randn B (batch_size, RectifiedFlow.channels self,
               RectifiedFlow.image_size self, RectifiedFlow.image_size self)
        (rng w) in
    let q := Euler.plain (RectifiedFlow.net self) in
    let ts := Euler.sample_times n in
    Ok (result_of ras (Euler.to_image (Euler.final q n ts z0))
          (map Euler.to_image (Euler.states q n ts z0)),
        {| rng := g;
           trace := trace w ++ Euler.events q n Euler.plain_event ts z0 |}).
Proof.
  unfold RectifiedFlow.sample. unfold bind at 1. unfold draw at 1.
  destruct (randn B _ (rng w)) as [z0 g]. cbv zeta.
  unfold bind at 1.
  pose proof (euler_loop
                (fun z t => call_net (RectifiedFlow.net self) z (Net.T0 t) None)
                (Euler.plain (RectifiedFlow.net self)) Euler.plain_event n
                (fun z t w => call_net_run _ z (Net.T0 t) None w)
                (reversed (linspace 0 1 n)) z0 [z0]
                {| rng := g; trace := trace w |}) as L.
  use_loop L. clear L. cbn [rng trace].
  change ([z0] ++ ?l) with (z0 :: l). rewrite states_head.
  rewrite map_to_image. unfold Euler.sample_times, result_of, ret.
  destruct ras; reflexivity.
Qed.

Lemma cond_sample_run (self : RectifiedFlow.t) (classes : Net.labels)
  (n : nat) (cfg_scale : Qc) (ras : bool) (w : world B) :
  RectifiedFlow.use_cond self = true ->
  RectifiedFlow.cond_sample self classes n cfg_scale ras w
  = let (z0, g) :=
      randn B (length classes, RectifiedFlow.channels self,
               RectifiedFlow.image_size self, RectifiedFlow.image_size self)
        (rng w) in
    let q := Euler.guided (RectifiedFlow.net self) classes cfg_scale in
    let ts := Euler.sample_times n in
    Ok (result_of ras (Euler.to_image (Euler.final q n ts z0))
          (map Euler.to_image (Euler.states q n ts z0)),
        {| rng := g;
           trace := trace w
                    ++ Euler.events q n (Euler.guided_event classes cfg_scale)
                         ts z0 |}).
Proof.
  intros Hc.
  unfold RectifiedFlow.cond_sample. unfold bind at 1. rewrite Hc.
  unfold assert_ at 1. cbv zeta.
  unfold bind at 1. unfold draw at 1.
  destruct (randn B _ (rng w)) as [z0 g].
  cbv zeta. unfold bind at 1.
  pose proof (euler_loop
                (fun z t => call_cfg (RectifiedFlow.net self) z
                              (Net.T1 (repeat0 t (length z))) classes cfg_scale)
                (Euler.guided (RectifiedFlow.net self) classes cfg_scale)
                (Euler.guided_event classes cfg_scale) n
                (fun z t w => call_cfg_run _ z _ classes cfg_scale w)
                (reversed (linspace 0 1 n)) z0 [z0]
                {| rng := g; trace := trace w |}) as L.
  use_loop L. clear L. cbn [rng trace].
  change ([z0] ++ ?l) with (z0 :: l). rewrite states_head.
  rewrite map_to_image. unfold Euler.sample_times, result_of, ret.
  destruct ras; reflexivity.
Qed.

Lemma cond_sample_error (self : RectifiedFlow.t) (classes : Net.labels)
  (n : nat) (cfg_scale : Qc) (ras : bool) (w : world B) :
  RectifiedFlow.use_cond self = false ->
  RectifiedFlow.cond_sample self classes n cfg_scale ras w
  = AssertionError EmptyString.
Proof.
  intros Hc. unfold RectifiedFlow.cond_sample. unfold bind at 1.
  rewrite Hc. reflexivity.
Qed.

Lemma decode_run (self : LatentRectifiedFlow.t B) (x : tensor4)
  (w : world B) :
  LatentRectifiedFlow.decode self x w
  = Ok (Latent.decoded self x,
        {| rng := rng w; trace := trace w ++ [Latent.decode_event x] |}).
Proof. reflexivity. Qed.

Lemma decode_all_run (self : LatentRectifiedFlow.t B) (l : list tensor4) :
  forall w : world B,
    for_list (LatentRectifiedFlow.decode self) l w
    = Ok (map (Latent.decoded self) l,
          {| rng := rng w;
             trace := trace w ++ map Latent.decode_event l |}).
Proof.
  induction l as [|x l IH]; intros w.
  - simpl. unfold ret. rewrite app_nil_r. destruct w; reflexivity.
  - cbn [for_list]. unfold bind at 1. rewrite decode_run.
    unfold bind at 1. rewrite IH. unfold ret. cbn [rng trace map].
    rewrite <- app_assoc. reflexivity.
Qed.

Lemma latent_sample_run (self : LatentRectifiedFlow.t B)
  (batch_size n : nat) (ras : bool) (w : world B) :
  LatentRectifiedFlow.sample self batch_size n ras w
  = let b := LatentRectifiedFlow.base self in
    let (z0, g) :=
      randn B (batch_size, RectifiedFlow.channels b,
               RectifiedFlow.image_size b, RectifiedFlow.image_size b)
        (rng w) in
    let q := Euler.plain (RectifiedFlow.net b) in
    let ts := Euler.sample_times n in
    Ok (result_of ras
          (Euler.to_image (Latent.decoded self (Euler.final q n ts z0)))
          (map (fun x => Euler.to_image (Latent.decoded self x))
             (Euler.states q n ts z0)),
        {| rng := g;
           trace := trace w
                    ++ Euler.events q n Euler.plain_event ts z0
                    ++ Latent.decode_events ras (Euler.final q n ts z0)
                         (Euler.states q n ts z0) |}).
Proof.
  unfold LatentRectifiedFlow.sample. unfold bind at 1. unfold draw at 1.
  cbv zeta.
  destruct (randn B _ (rng w)) as [z0 g].
  cbv zeta. unfold bind at 1.
  pose proof (euler_loop
                (fun z t => call_net
                              (RectifiedFlow.net (LatentRectifiedFlow.base self))
                              z (Net.T0 t) None)
                (Euler.plain (RectifiedFlow.net (LatentRectifiedFlow.base self)))
                Euler.plain_event n
                (fun z t w => call_net_run _ z (Net.T0 t) None w)
                (reversed (linspace 0 1 n)) z0 [z0]
                {| rng := g; trace := trace w |}) as L.
  use_loop L. clear L. cbn [rng trace].
  change ([z0] ++ ?l) with (z0 :: l). rewrite states_head.
  unfold bind at 1. rewrite decode_run. cbn [rng trace].
  unfold Euler.sample_times, result_of, Latent.decode_events.
  destruct ras.
  - unfold bind at 1. rewrite decode_all_run. unfold ret. cbn [rng trace].
    rewrite map_to_image, map_map, <- !app_assoc. reflexivity.
  - unfold ret. rewrite <- !app_assoc. reflexivity.
Qed.

Lemma latent_cond_sample_run (self : LatentRectifiedFlow.t B)
  (classes : Net.labels) (n : nat) (cfg_scale : Qc) (ras : bool)
  (w : world B) :
  RectifiedFlow.use_cond (LatentRectifiedFlow.base self) = true ->
  LatentRectifiedFlow.cond_sample self classes n cfg_scale ras w
  = let b := LatentRectifiedFlow.base self in
    let (z0, g) :=
      randn B (length classes, RectifiedFlow.channels b,
               RectifiedFlow.image_size b, RectifiedFlow.image_size b)
        (rng w) in
    let q := Euler.guided (RectifiedFlow.net b) classes cfg_scale in
    let ts := Euler.sample_times n in
    Ok (result_of ras
          (Euler.to_image (Latent.decoded self (Euler.final q n ts z0)))
          (map (fun x => Euler.to_image (Latent.decoded self x))
             (Euler.states q n ts z0)),
        {| rng := g;
           trace := trace w
                    ++ Euler.events q n (Euler.guided_event classes cfg_scale)
                         ts z0
                    ++ Latent.decode_events ras (Euler.final q n ts z0)
                         (Euler.states q n ts z0) |}).
Proof.
  intros Hc.
  unfold LatentRectifiedFlow.cond_sample. unfold bind at 1. rewrite Hc.
  unfold assert_ at 1. cbv zeta.
  unfold bind at 1. unfold draw at 1.
  destruct (randn B _ (rng w)) as [z0 g].
  cbv zeta. unfold bind at 1.
  pose proof (euler_loop
                (fun z t => call_cfg
                              (RectifiedFlow.net (LatentRectifiedFlow.base self))
                              z (Net.T1 (repeat0 t (length z))) classes
                              cfg_scale)
                (Euler.guided
                   (RectifiedFlow.net (LatentRectifiedFlow.base self))
                   classes cfg_scale)
                (Euler.guided_event classes cfg_scale) n
                (fun z t w => call_cfg_run _ z _ classes cfg_scale w)
                (reversed (linspace 0 1 n)) z0 [z0]
                {| rng := g; trace := trace w |}) as L.
  use_loop L. clear L. cbn [rng trace].
  change ([z0] ++ ?l) with (z0 :: l). rewrite states_head.
  unfold bind at 1. rewrite decode_run. cbn [rng trace].
  unfold Euler.sample_times, result_of, Latent.decode_events.
  destruct ras.
  - unfold bind at 1. rewrite decode_all_run. unfold ret. cbn [rng trace].
    rewrite map_to_image, map_map, <- !app_assoc. reflexivity.
  - unfold ret. rewrite <- !app_assoc. reflexivity.
Qed.

Lemma latent_cond_sample_error (self : LatentRectifiedFlow.t B)
  (classes : Net.labels) (n : nat) (cfg_scale : Qc) (ras : bool)
  (w : world B) :
  RectifiedFlow.use_cond (LatentRectifiedFlow.base self) = false ->
  LatentRectifiedFlow.cond_sample self classes n cfg_scale ras w
  = AssertionError EmptyString.
Proof.
  intros Hc. unfold LatentRectifiedFlow.cond_sample. unfold bind at 1.
  rewrite Hc. reflexivity.
Qed.

End SamplerRuns.

(** ** The time grid *)

Section TimeGrid.
Import Torch.

Lemma Qc_of_nat_S (n : nat) : Qc_of_nat (S n) = Qc_of_nat n + 1.
Proof.
  unfold Qc_of_nat, Qcplus. apply Q2Qc_eq_iff.
  rewrite Nat2Z.inj_succ. unfold Z.succ. rewrite inject_Z_plus.
  cbn [this Q2Qc]. rewrite !Qred_correct. reflexivity.
Qed.

Lemma Qc_of_nat_0 : Qc_of_nat 0 = 0.
Proof. apply Qc_is_canon. reflexivity. Qed.

Lemma Qc_of_nat_nonneg (n : nat) : 0 <= Qc_of_nat n.
Proof.
  induction n as [|n IH].
  - rewrite Qc_of_nat_0. apply Qcle_refl.
  - rewrite Qc_of_nat_S.
    apply Qcle_trans with (0 + 1).
    + now apply Qclt_le_weak.
    + apply Qcplus_le_compat; [exact IH | apply Qcle_refl].
Qed.

Lemma Qc_of_nat_pos (n : nat) : (0 < n)%nat -> 0 < Qc_of_nat n.
Proof.
  destruct n as [|n]; [lia|]. intros _. rewrite Qc_of_nat_S.
  apply Qclt_le_trans with (0 + 1); [reflexivity|].
  apply Qcplus_le_compat; [apply Qc_of_nat_nonneg | apply Qcle_refl].
Qed.

Lemma Qc_of_nat_nonzero (n : nat) : (0 < n)%nat -> Qc_of_nat n <> 0.
Proof.
  intros H E. apply Qc_of_nat_pos in H. rewrite E in H.
  exact (Qclt_not_eq _ _ H eq_refl).
Qed.

Lemma Qc_of_nat_plus (a b : nat) :
  Qc_of_nat (a + b) = Qc_of_nat a + Qc_of_nat b.
Proof.
  induction a as [|a IH]; simpl.
  - rewrite Qc_of_nat_0. ring.
  - rewrite !Qc_of_nat_S, IH. ring.
Qed.

Lemma linspace_length (a b : Qc) (n : nat) : length (linspace a b n) = n.
Proof.
  destruct n as [|[|n]]; [reflexivity | reflexivity |].
  unfold linspace. now rewrite length_map, length_seq.
Qed.

Lemma sample_times_length (n : nat) : length (Euler.sample_times n) = n.
Proof.
  unfold Euler.sample_times, reversed.
  now rewrite length_rev, linspace_length.
Qed.

Lemma down_from_length (t h : Qc) (n : nat) :
  length (Euler.down_from t h n) = n.
Proof.
  revert t. induction n as [|n IH]; intros t; simpl; [reflexivity|].
  now rewrite IH.
Qed.

Lemma down_from_nth (h : Qc) (n : nat) :
  forall t i, (i < n)%nat ->
    nth i (Euler.down_from t h n) 0 = t - Qc_of_nat i * h.
Proof.
  induction n as [|n IH]; intros t i Hi; [lia|].
  destruct i as [|i]; simpl.
  - rewrite Qc_of_nat_0. ring.
  - rewrite IH by lia. rewrite Qc_of_nat_S. ring.
Qed.

Lemma nth_map_seq {A : Type} (f : nat -> A) (n i : nat) (d : A) :
  (i < n)%nat -> nth i (map f (seq 0 n)) d = f i.
Proof.
  intros Hi.
  rewrite (nth_indep _ d (f O)) by (rewrite length_map, length_seq; exact Hi).
  rewrite map_nth. now rewrite seq_nth.
Qed.

(** With no step at all there is no time point, and with one step the only
    time point is 0. *)
Lemma sample_times_0 : Euler.sample_times 0 = [].
Proof. reflexivity. Qed.

Lemma sample_times_1 : Euler.sample_times 1 = [0].
Proof. reflexivity. Qed.

(** From two steps on, the time points are the evenly spaced values from 1
    down to 0. *)
Lemma sample_times_descending (n : nat) :
  (2 <= n)%nat -> Euler.sample_times n = Euler.descending_times n.
Proof.
  intros Hn.
  apply nth_ext with (d := 0) (d' := 0).
  - unfold Euler.descending_times.
    now rewrite sample_times_length, down_from_length.
  - intros i Hi. rewrite sample_times_length in Hi.
    unfold Euler.descending_times. rewrite down_from_nth by exact Hi.
    unfold Euler.sample_times, reversed.
    rewrite rev_nth by (rewrite linspace_length; exact Hi).
    rewrite linspace_length.
    destruct n as [|[|n]]; [lia | lia |].
    unfold linspace.
    set (h := (1 - 0) / Qc_of_nat (S (S n) - 1)).
    rewrite nth_map_seq by lia.
    replace (S (S n) - 1)%nat with (S n) in * by lia.
    assert (Hk : Qc_of_nat (S n)
                 = Qc_of_nat (S (S n) - S i) + Qc_of_nat i).
    { rewrite <- Qc_of_nat_plus. f_equal. lia. }
    assert (Hne : Qc_of_nat (S n) <> 0) by (apply Qc_of_nat_nonzero; lia).
    subst h.
    assert (Hd : Qc_of_nat (S (S n) - S i) = Qc_of_nat (S n) - Qc_of_nat i)
      by (rewrite Hk; ring).
    rewrite Hd. change (S (S n) - 1)%nat with (S n). field. exact Hne.
Qed.

End TimeGrid.

(** ** Shapes of the draws *)

Section DrawFacts.
Import Torch.
Context {G : Type}.

Lemma draws_length {X : Type} (next : G -> X * G) (n : nat) :
  forall g, length (fst (draws next n g)) = n.
Proof.
  induction n as [|n IH]; intros g; simpl; [reflexivity|].
  destruct (next g) as [x g1]. specialize (IH g1).
  destruct (draws next n g1) as [xs g2]. simpl in *. now rewrite IH.
Qed.

Lemma draws_forallb {X : Type} (P : X -> bool) (next : G -> X * G) (n : nat) :
  (forall g, P (fst (next g)) = true) ->
  forall g, forallb P (fst (draws next n g)) = true.
Proof.
  intros HP. induction n as [|n IH]; intros g; simpl; [reflexivity|].
  specialize (HP g). destruct (next g) as [x g1]. specialize (IH g1).
  destruct (draws next n g1) as [xs g2]. simpl in *. now rewrite HP, IH.
Qed.

End DrawFacts.

Lemma randn_shape (B : Torch.Backend) (shape : nat * nat * nat * nat)
  (g : Torch.gstate B) :
  Torch.has_shape shape (fst (Torch.randn B shape g)) = true.
Proof.
  destruct shape as [[[b c] h] w]. unfold Torch.randn, Torch.has_shape.
  cbv beta iota zeta.
  rewrite draws_length, Nat.eqb_refl. simpl andb.
  apply draws_forallb. intros g1. unfold Torch.has_shape3.
  rewrite draws_length, Nat.eqb_refl. simpl andb.
  apply draws_forallb. intros g2. unfold Torch.has_shape2.
  rewrite draws_length, Nat.eqb_refl. simpl andb.
  apply draws_forallb. intros g3. unfold Torch.has_shape1.
  now rewrite draws_length, Nat.eqb_refl.
Qed.

(** ** Degenerate step counts, trajectories, and the latent samplers *)

Lemma skipn_length_app {A : Type} (l l' : list A) :
  skipn (length l) (l ++ l') = l'.
Proof. induction l as [|a l IH]; [reflexivity | exact IH]. Qed.

Lemma last_map {A C : Type} (f : A -> C) (l : list A) (d : A) (d' : C) :
  l <> [] -> last (map f l) d' = f (last l d).
Proof.
  induction l as [|a l IH]; intros Hne; [congruence|].
  destruct l as [|a' l]; [reflexivity|].
  change (last (map f (a :: a' :: l)) d') with (last (map f (a' :: l)) d').
  change (last (a :: a' :: l) d) with (last (a' :: l) d).
  apply IH. discriminate.
Qed.

(** C10.  With [sampling_steps = 0], [sample] ends without error and
    returns the initial noise clipped to [-1,1] and mapped to [0,1]; the run
    records no network query and no division, and the trajectory, when it is
    requested, has the one element. *)
Theorem sample_zero_steps (B : Torch.Backend) (self : RectifiedFlow.t)
  (batch_size : nat) (return_all_steps : bool) (w : Run.world B) :
  exists z0 g,
    Torch.randn B (batch_size, RectifiedFlow.channels self,
                   RectifiedFlow.image_size self,
                   RectifiedFlow.image_size self) (Run.rng w) = (z0, g) /\
    RectifiedFlow.sample self batch_size 0 return_all_steps w
    = Run.Ok (result_of return_all_steps (Euler.to_image z0)
                [Euler.to_image z0],
              {| Run.rng := g; Run.trace := Run.trace w |}) /\
    Claims.new_events w
      (RectifiedFlow.sample self batch_size 0 return_all_steps w) = [].
Proof.
  pose proof (sample_run self batch_size 0 return_all_steps w) as R.
  destruct (Torch.randn B _ (Run.rng w)) as [z0 g]. cbv zeta in R.
  rewrite sample_times_0 in R.
  cbn [Euler.final Euler.states Euler.events fold_left map] in R.
  rewrite app_nil_r in R.
  exists z0, g. split; [reflexivity|]. split; [exact R|].
  rewrite R. unfold Claims.new_events. cbn [Run.trace].
  rewrite <- (app_nil_r (Run.trace w)) at 2. apply skipn_length_app.
Qed.

(** C4, as amended.  [sampling_steps = 0] is not rejected: [sample] ends
    without error, and so does [cond_sample] on a conditional network; the
    loop body never runs, so neither of them records any division, by zero
    or otherwise. *)
Theorem zero_steps_unguarded_no_division (B : Torch.Backend)
  (self : RectifiedFlow.t) (batch_size : nat) (classes : Net.labels)
  (cfg_scale : Qc) (return_all_steps : bool) (w : Run.world B) :
  Claims.is_ok (RectifiedFlow.sample self batch_size 0 return_all_steps w)
  = true /\
  Claims.new_events w
    (RectifiedFlow.sample self batch_size 0 return_all_steps w) = [] /\
  Claims.is_ok
    (RectifiedFlow.cond_sample self classes 0 cfg_scale return_all_steps w)
  = RectifiedFlow.use_cond self /\
  Claims.new_events w
    (RectifiedFlow.cond_sample self classes 0 cfg_scale return_all_steps w)
  = [].
Proof.
  rewrite sample_run.
  destruct (Torch.randn B _ (Run.rng w)) as [z0 g]. cbv zeta.
  rewrite sample_times_0.
  cbn [Euler.events Claims.is_ok Claims.new_events Run.trace].
  rewrite app_nil_r.
  rewrite <- (app_nil_r (Run.trace w)) at 2. rewrite skipn_length_app.
  split; [reflexivity|]. split; [reflexivity|].
  destruct (RectifiedFlow.use_cond self) eqn:Hc.
  - rewrite cond_sample_run by exact Hc.
    destruct (Torch.randn B _ (Run.rng w)) as [z1 g1]. cbv zeta.
    rewrite sample_times_0.
    cbn [Euler.events Claims.is_ok Claims.new_events Run.trace].
    rewrite app_nil_r.
    rewrite <- (app_nil_r (Run.trace w)) at 2. rewrite skipn_length_app.
    split; reflexivity.
  - rewrite cond_sample_error by exact Hc. split; reflexivity.
Qed.

(** C4 fails: with [sampling_steps = 0] neither [sample] nor [cond_sample]
    divides by zero. *)
Lemma zero_steps_no_division_by_zero :
  ~ (Claims.divides_by_zero Demo.world0
       (RectifiedFlow.sample Demo.flow 1 0 false Demo.world0)
     \/ Claims.divides_by_zero Demo.world0
          (RectifiedFlow.cond_sample Demo.cond_flow [3%nat] 0 1 false
             Demo.world0)).
Proof.
  unfold Claims.divides_by_zero. intros [H|H].
  - rewrite sample_run in H.
    destruct (Torch.randn Demo.backend _ (Run.rng Demo.world0)) as [z0 g].
    cbv zeta in H. rewrite sample_times_0 in H. exact H.
  - rewrite cond_sample_run in H by reflexivity.
    destruct (Torch.randn Demo.backend _ (Run.rng Demo.world0)) as [z0 g].
    cbv zeta in H. rewrite sample_times_0 in H. exact H.
Qed.

(** ** Tensors of one shape *)

Section ShapeFacts.
Import Torch.

Lemma same_len_refl {A : Type} (p : A -> A -> bool) (l : list A) :
  (forall x, p x x = true) -> same_len p l l = true.
Proof.
  intros H. induction l as [|a l IH]; simpl; [reflexivity|].
  now rewrite H, IH.
Qed.

Lemma same_shape_refl (a : tensor4) : same_shape a a = true.
Proof.
  unfold same_shape.
  repeat (apply same_len_refl; intros ?). reflexivity.
Qed.

(** Same shape: lengths and rows agree. *)
Lemma same_len_length {A C : Type} (p : A -> C -> bool) (l : list A) :
  forall l', same_len p l l' = true -> length l = length l'.
Proof.
  induction l as [|a l IH]; intros [|c l'] H; simpl in *;
    try discriminate; [reflexivity|].
  apply andb_true_iff in H. destruct H as [_ H]. now rewrite (IH _ H).
Qed.

Lemma same_len_nth {A C : Type} (p : A -> C -> bool) (l : list A) (a : A)
  (c : C) :
  forall l' i, same_len p l l' = true -> (i < length l)%nat ->
    p (nth i l a) (nth i l' c) = true.
Proof.
  induction l as [|x l IH]; intros [|y l'] i H Hi; simpl in *;
    try discriminate; try lia.
  apply andb_true_iff in H. destruct H as [Hp H].
  destruct i as [|i]; [exact Hp|]. apply IH; [exact H | lia].
Qed.

Lemma same_len_mono {A C : Type} (p p' : A -> C -> bool) (l : list A) :
  (forall a c, p a c = true -> p' a c = true) ->
  forall l', same_len p l l' = true -> same_len p' l l' = true.
Proof.
  intros Hp. induction l as [|a l IH]; intros [|c l'] H; simpl in *;
    try discriminate; [reflexivity|].
  apply andb_true_iff in H. destruct H as [H1 H2].
  now rewrite (Hp _ _ H1), (IH _ H2).
Qed.

Lemma same_len_sym {A C : Type} (p : A -> C -> bool) (p' : C -> A -> bool)
  (l : list A) :
  (forall a c, p a c = true -> p' c a = true) ->
  forall l', same_len p l l' = true -> same_len p' l' l = true.
Proof.
  intros Hp. induction l as [|a l IH]; intros [|c l'] H; simpl in *;
    try discriminate; [reflexivity|].
  apply andb_true_iff in H. destruct H as [H1 H2].
  now rewrite (Hp _ _ H1), (IH _ H2).
Qed.

Lemma same_len_trans {A C D : Type} (p : A -> C -> bool) (p' : C -> D -> bool)
  (p'' : A -> D -> bool) (l : list A) :
  (forall a c d, p a c = true -> p' c d = true -> p'' a d = true) ->
  forall l' l'', same_len p l l' = true -> same_len p' l' l'' = true ->
    same_len p'' l l'' = true.
Proof.
  intros Hp. induction l as [|a l IH]; intros [|c l'] [|d l''] H H';
    simpl in *; try discriminate; [reflexivity|].
  apply andb_true_iff in H. destruct H as [H1 H2].
  apply andb_true_iff in H'. destruct H' as [H1' H2'].
  now rewrite (Hp _ _ _ H1 H1'), (IH _ _ H2 H2').
Qed.

Lemma same_len_map_l {A A' C : Type} (p : A -> C -> bool)
  (p' : A' -> C -> bool) (f : A -> A') (l : list A) :
  (forall a c, p a c = true -> p' (f a) c = true) ->
  forall l', same_len p l l' = true -> same_len p' (map f l) l' = true.
Proof.
  intros Hp. induction l as [|a l IH]; intros [|c l'] H; simpl in *;
    try discriminate; [reflexivity|].
  apply andb_true_iff in H. destruct H as [H1 H2].
  now rewrite (Hp _ _ H1), (IH _ H2).
Qed.

Lemma same_len_zip_l {A C D : Type} (p : A -> C -> bool)
  (p' : D -> A -> bool) (f : A -> C -> D) (l : list A) :
  (forall a c, p a c = true -> p' (f a c) a = true) ->
  forall l', same_len p l l' = true -> same_len p' (zip f l l') l = true.
Proof.
  intros Hp. induction l as [|a l IH]; intros [|c l'] H; simpl in *;
    try discriminate; [reflexivity|].
  apply andb_true_iff in H. destruct H as [H1 H2].
  now rewrite (Hp _ _ H1), (IH _ H2).
Qed.

Lemma same_shape_sym (x y : tensor4) :
  same_shape x y = true -> same_shape y x = true.
Proof.
  unfold same_shape.
  repeat (apply same_len_sym; intros ? ?). reflexivity.
Qed.

Lemma same_shape_trans (x y z : tensor4) :
  same_shape x y = true -> same_shape y z = true -> same_shape x z = true.
Proof.
  unfold same_shape.
  repeat (apply same_len_trans; intros ? ? ?). reflexivity.
Qed.

Lemma same_shape_map4 (f : Qc -> Qc) (x : tensor4) :
  same_shape (map4 f x) x = true.
Proof.
  unfold map4. apply (same_len_map_l _ _ _ x) with (2 := same_shape_refl x).
  intros s s'. apply same_len_map_l. intros m m'. apply same_len_map_l.
  intros r r'. apply same_len_map_l. reflexivity.
Qed.

Lemma same_shape_zip4 (f : Qc -> Qc -> Qc) (x y : tensor4) :
  same_shape x y = true -> same_shape (zip4 f x y) x = true.
Proof.
  unfold same_shape, zip4.
  repeat (apply same_len_zip_l; intros ? ?). reflexivity.
Qed.

End ShapeFacts.

Lemma demo_net_keeps_shape (classes : option nat) :
  (forall z t c,
      Torch.same_shape (Net.call (Demo.net classes) z t c) z = true)
  /\ (forall z t y s,
         Torch.same_shape (Net.forward_with_cfg (Demo.net classes) z t y s) z
         = true).
Proof. split; intros; apply same_shape_map4. Qed.

Lemma demo_vae_respects_shape : decode_respects_shape Demo.doubling_vae.
Proof.
  intros a b S. cbn [decode_sample Demo.doubling_vae].
  apply same_shape_trans with (1 := same_shape_map4 _ a).
  apply same_shape_trans with (1 := S).
  apply same_shape_sym, same_shape_map4.
Qed.

Section Trajectories.
Import Torch Run Claims.
Context {B : Backend}.

(** A run that returns [map post states] for the states of an integration
    over [n] time points returns a trajectory in the sense of
    [returns_trajectory]. *)
Lemma trajectory_of_states (query : tensor4 -> Qc -> tensor4) (n : nat)
  (ts : list Qc) (post : tensor4 -> tensor4) (z0 : tensor4) (w' : world B) :
  length ts = n ->
  returns_trajectory n post (Euler.states query n ts z0) z0
    (Ok (ImagesAndSteps (post (Euler.final query n ts z0))
           (map post (Euler.states query n ts z0)), w')).
Proof.
  intros Hl.
  exists (post (Euler.final query n ts z0)),
    (map post (Euler.states query n ts z0)), w'.
  split; [reflexivity|]. split; [reflexivity|]. split.
  - now rewrite length_map, states_length, Hl.
  - split.
    + rewrite <- states_head. reflexivity.
    + rewrite (last_map post _ z0).
      * now rewrite states_last.
      * rewrite <- states_head. discriminate.
Qed.

End Trajectories.

(** C5.  For every [sampling_steps >= 1], on networks whose predictions
    have the shape of their input (and, in the latent model, a decoder whose
    output shape is determined by that of its input), [sample] and
    [cond_sample] with [return_all_steps=True], of the pixel-space and of
    the latent model, return besides the final sample a trajectory of exactly
    [sampling_steps + 1] elements in step order: the recorded states of the
    integration, each mapped to [0,1] (after decoding, in the latent model).
    Its first element is the initial noise so mapped, and its last element
    is the final sample returned. *)
Theorem trajectory_has_steps_plus_one (B : Torch.Backend)
  (self cself : RectifiedFlow.t) (lself clself : LatentRectifiedFlow.t B)
  (batch_size : nat) (classes : Net.labels) (cfg_scale : Qc) (n : nat)
  (w : Run.world B) :
  Net.keeps_shape (RectifiedFlow.net self) ->
  Net.cfg_keeps_shape (RectifiedFlow.net cself) ->
  Net.keeps_shape (RectifiedFlow.net (LatentRectifiedFlow.base lself)) ->
  decode_respects_shape (LatentRectifiedFlow.vae lself) ->
  Net.cfg_keeps_shape (RectifiedFlow.net (LatentRectifiedFlow.base clself)) ->
  decode_respects_shape (LatentRectifiedFlow.vae clself) ->
  (1 <= n)%nat ->
  RectifiedFlow.use_cond cself = true ->
  RectifiedFlow.use_cond (LatentRectifiedFlow.base clself) = true ->
  let noise (f : RectifiedFlow.t) (b : nat) :=
    fst (Torch.randn B (b, RectifiedFlow.channels f,
                        RectifiedFlow.image_size f,
                        RectifiedFlow.image_size f) (Run.rng w)) in
  let ts := Euler.sample_times n in
  Claims.returns_trajectory n Euler.to_image
    (Euler.states (Euler.plain (RectifiedFlow.net self)) n ts
       (noise self batch_size))
    (noise self batch_size)
    (RectifiedFlow.sample self batch_size n true w)
  /\ Claims.returns_trajectory n Euler.to_image
       (Euler.states (Euler.guided (RectifiedFlow.net cself) classes cfg_scale)
          n ts (noise cself (length classes)))
       (noise cself (length classes))
       (RectifiedFlow.cond_sample cself classes n cfg_scale true w)
  /\ Claims.returns_trajectory n
       (fun x => Euler.to_image (Latent.decoded lself x))
       (Euler.states
          (Euler.plain (RectifiedFlow.net (LatentRectifiedFlow.base lself)))
          n ts (noise (LatentRectifiedFlow.base lself) batch_size))
       (noise (LatentRectifiedFlow.base lself) batch_size)
       (LatentRectifiedFlow.sample lself batch_size n true w)
  /\ Claims.returns_trajectory n
       (fun x => Euler.to_image (Latent.decoded clself x))
       (Euler.states
          (Euler.guided (RectifiedFlow.net (LatentRectifiedFlow.base clself))
             classes cfg_scale)
          n ts (noise (LatentRectifiedFlow.base clself) (length classes)))
       (noise (LatentRectifiedFlow.base clself) (length classes))
       (LatentRectifiedFlow.cond_sample clself classes n cfg_scale true w).
Proof.
  intros _ _ _ _ _ _ _ Hc Hcl noise ts. subst noise ts. cbv beta.
  split; [|split; [|split]].
  - rewrite sample_run.
    destruct (Torch.randn B _ (Run.rng w)) as [z0 g]. cbv zeta. simpl fst.
    apply trajectory_of_states, sample_times_length.
  - rewrite cond_sample_run by exact Hc.
    destruct (Torch.randn B _ (Run.rng w)) as [z0 g]. cbv zeta. simpl fst.
    apply trajectory_of_states, sample_times_length.
  - rewrite latent_sample_run. cbv zeta.
    destruct (Torch.randn B _ (Run.rng w)) as [z0 g]. simpl fst.
    apply (trajectory_of_states _ n _
             (fun x => Euler.to_image (Latent.decoded lself x))),
      sample_times_length.
  - rewrite latent_cond_sample_run by exact Hcl. cbv zeta.
    destruct (Torch.randn B _ (Run.rng w)) as [z0 g]. simpl fst.
    apply (trajectory_of_states _ n _
             (fun x => Euler.to_image (Latent.decoded clself x))),
      sample_times_length.
Qed.

Lemma trajectory_has_steps_plus_one_witness :
  Claims.returns_trajectory 3 Euler.to_image
    (Euler.states (Euler.plain (RectifiedFlow.net Demo.flow)) 3
       (Euler.sample_times 3)
       (fst (Torch.randn Demo.backend (2%nat, 1%nat, 2%nat, 2%nat) O)))
    (fst (Torch.randn Demo.backend (2%nat, 1%nat, 2%nat, 2%nat) O))
    (RectifiedFlow.sample Demo.flow 2 3 true Demo.world0).
Proof.
  refine (proj1 (trajectory_has_steps_plus_one Demo.backend Demo.flow
                   Demo.cond_flow Demo.latent_flow Demo.cond_latent_flow
                   2 [3%nat; 1%nat] 1 3 Demo.world0 _ _ _ _ _ _ _ _ _)).
  - exact (proj1 (demo_net_keeps_shape None)).
  - exact (proj2 (demo_net_keeps_shape (Some 10%nat))).
  - exact (proj1 (demo_net_keeps_shape None)).
  - exact demo_vae_respects_shape.
  - exact (proj2 (demo_net_keeps_shape (Some 10%nat))).
  - exact demo_vae_respects_shape.
  - lia.
  - reflexivity.
  - reflexivity.
Defined.

(** C9.  On a network whose predictions have the shape of their input and a
    decoder whose output shape is determined by that of its input, the
    latent [sample] and [cond_sample] run the integration of the pixel-space
    samplers on noise of the configured (latent) shape, with the
    same queries and divisions, and differ from them only in that the
    integrated state -- and every recorded state, when the trajectory is
    returned -- goes through [decode] before the clip to [-1,1] and the map
    to [0,1].  On a network without class count both [cond_sample]s fail
    their assertion. *)
Theorem latent_samplers_differ_by_decode (B : Torch.Backend)
  (self : LatentRectifiedFlow.t B) (batch_size : nat) (classes : Net.labels)
  (cfg_scale : Qc) (n : nat) (return_all_steps : bool) (w : Run.world B) :
  let b := LatentRectifiedFlow.base self in
  let shape k := (k, RectifiedFlow.channels b, RectifiedFlow.image_size b,
                  RectifiedFlow.image_size b) in
  Net.keeps_shape (RectifiedFlow.net b) ->
  Net.cfg_keeps_shape (RectifiedFlow.net b) ->
  decode_respects_shape (LatentRectifiedFlow.vae self) ->
  Claims.differ_by_decode self (Euler.plain (RectifiedFlow.net b))
    Euler.plain_event (shape batch_size) n return_all_steps w
    (RectifiedFlow.sample b batch_size n return_all_steps w)
    (LatentRectifiedFlow.sample self batch_size n return_all_steps w)
  /\ if RectifiedFlow.use_cond b
     then Claims.differ_by_decode self
            (Euler.guided (RectifiedFlow.net b) classes cfg_scale)
            (Euler.guided_event classes cfg_scale) (shape (length classes)) n
            return_all_steps w
            (RectifiedFlow.cond_sample b classes n cfg_scale
               return_all_steps w)
            (LatentRectifiedFlow.cond_sample self classes n cfg_scale
               return_all_steps w)
     else RectifiedFlow.cond_sample b classes n cfg_scale return_all_steps w
          = Run.AssertionError EmptyString
          /\ LatentRectifiedFlow.cond_sample self classes n cfg_scale
               return_all_steps w
             = Run.AssertionError EmptyString.
Proof.
  cbv zeta. intros _ _ _. split.
  - unfold Claims.differ_by_decode.
    rewrite sample_run, latent_sample_run. cbv zeta.
    destruct (Torch.randn B _ (Run.rng w)) as [z0 g].
    exists z0, g. repeat split.
  - destruct (RectifiedFlow.use_cond (LatentRectifiedFlow.base self)) eqn:Hc.
    + unfold Claims.differ_by_decode.
      rewrite cond_sample_run, latent_cond_sample_run by exact Hc. cbv zeta.
      destruct (Torch.randn B _ (Run.rng w)) as [z0 g].
      exists z0, g. repeat split.
    + split.
      * now apply cond_sample_error.
      * now apply latent_cond_sample_error.
Qed.

Lemma latent_samplers_differ_by_decode_witness :
  Claims.differ_by_decode Demo.cond_latent_flow
    (Euler.guided (Demo.net (Some 10%nat)) [3%nat; 1%nat] (Demo.q 5 4))
    (Euler.guided_event [3%nat; 1%nat] (Demo.q 5 4))
    (2%nat, 1%nat, 2%nat, 2%nat) 3 true Demo.world0
    (RectifiedFlow.cond_sample Demo.cond_flow [3%nat; 1%nat] 3 (Demo.q 5 4)
       true Demo.world0)
    (LatentRectifiedFlow.cond_sample Demo.cond_latent_flow [3%nat; 1%nat] 3
       (Demo.q 5 4) true Demo.world0).
Proof.
  exact (proj2 (latent_samplers_differ_by_decode Demo.backend
                  Demo.cond_latent_flow 2 [3%nat; 1%nat] (Demo.q 5 4) 3 true
                  Demo.world0
                  (proj1 (demo_net_keeps_shape (Some 10%nat)))
                  (proj2 (demo_net_keeps_shape (Some 10%nat)))
                  demo_vae_respects_shape)).
Defined.

(** ** Guidance at [cfg_scale = 1] *)

Section Pointwise.
Import Torch.

Lemma zip_diag {A C : Type} (f : A -> A -> C) (l : list A) :
  zip f l l = map (fun x => f x x) l.
Proof. induction l as [|a l IH]; simpl; [reflexivity | now rewrite IH]. Qed.

Lemma zip4_diag (f : Qc -> Qc -> Qc) (a : tensor4) :
  zip4 f a a = map4 (fun x => f x x) a.
Proof.
  unfold zip4, map4. rewrite zip_diag. apply map_ext. intros s.
  rewrite zip_diag. apply map_ext. intros m.
  rewrite zip_diag. apply map_ext. intros r. apply zip_diag.
Qed.

Lemma map4_ext (f g : Qc -> Qc) (a : tensor4) :
  (forall x, f x = g x) -> map4 f a = map4 g a.
Proof.
  intros H. unfold map4.
  apply map_ext; intros s. apply map_ext; intros m.
  apply map_ext; intros r. apply map_ext; exact H.
Qed.

Lemma flatten4_map4 (f : Qc -> Qc) (a : tensor4) :
  flatten4 (map4 f a) = map f (flatten4 a).
Proof.
  unfold flatten4, map4.
  rewrite concat_map, !map_map. f_equal. apply map_ext. intros s.
  rewrite concat_map, !map_map. f_equal. apply map_ext. intros m.
  now rewrite concat_map.
Qed.

(** A tensor is within every non-negative tolerance of itself. *)
Lemma allclose_refl (atol : Qc) (a : tensor4) :
  0 <= atol -> Euler.allclose atol a a.
Proof.
  intros Ha. split; [apply same_shape_refl|].
  unfold sub. rewrite zip4_diag, flatten4_map4.
  apply Forall_forall. intros d Hd.
  apply in_map_iff in Hd. destruct Hd as (x & <- & _).
  replace (x - x) with 0 by ring. split; [|exact Ha].
  apply Qcopp_le_compat in Ha. replace (- 0) with 0 in Ha by ring. exact Ha.
Qed.

(** Two ways of querying that agree everywhere integrate to the same
    state. *)
Lemma final_ext (q1 q2 : tensor4 -> Qc -> tensor4) (n : nat) (ts : list Qc) :
  (forall z t, q1 z t = q2 z t) ->
  forall z, Euler.final q1 n ts z = Euler.final q2 n ts z.
Proof.
  intros H. induction ts as [|t ts IH]; intros z; [reflexivity|].
  change (Euler.final q1 n (t :: ts) z)
    with (Euler.final q1 n ts (Euler.step q1 n z t)).
  change (Euler.final q2 n (t :: ts) z)
    with (Euler.final q2 n ts (Euler.step q2 n z t)).
  unfold Euler.step at 1. rewrite H. apply IH.
Qed.

End Pointwise.

(** ** Images lie in [0,1] *)

Section ImageRange.
Import Torch.

Lemma compare_not_Lt (q lo : Qc) : (q ?= lo) <> Lt -> lo <= q.
Proof.
  intros H. apply Qcnot_lt_le. intros L. apply H. now apply Qclt_alt.
Qed.

Lemma compare_not_Gt (q hi : Qc) : (q ?= hi) <> Gt -> q <= hi.
Proof. intros H. now apply Qcle_alt. Qed.

Lemma clip1_bounds (lo hi q : Qc) :
  lo <= hi -> lo <= clip1 lo hi q /\ clip1 lo hi q <= hi.
Proof.
  intros Hlh. unfold clip1.
  destruct (q ?= lo) eqn:E1;
    [| split; [apply Qcle_refl | exact Hlh] |];
    (assert (Hq : lo <= q) by (apply compare_not_Lt; congruence));
    (destruct (q ?= hi) eqn:E2;
     [ split; [exact Hq | apply compare_not_Gt; congruence]
     | split; [exact Hq | apply compare_not_Gt; congruence]
     | split; [exact Hlh | apply Qcle_refl] ]).
Qed.

Lemma unnormalize_bounds (q : Qc) :
  - (1) <= q -> q <= 1 ->
  0 <= (q + 1) / Qc_of_nat 2 /\ (q + 1) / Qc_of_nat 2 <= 1.
Proof.
  intros Hlo Hhi.
  assert (H2 : 0 < Qc_of_nat 2) by (apply Qc_of_nat_pos; lia).
  assert (N2 : Qc_of_nat 2 <> 0) by (apply Qc_of_nat_nonzero; lia).
  assert (E2 : Qc_of_nat 2 = 1 + 1)
    by (rewrite !Qc_of_nat_S, Qc_of_nat_0; ring).
  split.
  - apply (Qcmult_lt_0_le_reg_r _ _ _ H2).
    replace (0 * Qc_of_nat 2) with (- (1) + 1) by ring.
    replace ((q + 1) / Qc_of_nat 2 * Qc_of_nat 2) with (q + 1)
      by (field; exact N2).
    apply Qcplus_le_compat; [exact Hlo | apply Qcle_refl].
  - apply (Qcmult_lt_0_le_reg_r _ _ _ H2).
    replace ((q + 1) / Qc_of_nat 2 * Qc_of_nat 2) with (q + 1)
      by (field; exact N2).
    replace (1 * Qc_of_nat 2) with (1 + 1) by (rewrite E2; ring).
    apply Qcplus_le_compat; [exact Hhi | apply Qcle_refl].
Qed.

(** Every entry of a clipped and remapped tensor lies in [0,1]. *)
Lemma to_image_range (z : tensor4) :
  Forall (fun v => 0 <= v /\ v <= 1) (flatten4 (Euler.to_image z)).
Proof.
  unfold Euler.to_image, Utils.unnormalize_to_0_1, clip.
  rewrite !flatten4_map4. apply Forall_forall. intros v Hv.
  apply in_map_iff in Hv. destruct Hv as (u & <- & Hu).
  apply in_map_iff in Hu. destruct Hu as (q & <- & _).
  assert (H : - (1) <= 1) by discriminate.
  destruct (clip1_bounds (- (1)) 1 q H) as [Hlo Hhi].
  now apply unnormalize_bounds.
Qed.

End ImageRange.

(** ** [sample]: the integration and its time points *)

Section SampleFacts.
Import Torch Run Calls Claims.
Context {B : Backend}.

Lemma images_of_result (ras : bool) (z : tensor4) (steps : tensor5) :
  images_of (result_of ras z steps) = z.
Proof. destruct ras; reflexivity. Qed.

(** [sample] integrates over the reversed [linspace(0, 1, n)]. *)
Lemma sample_integrates (self : RectifiedFlow.t) (batch_size n : nat)
  (ras : bool) (w : world B) :
  sample_integrates_over (Euler.sample_times n) self batch_size n ras w.
Proof.
  unfold sample_integrates_over. cbv zeta.
  pose proof (sample_run self batch_size n ras w) as R.
  pose proof (randn_shape B
                (batch_size, RectifiedFlow.channels self,
                 RectifiedFlow.image_size self, RectifiedFlow.image_size self)
                (rng w)) as S.
  destruct (randn B _ (rng w)) as [z0 g]. cbv zeta in R. simpl fst in S.
  exists z0, g. eexists. split; [reflexivity|]. split; [exact S|].
  split; [exact R|]. rewrite images_of_result.
  split; [reflexivity | apply to_image_range].
Qed.

End SampleFacts.

(** C2, as amended.  For every batch size and every [sampling_steps >= 1],
    on a network whose prediction has the shape of its input, [sample]
    draws Gaussian noise of shape (batch_size, channels, image_size,
    image_size) and integrates it in [sampling_steps] Euler steps
    [z <- z - net(z, t) / sampling_steps], then clips to [-1,1] and maps to
    [0,1].  From two steps on, the time points are the [sampling_steps]
    evenly spaced values from 1 down to 0; with a single step the only time
    point is 0. *)
Theorem sample_euler_integration (B : Torch.Backend) (self : RectifiedFlow.t)
  (batch_size n : nat) (return_all_steps : bool) (w : Run.world B) :
  Net.keeps_shape (RectifiedFlow.net self) ->
  (1 <= n)%nat ->
  Claims.sample_integrates_over
    (if Nat.eqb n 1 then [0] else Euler.descending_times n)
    self batch_size n return_all_steps w.
Proof.
  intros _ Hn.
  destruct n as [|[|n]]; [lia | |].
  - simpl Nat.eqb. cbv iota. rewrite <- sample_times_1.
    apply sample_integrates.
  - simpl Nat.eqb. cbv iota. rewrite <- sample_times_descending by lia.
    apply sample_integrates.
Qed.

Lemma sample_euler_integration_witness :
  (1 <= 3)%nat /\
  Claims.sample_integrates_over
    (if Nat.eqb 3 1 then [0] else Euler.descending_times 3)
    Demo.flow 2 3 true Demo.world0.
Proof.
  split; [lia|].
  apply (sample_euler_integration Demo.backend Demo.flow 2 3 true Demo.world0).
  - exact (proj1 (demo_net_keeps_shape None)).
  - lia.
Defined.

Lemma descending_times_1 : Euler.descending_times 1 = [1].
Proof. reflexivity. Qed.

(** C2 fails at [sampling_steps = 1]: the claim has the integration start at
    t = 1, but the one query of [sample] is made at t = 0. *)
Lemma sample_single_step_starts_at_0 :
  ~ Claims.sample_integrates_over (Euler.descending_times 1)
      Demo.flow 1 1 false Demo.world0.
Proof.
  intros (z0 & g & out & Hr & _ & Hs & _ & _).
  rewrite sample_run in Hs. rewrite Hr in Hs. cbv zeta in Hs.
  rewrite sample_times_1, descending_times_1 in Hs.
  cbn [Euler.events Run.trace Demo.world0 app] in Hs.
  injection Hs as _ Ht. discriminate Ht.
Qed.


(** C7.  On a conditional network whose guided prediction has the shape of
    its input and is, at [cfg_scale = 1], its plain conditional prediction,
    [cond_sample] with
    [cfg_scale = 1] returns, from the same initial noise, the result of the
    conditional Euler integration without guidance: the two are equal, hence
    within every tolerance of each other. *)
Theorem cond_sample_cfg_one_is_unguided (B : Torch.Backend)
  (self : RectifiedFlow.t) (classes : Net.labels) (n : nat)
  (return_all_steps : bool) (atol : Qc) (w : Run.world B) :
  Net.cfg_keeps_shape (RectifiedFlow.net self) ->
  RectifiedFlow.use_cond self = true ->
  (forall z t c,
      Net.forward_with_cfg (RectifiedFlow.net self) z t c 1
      = Net.call (RectifiedFlow.net self) z t (Some c)) ->
  0 <= atol ->
  exists z0 g out w',
    Torch.randn B (length classes, RectifiedFlow.channels self,
                   RectifiedFlow.image_size self,
                   RectifiedFlow.image_size self) (Run.rng w) = (z0, g) /\
    RectifiedFlow.cond_sample self classes n 1 return_all_steps w
    = Run.Ok (out, w') /\
    images_of out
    = Euler.unguided_cond_sample (RectifiedFlow.net self) classes n z0 /\
    Euler.allclose atol (images_of out)
      (Euler.unguided_cond_sample (RectifiedFlow.net self) classes n z0).
Proof.
  intros _ Hc Hdeg Ha.
  pose proof (cond_sample_run self classes n 1 return_all_steps w Hc) as R.
  destruct (Torch.randn B _ (Run.rng w)) as [z0 g]. cbv zeta in R.
  exists z0, g. eexists. eexists.
  split; [reflexivity|]. split; [exact R|].
  assert (E : images_of
                (result_of return_all_steps
                   (Euler.to_image
                      (Euler.final
                         (Euler.guided (RectifiedFlow.net self) classes 1) n
                         (Euler.sample_times n) z0))
                   (map Euler.to_image
                      (Euler.states
                         (Euler.guided (RectifiedFlow.net self) classes 1) n
                         (Euler.sample_times n) z0)))
              = Euler.unguided_cond_sample (RectifiedFlow.net self) classes n
                  z0).
  { rewrite images_of_result. unfold Euler.unguided_cond_sample. f_equal.
    apply final_ext. intros z t. unfold Euler.guided, Euler.conditional.
    apply Hdeg. }
  split; [exact E|]. rewrite E. apply allclose_refl, Ha.
Qed.

(** The demonstration network combines its two predictions as
    [v_uncond + cfg_scale * (v_cond - v_uncond)], which at [cfg_scale = 1]
    is [v_cond]. *)
Lemma demo_net_degenerates (classes : option nat) (z : Torch.tensor4)
  (t : Net.time_arg) (c : Net.labels) :
  Net.forward_with_cfg (Demo.net classes) z t c 1
  = Net.call (Demo.net classes) z t (Some c).
Proof.
  unfold Demo.net. cbn [Net.forward_with_cfg Net.call].
  apply map4_ext. intros x. cbv zeta. ring.
Qed.

Lemma cond_sample_cfg_one_is_unguided_witness :
  exists z0 g out w',
    Torch.randn Demo.backend (2%nat, 1%nat, 2%nat, 2%nat) O = (z0, g) /\
    RectifiedFlow.cond_sample Demo.cond_flow [3%nat; 1%nat] 3 1 false
      Demo.world0
    = Run.Ok (out, w') /\
    images_of out
    = Euler.unguided_cond_sample (Demo.net (Some 10%nat)) [3%nat; 1%nat] 3
        z0 /\
    Euler.allclose (Demo.q 1 1000) (images_of out)
      (Euler.unguided_cond_sample (Demo.net (Some 10%nat)) [3%nat; 1%nat] 3
         z0).
Proof.
  apply (cond_sample_cfg_one_is_unguided Demo.backend Demo.cond_flow
           [3%nat; 1%nat] 3 false (Demo.q 1 1000) Demo.world0).
  - exact (proj2 (demo_net_keeps_shape (Some 10%nat))).
  - reflexivity.
  - exact (demo_net_degenerates (Some 10%nat)).
  - discriminate.
Defined.

(** ** The training loss: when it fails and what it computes *)

Section ForwardRuns.
Import Torch Run Calls.
Context {B : Backend}.

Lemma forward_error (self : RectifiedFlow.t) (x : tensor4) (w : world B) :
  RectifiedFlow.use_cond self = true ->
  RectifiedFlow.forward self x None w
  = AssertionError "Conditional model requires class labels".
Proof.
  intros Hc. unfold RectifiedFlow.forward. unfold bind at 1.
  rewrite Hc. reflexivity.
Qed.

Lemma forward_run (self : RectifiedFlow.t) (x : tensor4)
  (c : option Net.labels) (w : world B) :
  (RectifiedFlow.use_cond self = true -> c <> None) ->
  RectifiedFlow.forward self x c w
  = let (t, g1) :=
      Loss.times B (RectifiedFlow.logit_normal_sampling_t self) (length x)
        (rng w) in
    let (z, g2) := randn_like B x g1 in
    let xn := Utils.normalize_to_neg1_1 x in
    let z_t := Loss.interpolate t xn z in
    Ok (mse_loss (sub z xn) (Net.call (RectifiedFlow.net self) z_t (Net.T1 t) c),
        {| rng := g2; trace := trace w ++ [NetCall z_t (Net.T1 t) c] |}).
Proof.
  intros Hadm. unfold RectifiedFlow.forward. unfold bind at 1.
  assert (G : (if RectifiedFlow.use_cond self
               then assert_ (RectifiedFlow.is_not_None c)
                      "Conditional model requires class labels"
               else ret tt) w = Ok (tt, w)).
  { destruct (RectifiedFlow.use_cond self); [|reflexivity].
    destruct c; [reflexivity|]. now destruct Hadm. }
  rewrite G. clear G. unfold bind at 1. unfold Loss.times.
  destruct (RectifiedFlow.logit_normal_sampling_t self).
  - unfold bind at 1. unfold draw at 1.
    destruct (randn1 B (length x) (rng w)) as [r g1]. unfold ret at 1.
    cbv zeta. unfold bind at 1. unfold draw at 1. cbn [rng trace].
    destruct (randn_like B x g1) as [z g2].
    unfold bind at 1. rewrite call_net_run. reflexivity.
  - unfold draw at 1.
    destruct (rand1 B (length x) (rng w)) as [t g1].
    cbv zeta. unfold bind at 1. unfold draw at 1. cbn [rng trace].
    destruct (randn_like B x g1) as [z g2].
    unfold bind at 1. rewrite call_net_run. reflexivity.
Qed.

Lemma latent_forward_error (self : LatentRectifiedFlow.t B) (x : tensor4)
  (w : world B) :
  RectifiedFlow.use_cond (LatentRectifiedFlow.base self) = true ->
  LatentRectifiedFlow.forward self x None w
  = AssertionError "Conditional model requires class labels".
Proof.
  intros Hc. unfold LatentRectifiedFlow.forward. unfold bind at 1.
  rewrite Hc. reflexivity.
Qed.

Lemma latent_forward_ok (self : LatentRectifiedFlow.t B) (x : tensor4)
  (c : option Net.labels) (w : world B) :
  (RectifiedFlow.use_cond (LatentRectifiedFlow.base self) = true ->
   c <> None) ->
  Claims.is_ok (LatentRectifiedFlow.forward self x c w) = true.
Proof.
  intros Hadm. unfold LatentRectifiedFlow.forward. unfold bind at 1.
  assert (G : (if RectifiedFlow.use_cond (LatentRectifiedFlow.base self)
               then assert_ (RectifiedFlow.is_not_None c)
                      "Conditional model requires class labels"
               else ret tt) w = Ok (tt, w)).
  { destruct (RectifiedFlow.use_cond (LatentRectifiedFlow.base self));
      [|reflexivity].
    destruct c; [reflexivity|]. now destruct Hadm. }
  rewrite G. clear G. unfold bind at 1.
  assert (T : exists t w1,
             (if RectifiedFlow.logit_normal_sampling_t
                   (LatentRectifiedFlow.base self)
              then r <- draw (randn1 B (length x)) ;; ret (map (sigmoid B) r)
              else draw (rand1 B (length x))) w = Ok (t, w1)).
  { destruct (RectifiedFlow.logit_normal_sampling_t
                (LatentRectifiedFlow.base self)).
    - unfold bind, draw, ret.
      destruct (randn1 B (length x) (rng w)) as [r g1]. eauto.
    - unfold draw.
      destruct (rand1 B (length x) (rng w)) as [t g1]. eauto. }
  destruct T as (t & w1 & ->). cbv zeta.
  unfold bind at 1. unfold LatentRectifiedFlow.encode at 1.
  unfold bind at 1. unfold call_encode at 1. unfold bind at 1.
  unfold emit at 1. unfold draw at 1. cbn [rng trace].
  destruct (encode_sample (LatentRectifiedFlow.vae self) _ (rng w1))
    as [l g2].
  unfold ret at 1. unfold bind at 1. unfold draw at 1. cbn [rng trace].
  destruct (randn_like B _ g2) as [z g3].
  unfold bind at 1. rewrite call_net_run. reflexivity.
Qed.

End ForwardRuns.

Lemma raises_iff_not_ok {A : Type} (o : Run.outcome A) :
  Claims.raises o <-> Claims.is_ok o = false.
Proof.
  unfold Claims.raises. destruct o as [a|msg]; simpl; split.
  - intros [m H]. discriminate H.
  - discriminate.
  - reflexivity.
  - intros _. now exists msg.
Qed.

(** C3.  The loss raises exactly when the network has its class count set
    and no labels are given, and [cond_sample] raises exactly when the
    network has no class count; this holds for the pixel-space and for the
    latent model, and no other input makes these operations fail an
    assertion. *)
Theorem assertion_failures (B : Torch.Backend) (net : Net.t)
  (channels image_size : nat) (logit_normal_sampling_t : bool)
  (vae : AutoencoderKL B) (x : Torch.tensor4) (c : option Net.labels)
  (classes : Net.labels) (n : nat) (cfg_scale : Qc) (return_all_steps : bool)
  (w : Run.world B) :
  let self :=
    RectifiedFlow.init net channels image_size logit_normal_sampling_t in
  let lself :=
    {| LatentRectifiedFlow.base := self; LatentRectifiedFlow.vae := vae |} in
  (Claims.raises (RectifiedFlow.forward self x c w)
   <-> Net.num_classes net <> None /\ c = None)
  /\ (Claims.raises
        (RectifiedFlow.cond_sample self classes n cfg_scale return_all_steps w)
      <-> Net.num_classes net = None)
  /\ (Claims.raises (LatentRectifiedFlow.forward lself x c w)
      <-> Net.num_classes net <> None /\ c = None)
  /\ (Claims.raises
        (LatentRectifiedFlow.cond_sample lself classes n cfg_scale
           return_all_steps w)
      <-> Net.num_classes net = None).
Proof.
  cbv zeta.
  set (self := RectifiedFlow.init net channels image_size
                 logit_normal_sampling_t).
  set (lself := {| LatentRectifiedFlow.base := self;
                   LatentRectifiedFlow.vae := vae |}).
  assert (U : RectifiedFlow.use_cond self = true
              <-> Net.num_classes net <> None).
  { unfold self, RectifiedFlow.init. cbn [RectifiedFlow.use_cond].
    destruct (Net.num_classes net); split; congruence. }
  assert (F : forall o : Run.outcome (Torch.loss_value * Run.world B),
             ((RectifiedFlow.use_cond self = true -> c <> None)
              -> Claims.is_ok o = true)
             -> (c = None -> RectifiedFlow.use_cond self = true -> Claims.raises o)
             -> (Claims.raises o <-> Net.num_classes net <> None /\ c = None)).
  { intros o Hok Hr. split.
    - intros R. apply raises_iff_not_ok in R.
      destruct (RectifiedFlow.use_cond self) eqn:Hc.
      + destruct c as [y|].
        * rewrite Hok in R; [discriminate R | discriminate].
        * split; [now apply U | reflexivity].
      + rewrite Hok in R; [discriminate R | discriminate].
    - intros [Hn Hc]. apply Hr; [exact Hc | now apply U]. }
  assert (S : forall o : Run.outcome (sample_output * Run.world B),
             (RectifiedFlow.use_cond self = false ->
              o = Run.AssertionError EmptyString) ->
             (RectifiedFlow.use_cond self = true -> Claims.is_ok o = true) ->
             (Claims.raises o <-> Net.num_classes net = None)).
  { intros o He Hok.
    assert (E : RectifiedFlow.use_cond self
                = RectifiedFlow.is_not_None (Net.num_classes net))
      by reflexivity.
    clear U F. destruct (Net.num_classes net) as [k|]; cbn in E.
    - split; [|discriminate].
      intros R. apply raises_iff_not_ok in R.
      rewrite Hok in R by exact E. discriminate R.
    - split; [reflexivity|].
      intros _. exists EmptyString. apply He. exact E. }
  split; [|split; [|split]].
  - apply F.
    + intros Hadm. rewrite forward_run by exact Hadm.
      destruct (Loss.times B _ _ _) as [t g1].
      destruct (Torch.randn_like B x g1) as [z g2]. reflexivity.
    + intros -> Hc. eexists. now apply forward_error.
  - apply S.
    + intros Hc. now apply cond_sample_error.
    + intros Hc. rewrite cond_sample_run by exact Hc.
      destruct (Torch.randn B _ _) as [z0 g]. reflexivity.
  - apply F.
    + intros Hadm. now apply latent_forward_ok.
    + intros -> Hc. eexists. now apply latent_forward_error.
  - apply S.
    + intros Hc. now apply latent_cond_sample_error.
    + intros Hc. rewrite latent_cond_sample_run by exact Hc. cbv zeta.
      destruct (Torch.randn B _ _) as [z0 g]. reflexivity.
Qed.

(** ** The latent scaling: [decode] after [encode] *)

Section ScaleFacts.
Import Torch.

Lemma scale_nonzero : LatentRectifiedFlow.scale <> 0.
Proof. intros E. apply (f_equal this) in E. vm_compute in E. discriminate E. Qed.

Lemma map4_map4 (f g : Qc -> Qc) (a : tensor4) :
  map4 g (map4 f a) = map4 (fun x => g (f x)) a.
Proof.
  unfold map4. rewrite map_map. apply map_ext; intros s.
  rewrite map_map. apply map_ext; intros m.
  rewrite map_map. apply map_ext; intros r. apply map_map.
Qed.

Lemma map4_id (a : tensor4) : map4 (fun x => x) a = a.
Proof.
  unfold map4.
  rewrite (map_ext _ (fun s : tensor3 => s)); [apply map_id|]. intros s.
  rewrite (map_ext _ (fun m : tensor2 => m)); [apply map_id|]. intros m.
  rewrite (map_ext _ (fun r : tensor1 => r)); [apply map_id|]. intros r.
  apply map_id.
Qed.

(** Multiplying by a non-zero scalar and dividing by it again gives the
    tensor back, in exact arithmetic. *)
Lemma div_mul_scalar (a : tensor4) (k : Qc) :
  k <> 0 -> div_scalar (mul_scalar a k) k = a.
Proof.
  intros Hk. unfold div_scalar, mul_scalar. rewrite map4_map4.
  rewrite (map4_ext _ (fun x => x)); [apply map4_id|].
  intros x. field. exact Hk.
Qed.

End ScaleFacts.

(** C6, as amended.  [encode] multiplies the latent sample of the
    autoencoder by 0.13025, and [decode] divides its argument by 0.13025
    before it calls the decoder of the autoencoder.  In exact arithmetic the
    two cancel: when the autoencoder encodes and decodes every tensor to
    itself, [decode (encode x)] is [x]. *)
Theorem decode_encode_identity (B : Torch.Backend)
  (self : LatentRectifiedFlow.t B) (x : Torch.tensor4) (w : Run.world B) :
  (forall a g, fst (encode_sample (LatentRectifiedFlow.vae self) a g) = a) ->
  (forall a, decode_sample (LatentRectifiedFlow.vae self) a = a) ->
  exists l w1 w2,
    LatentRectifiedFlow.encode self x w = Run.Ok (l, w1) /\
    l = Torch.mul_scalar
          (fst (encode_sample (LatentRectifiedFlow.vae self) x (Run.rng w)))
          LatentRectifiedFlow.scale /\
    LatentRectifiedFlow.decode self l w1 = Run.Ok (x, w2) /\
    Claims.new_events w1 (LatentRectifiedFlow.decode self l w1)
    = [Run.Decode (Torch.div_scalar l LatentRectifiedFlow.scale)] /\
    Torch.div_scalar l LatentRectifiedFlow.scale = x.
Proof.
  intros Henc Hdec.
  unfold LatentRectifiedFlow.encode, LatentRectifiedFlow.decode.
  unfold Run.bind, Calls.call_encode, Calls.call_decode, Run.bind, Run.emit,
    Run.draw, Run.ret. cbn [Run.rng Run.trace].
  specialize (Henc x (Run.rng w)).
  destruct (encode_sample (LatentRectifiedFlow.vae self) x (Run.rng w))
    as [l g]. simpl fst in *. subst l.
  eexists. eexists. eexists.
  split; [reflexivity|]. split; [reflexivity|].
  rewrite Hdec, (div_mul_scalar x _ scale_nonzero).
  split; [reflexivity|]. split; [|reflexivity].
  unfold Claims.new_events. cbn [Run.trace]. apply skipn_length_app.
Qed.

Lemma decode_encode_identity_witness :
  exists l w1 w2,
    LatentRectifiedFlow.encode
      {| LatentRectifiedFlow.base := Demo.flow;
         LatentRectifiedFlow.vae := Demo.identity_vae |}
      [[[[Demo.q 24 25; Demo.q 1 3]]]] Demo.world0 = Run.Ok (l, w1) /\
    l = Torch.mul_scalar
          (fst (encode_sample Demo.identity_vae
                  [[[[Demo.q 24 25; Demo.q 1 3]]]] O))
          LatentRectifiedFlow.scale /\
    LatentRectifiedFlow.decode
      {| LatentRectifiedFlow.base := Demo.flow;
         LatentRectifiedFlow.vae := Demo.identity_vae |} l w1
    = Run.Ok ([[[[Demo.q 24 25; Demo.q 1 3]]]], w2) /\
    Claims.new_events w1
      (LatentRectifiedFlow.decode
         {| LatentRectifiedFlow.base := Demo.flow;
            LatentRectifiedFlow.vae := Demo.identity_vae |} l w1)
    = [Run.Decode (Torch.div_scalar l LatentRectifiedFlow.scale)] /\
    Torch.div_scalar l LatentRectifiedFlow.scale
    = [[[[Demo.q 24 25; Demo.q 1 3]]]].
Proof.
  apply (decode_encode_identity Demo.backend
           {| LatentRectifiedFlow.base := Demo.flow;
              LatentRectifiedFlow.vae := Demo.identity_vae |}
           [[[[Demo.q 24 25; Demo.q 1 3]]]] Demo.world0).
  - reflexivity.
  - reflexivity.
Defined.

(** The scalar operand in binary32 and the input of the counterexample. *)
Lemma float32_scale_value :
  Float32.scale = S754_finite false 8740930 (-26)
  /\ Float32.x0 = S754_finite false 16106127 (-24)
  /\ valid_binary Float32.prec Float32.emax Float32.x0 = true.
Proof. repeat split; vm_compute; reflexivity. Qed.

(** C6 fails in floating point: with the identity stand-in for the
    autoencoder, [decode (encode x)] is not [x] for the binary32 number
    nearest to 0.96, whether the division is carried out as a division or
    as a multiplication by the reciprocal. *)
Lemma decode_encode_not_exact_in_binary32 :
  ~ (Float32.decode Float32.identity
       (Float32.encode Float32.identity [[[[Float32.x0]]]])
     = [[[[Float32.x0]]]]
     \/ Float32.decode_by_reciprocal Float32.identity
          (Float32.encode Float32.identity [[[[Float32.x0]]]])
        = [[[[Float32.x0]]]]).
Proof. intros [H|H]; vm_compute in H; discriminate H. Qed.

(** ** Entries and shapes of elementwise operations *)

Section Elementwise.
Import Torch.

Lemma zip_nil_r {A C D : Type} (f : A -> C -> D) (l : list A) :
  zip f l [] = [].
Proof. destruct l; reflexivity. Qed.

Lemma nth_zip {A C D : Type} (f : A -> C -> D) (l : list A) (l' : list C)
  (a : A) (c : C) (d : D) :
  forall i, (i < length l)%nat -> (i < length l')%nat ->
    nth i (zip f l l') d = f (nth i l a) (nth i l' c).
Proof.
  revert l'. induction l as [|x l IH]; intros l' i Hi Hi'; [simpl in Hi; lia|].
  destruct l' as [|y l']; [simpl in Hi'; lia|].
  destruct i as [|i]; [reflexivity|].
  simpl in *. apply IH; lia.
Qed.

(** For operations on lists that return the empty list on an empty
    argument, the row of a [zip] is the operation on the rows, whatever the
    index. *)
Lemma nth_zip_rows {A C D : Type} (F : list A -> list C -> list D)
  (l : list (list A)) (l' : list (list C)) (i : nat) :
  (forall y, F [] y = []) -> (forall x, F x [] = []) ->
  nth i (zip F l l') [] = F (nth i l []) (nth i l' []).
Proof.
  intros Hl Hr. revert l' i.
  induction l as [|x l IH]; intros l' i.
  - simpl. destruct i; now rewrite Hl.
  - destruct l' as [|y l'].
    + simpl. destruct i; now rewrite Hr.
    + destruct i as [|i]; [reflexivity | simpl; apply IH].
Qed.

Lemma nth_map_rows {A C : Type} (f : A -> C) (l : list (list A)) (i : nat) :
  nth i (map (map f) l) [] = map f (nth i l []).
Proof. exact (map_nth (map f) l [] i). Qed.

Lemma nth_map_in {A C : Type} (f : A -> C) (l : list A) (a : A) (c : C)
  (i : nat) :
  (i < length l)%nat -> nth i (map f l) c = f (nth i l a).
Proof.
  intros Hi. rewrite (nth_indep _ c (f a)) by (now rewrite length_map).
  apply map_nth.
Qed.

Lemma get_map4 (f : Qc -> Qc) (x : tensor4) (b c h w : nat) :
  Loss.in_range x b c h w -> get (map4 f x) b c h w = f (get x b c h w).
Proof.
  intros (_ & _ & _ & Hw). unfold get, map4.
  rewrite !nth_map_rows. now apply nth_map_in.
Qed.

Lemma in_range_map4 (f : Qc -> Qc) (x : tensor4) (b c h w : nat) :
  Loss.in_range x b c h w -> Loss.in_range (map4 f x) b c h w.
Proof.
  intros (Hb & Hc & Hh & Hw). unfold Loss.in_range, map4.
  rewrite !nth_map_rows, !length_map. auto.
Qed.

Lemma get_zip4 (f : Qc -> Qc -> Qc) (x y : tensor4) (b c h w : nat) :
  Loss.in_range x b c h w -> Loss.in_range y b c h w ->
  get (zip4 f x y) b c h w = f (get x b c h w) (get y b c h w).
Proof.
  intros (_ & _ & _ & Hx) (_ & _ & _ & Hy). unfold get, zip4.
  rewrite !nth_zip_rows by (try reflexivity; intros; apply zip_nil_r).
  now apply nth_zip.
Qed.

Lemma get_mul_b111 (t : tensor1) (x : tensor4) (b c h w : nat) :
  (b < length t)%nat -> Loss.in_range x b c h w ->
  get (mul_b111 t x) b c h w = nth b t 0 * get x b c h w.
Proof.
  intros Ht (Hb & Hc & Hh & Hw). unfold get, mul_b111.
  rewrite (nth_zip _ t x 0 []) by assumption.
  rewrite !nth_map_rows. now apply nth_map_in.
Qed.

Lemma in_range_mul_b111 (t : tensor1) (x : tensor4) (b c h w : nat) :
  (b < length t)%nat -> Loss.in_range x b c h w ->
  Loss.in_range (mul_b111 t x) b c h w.
Proof.
  intros Ht (Hb & Hc & Hh & Hw). unfold Loss.in_range, mul_b111.
  assert (L : forall f (l : tensor1) (l' : tensor4),
             length l = length l' ->
             length (zip (A := Qc) (C := tensor3) f l l') = length l').
  { intros f l. induction l as [|a l IH]; intros [|a' l'] E; simpl in *;
      try congruence. now rewrite IH by lia. }
  rewrite (nth_zip _ t x 0 []) by assumption.
  rewrite !nth_map_rows, !length_map.
  split; [|auto].
  clear - Ht Hb. revert x b Ht Hb.
  induction t as [|a t IH]; intros [|y x] b Ht Hb; simpl in *; try lia.
  destruct b as [|b]; [lia|]. apply -> Nat.succ_lt_mono. apply IH; lia.
Qed.

Lemma same_shape_mul_b111 (t : tensor1) (x : tensor4) :
  length t = length x -> same_shape (mul_b111 t x) x = true.
Proof.
  unfold mul_b111. revert x.
  induction t as [|a t IH]; intros [|s x] E; simpl in E; try discriminate;
    [reflexivity|].
  cbn [zip]. unfold same_shape. cbn [same_len]. apply andb_true_iff. split.
  - pose proof (same_shape_map4 (Qcmult a) [s]) as H.
    unfold same_shape, map4 in H. cbn [map same_len] in H.
    apply andb_true_iff in H. exact (proj1 H).
  - apply IH. lia.
Qed.

Lemma same_shape_in_range (x y : tensor4) (b c h w : nat) :
  same_shape x y = true -> Loss.in_range x b c h w -> Loss.in_range y b c h w.
Proof.
  unfold same_shape, Loss.in_range. intros S (Hb & Hc & Hh & Hw).
  pose proof (same_len_length _ _ _ S) as L1.
  pose proof (same_len_nth _ x [] [] y b S Hb) as S1.
  pose proof (same_len_length _ _ _ S1) as L2.
  pose proof (same_len_nth _ _ [] [] _ c S1 Hc) as S2.
  pose proof (same_len_length _ _ _ S2) as L3.
  pose proof (same_len_nth _ _ [] [] _ h S2 Hh) as S3.
  pose proof (same_len_length _ _ _ S3) as L4.
  repeat split; congruence.
Qed.

End Elementwise.

(** ** The training loss *)

Section LossFacts.
Import Torch.

Lemma draws_like_same_len {G X Y : Type} (p : X -> Y -> bool)
  (next : Y -> G -> X * G) (ys : list Y) :
  (forall y g, p (fst (next y g)) y = true) ->
  forall g, same_len p (fst (draws_like next ys g)) ys = true.
Proof.
  intros Hp. induction ys as [|y ys IH]; intros g; simpl; [reflexivity|].
  specialize (Hp y g). destruct (next y g) as [x g1]. specialize (IH g1).
  destruct (draws_like next ys g1) as [xs g2]. simpl in *.
  now rewrite Hp, IH.
Qed.

(** [randn_like(x)] has the shape of [x]. *)
Lemma randn_like_shape (B : Backend) (x : tensor4) (g : gstate B) :
  same_shape (fst (randn_like B x g)) x = true.
Proof.
  unfold randn_like, same_shape.
  apply draws_like_same_len. intros s g1.
  apply draws_like_same_len. intros m g2.
  apply draws_like_same_len. intros r g3.
  apply draws_like_same_len. reflexivity.
Qed.

(** One time per sample. *)
Lemma times_length (B : Backend) (logit_normal : bool) (b : nat)
  (g : gstate B) :
  length (fst (Loss.times B logit_normal b g)) = b.
Proof.
  unfold Loss.times, randn1, rand1. destruct logit_normal.
  - pose proof (draws_length (next_normal B) b g) as L.
    destruct (draws (next_normal B) b g) as [r g1]. simpl in *.
    now rewrite length_map.
  - apply draws_length.
Qed.

(** The entries of the interpolated state and of the target. *)
Lemma interpolate_entry (t : tensor1) (x z : tensor4) (b c h w : nat) :
  length t = length x -> same_shape z x = true ->
  Loss.in_range x b c h w ->
  get (Loss.interpolate t (Utils.normalize_to_neg1_1 x) z) b c h w
  = (1 - nth b t 0) * (get x b c h w * Qc_of_nat 2 - 1)
    + nth b t 0 * get z b c h w.
Proof.
  intros Ht Sz Hx.
  assert (Hz : Loss.in_range z b c h w)
    by (apply (same_shape_in_range x z); [now apply same_shape_sym | exact Hx]).
  assert (Hb : (b < length t)%nat) by (rewrite Ht; apply Hx).
  assert (Hn : Loss.in_range (Utils.normalize_to_neg1_1 x) b c h w)
    by (now apply in_range_map4).
  unfold Loss.interpolate, add.
  rewrite get_zip4.
  - rewrite !get_mul_b111; try assumption.
    + unfold Utils.normalize_to_neg1_1 at 1. rewrite get_map4 by exact Hx.
      unfold rsub1. rewrite (nth_map_in _ t 0 0) by exact Hb. reflexivity.
    + unfold rsub1. now rewrite length_map.
  - apply in_range_mul_b111; [|exact Hn]. unfold rsub1. now rewrite length_map.
  - now apply in_range_mul_b111.
Qed.

Lemma target_entry (x z : tensor4) (b c h w : nat) :
  same_shape z x = true -> Loss.in_range x b c h w ->
  get (sub z (Utils.normalize_to_neg1_1 x)) b c h w
  = get z b c h w - (get x b c h w * Qc_of_nat 2 - 1).
Proof.
  intros Sz Hx. unfold sub. rewrite get_zip4.
  - unfold Utils.normalize_to_neg1_1. now rewrite get_map4.
  - apply (same_shape_in_range x z); [now apply same_shape_sym | exact Hx].
  - now apply in_range_map4.
Qed.

Lemma interpolate_shape (t : tensor1) (x z : tensor4) :
  length t = length x -> same_shape z x = true ->
  same_shape (Loss.interpolate t (Utils.normalize_to_neg1_1 x) z) x = true.
Proof.
  intros Ht Sz. unfold Loss.interpolate, add.
  assert (Sn : same_shape (Utils.normalize_to_neg1_1 x) x = true)
    by apply same_shape_map4.
  assert (L1 : length (rsub1 t) = length (Utils.normalize_to_neg1_1 x)).
  { unfold rsub1, Utils.normalize_to_neg1_1, map4.
    now rewrite !length_map. }
  assert (L2 : length t = length z).
  { rewrite Ht. symmetry. unfold same_shape in Sz.
    exact (same_len_length _ _ _ Sz). }
  pose proof (same_shape_mul_b111 _ _ L1) as S1.
  pose proof (same_shape_mul_b111 _ _ L2) as S2.
  assert (S3 : same_shape (mul_b111 (rsub1 t) (Utils.normalize_to_neg1_1 x))
                 (mul_b111 t z) = true).
  { apply same_shape_trans with (1 := S1).
    apply same_shape_trans with (1 := Sn).
    apply same_shape_sym.
    apply same_shape_trans with (1 := S2). exact Sz. }
  apply same_shape_trans with (1 := same_shape_zip4 _ _ _ S3).
  apply same_shape_trans with (1 := S1). exact Sn.
Qed.

End LossFacts.

(** C1.  Given labels whenever the network is conditional, and a network
    whose prediction has the shape of its input, [forward] computes the loss
    as follows: one time per sample is drawn, uniformly or
    as the logistic function of a standard normal draw according to
    [logit_normal_sampling_t]; Gaussian noise [z] of the shape of [x] is
    drawn; [x] is normalized from [0,1] to [-1,1]; the interpolated state is
    [(1 - t) * x + t * z] entry by entry, with the time of a sample used for
    all its channels and pixels; the network is queried once, at
    [(z_t, t, c)]; the result is the mean-squared error between the target
    [z - x] and the prediction. *)
Theorem forward_computes_flow_loss (B : Torch.Backend)
  (self : RectifiedFlow.t) (x : Torch.tensor4) (c : option Net.labels)
  (w : Run.world B) :
  Net.keeps_shape (RectifiedFlow.net self) ->
  (RectifiedFlow.use_cond self = true -> c <> None) ->
  exists t g1 z g2 z_t,
    (if RectifiedFlow.logit_normal_sampling_t self
     then exists r, Torch.randn1 B (length x) (Run.rng w) = (r, g1)
                    /\ t = map (Torch.sigmoid B) r
     else Torch.rand1 B (length x) (Run.rng w) = (t, g1)) /\
    length t = length x /\
    Torch.randn_like B x g1 = (z, g2) /\
    Torch.same_shape z x = true /\
    Torch.same_shape z_t x = true /\
    (forall b k h v, Loss.in_range x b k h v ->
       Torch.get z_t b k h v
       = (1 - nth b t 0) * (Torch.get x b k h v * Torch.Qc_of_nat 2 - 1)
         + nth b t 0 * Torch.get z b k h v
       /\ Torch.get (Torch.sub z (Utils.normalize_to_neg1_1 x)) b k h v
          = Torch.get z b k h v
            - (Torch.get x b k h v * Torch.Qc_of_nat 2 - 1)) /\
    RectifiedFlow.forward self x c w
    = Run.Ok (Torch.mse_loss
                (Torch.sub z (Utils.normalize_to_neg1_1 x))
                (Net.call (RectifiedFlow.net self) z_t (Net.T1 t) c),
              {| Run.rng := g2;
                 Run.trace := Run.trace w ++ [Run.NetCall z_t (Net.T1 t) c] |}).
Proof.
  intros _ Hadm.
  pose proof (forward_run self x c w Hadm) as R.
  pose proof (times_length B (RectifiedFlow.logit_normal_sampling_t self)
                (length x) (Run.rng w)) as Lt.
  assert (P : let (t, g1) :=
                Loss.times B (RectifiedFlow.logit_normal_sampling_t self)
                  (length x) (Run.rng w) in
              if RectifiedFlow.logit_normal_sampling_t self
              then exists r, Torch.randn1 B (length x) (Run.rng w) = (r, g1)
                             /\ t = map (Torch.sigmoid B) r
              else Torch.rand1 B (length x) (Run.rng w) = (t, g1)).
  { unfold Loss.times.
    destruct (RectifiedFlow.logit_normal_sampling_t self).
    - destruct (Torch.randn1 B (length x) (Run.rng w)) as [r g1].
      exists r. split; reflexivity.
    - destruct (Torch.rand1 B (length x) (Run.rng w)) as [t g1]. reflexivity. }
  destruct (Loss.times B _ (length x) (Run.rng w)) as [t g1]. simpl fst in Lt.
  pose proof (randn_like_shape B x g1) as Sz.
  destruct (Torch.randn_like B x g1) as [z g2] eqn:Ez. simpl fst in Sz.
  cbv zeta in R.
  exists t, g1, z, g2,
    (Loss.interpolate t (Utils.normalize_to_neg1_1 x) z).
  split; [exact P|]. split; [exact Lt|]. split; [exact Ez|].
  split; [exact Sz|]. split; [now apply interpolate_shape|].
  split; [|exact R].
  intros b k h v Hr. split.
  - now apply interpolate_entry.
  - now apply target_entry.
Qed.

(** ** The value of the loss *)

Section MeanSquares.
Import Torch.

Lemma Qc_square_nonneg (a : Qc) : 0 <= a * a.
Proof.
  destruct (Qclt_le_dec a 0) as [Hneg|Hpos].
  - assert (H : 0 <= - a).
    { apply Qclt_le_weak in Hneg. apply Qcopp_le_compat in Hneg.
      replace (- 0) with 0 in Hneg by ring. exact Hneg. }
    pose proof (Qcmult_le_compat_r 0 (- a) (- a) H H) as M.
    replace (0 * - a) with 0 in M by ring.
    replace (- a * - a) with (a * a) in M by ring. exact M.
  - pose proof (Qcmult_le_compat_r 0 a a Hpos Hpos) as M.
    replace (0 * a) with 0 in M by ring. exact M.
Qed.

Lemma Qc_div_nonneg (a b : Qc) : 0 <= a -> 0 < b -> 0 <= a / b.
Proof.
  intros Ha Hb. apply (Qcmult_lt_0_le_reg_r 0 (a / b) b Hb).
  replace (0 * b) with 0 by ring.
  replace (a / b * b) with a; [exact Ha|].
  field. intros E. rewrite E in Hb. exact (Qclt_not_eq _ _ Hb eq_refl).
Qed.

Lemma sum_nonneg (l : list Qc) : Forall (fun q => 0 <= q) l -> 0 <= sum l.
Proof.
  induction 1 as [|q l Hq _ IH]; simpl.
  - apply Qcle_refl.
  - replace 0 with (0 + 0) by ring. now apply Qcplus_le_compat.
Qed.

Lemma sum_zeros (l : list Qc) : Forall (fun q => q = 0) l -> sum l = 0.
Proof.
  induction 1 as [|q l Hq _ IH]; simpl; [reflexivity|].
  rewrite Hq, IH. ring.
Qed.

(** The mean of non-negative numbers, at least one of them, is a
    non-negative number. *)
Lemma mean_nonneg (l : list Qc) :
  l <> [] -> Forall (fun q => 0 <= q) l ->
  exists q, mean l = Scalar q /\ 0 <= q.
Proof.
  intros Hne Hl. destruct l as [|a l]; [congruence|].
  eexists. split; [reflexivity|].
  apply Qc_div_nonneg; [now apply sum_nonneg|].
  apply Qc_of_nat_pos. simpl. lia.
Qed.

Lemma mean_zeros (l : list Qc) :
  l <> [] -> Forall (fun q => q = 0) l -> mean l = Scalar 0.
Proof.
  intros Hne Hl. destruct l as [|a l]; [congruence|].
  unfold mean. rewrite (sum_zeros _ Hl). f_equal.
  unfold Qcdiv. ring.
Qed.

Lemma Forall_zip {A C D : Type} (P : D -> Prop) (f : A -> C -> D)
  (l : list A) :
  (forall a c, P (f a c)) -> forall l', Forall P (zip f l l').
Proof.
  intros H. induction l as [|a l IH]; intros [|c l']; simpl;
    constructor; auto.
Qed.

Lemma Forall_flatten4_zip4 (P : Qc -> Prop) (f : Qc -> Qc -> Qc)
  (x y : tensor4) :
  (forall a c, P (f a c)) -> Forall P (flatten4 (zip4 f x y)).
Proof.
  intros H. unfold flatten4, zip4.
  apply Forall_concat, Forall_map. apply Forall_zip. intros s s'.
  apply Forall_concat, Forall_map. apply Forall_zip. intros m m'.
  apply Forall_concat. apply Forall_zip. intros r r'.
  now apply Forall_zip.
Qed.

Lemma same_len_concat_length {A C X Y : Type} (p : A -> C -> bool)
  (fa : A -> list X) (fc : C -> list Y) (l : list A) :
  (forall a c, p a c = true -> length (fa a) = length (fc c)) ->
  forall l', same_len p l l' = true ->
    length (concat (map fa l)) = length (concat (map fc l')).
Proof.
  intros Hp. induction l as [|a l IH]; intros [|c l'] H; simpl in *;
    try discriminate; [reflexivity|].
  apply andb_true_iff in H. destruct H as [H1 H2].
  rewrite !length_app. now rewrite (Hp _ _ H1), (IH _ H2).
Qed.

(** Tensors of the same shape have the same number of entries. *)
Lemma same_shape_numel (x y : tensor4) :
  same_shape x y = true -> numel x = numel y.
Proof.
  unfold same_shape, numel, flatten4.
  apply same_len_concat_length. intros s s'.
  apply same_len_concat_length. intros m m' Hm.
  rewrite <- (map_id m), <- (map_id m').
  revert Hm. apply same_len_concat_length. intros r r'.
  apply same_len_length.
Qed.

Lemma numel_pos_flatten (x : tensor4) : (0 < numel x)%nat -> flatten4 x <> [].
Proof. unfold numel. destruct (flatten4 x); simpl; [lia | discriminate]. Qed.

(** The mean-squared error of tensors of one shape, with at least one
    entry, is a non-negative number; it is 0 when the tensors are equal. *)
Lemma mse_loss_nonneg (a b : tensor4) :
  same_shape a b = true -> (0 < numel a)%nat ->
  exists q, mse_loss a b = Scalar q /\ 0 <= q /\ (a = b -> q = 0).
Proof.
  intros S Hn.
  set (sq := fun u v : Qc => (u - v) * (u - v)).
  assert (Hne : flatten4 (zip4 sq a b) <> []).
  { apply numel_pos_flatten.
    rewrite (same_shape_numel _ _ (same_shape_zip4 sq a b S)). exact Hn. }
  destruct (mean_nonneg (flatten4 (zip4 sq a b)) Hne) as (q & Hq & Hpos).
  { apply Forall_flatten4_zip4. intros u v. apply Qc_square_nonneg. }
  exists q. split; [exact Hq|]. split; [exact Hpos|].
  intros ->. unfold mse_loss in *. fold sq in Hq.
  rewrite mean_zeros in Hq.
  - now injection Hq.
  - exact Hne.
  - rewrite zip4_diag, flatten4_map4. apply Forall_forall. intros d Hd.
    apply in_map_iff in Hd. destruct Hd as (u & <- & _). unfold sq. ring.
Qed.

End MeanSquares.

(** C8, as amended.  Given labels whenever the network is conditional, a
    batch with at least one entry, and a network whose prediction has the
    shape of its input, [forward] returns a single non-negative number; that
    number is 0 when the prediction of the network is exactly the target
    [z - x]. *)
Theorem loss_nonnegative_zero_at_target (B : Torch.Backend)
  (self : RectifiedFlow.t) (x : Torch.tensor4) (c : option Net.labels)
  (w : Run.world B) :
  let t := fst (Loss.times B (RectifiedFlow.logit_normal_sampling_t self)
                  (length x) (Run.rng w)) in
  let g1 := snd (Loss.times B (RectifiedFlow.logit_normal_sampling_t self)
                   (length x) (Run.rng w)) in
  let z := fst (Torch.randn_like B x g1) in
  let xn := Utils.normalize_to_neg1_1 x in
  let z_t := Loss.interpolate t xn z in
  let v_t := Net.call (RectifiedFlow.net self) z_t (Net.T1 t) c in
  (RectifiedFlow.use_cond self = true -> c <> None) ->
  (0 < Torch.numel x)%nat ->
  Torch.same_shape v_t z_t = true ->
  exists q w',
    RectifiedFlow.forward self x c w = Run.Ok (Torch.Scalar q, w') /\
    0 <= q /\
    (v_t = Torch.sub z xn -> q = 0).
Proof.
  intros t g1 z xn z_t v_t Hadm Hn Sv.
  pose proof (forward_run self x c w Hadm) as R.
  pose proof (times_length B (RectifiedFlow.logit_normal_sampling_t self)
                (length x) (Run.rng w)) as Lt.
  pose proof (randn_like_shape B x g1) as Sz.
  subst v_t z_t xn z g1 t.
  destruct (Loss.times B _ (length x) (Run.rng w)) as [t g1].
  simpl fst in *. simpl snd in *.
  destruct (Torch.randn_like B x g1) as [z g2]. simpl fst in *.
  cbv zeta in R.
  assert (St : Torch.same_shape (Torch.sub z (Utils.normalize_to_neg1_1 x))
                 (Net.call (RectifiedFlow.net self)
                    (Loss.interpolate t (Utils.normalize_to_neg1_1 x) z)
                    (Net.T1 t) c) = true).
  { assert (S1 : Torch.same_shape (Torch.sub z (Utils.normalize_to_neg1_1 x))
                   x = true).
    { unfold Torch.sub.
      apply same_shape_trans with (2 := Sz). apply same_shape_zip4.
      apply same_shape_trans with (1 := Sz).
      apply same_shape_sym, same_shape_map4. }
    apply same_shape_trans with (1 := S1).
    apply same_shape_sym.
    apply same_shape_trans with (1 := Sv).
    now apply interpolate_shape. }
  assert (Nt : (0 < Torch.numel
                     (Torch.sub z (Utils.normalize_to_neg1_1 x)))%nat).
  { rewrite (same_shape_numel _ x); [exact Hn|].
    unfold Torch.sub.
    apply same_shape_trans with (2 := Sz). apply same_shape_zip4.
    apply same_shape_trans with (1 := Sz).
    apply same_shape_sym, same_shape_map4. }
  destruct (mse_loss_nonneg _ _ St Nt) as (q & Hq & Hpos & Hz).
  exists q. eexists. rewrite R, Hq.
  split; [reflexivity|]. split; [exact Hpos|].
  intros E. apply Hz. now symmetry.
Qed.

Lemma forward_computes_flow_loss_witness :
  Claims.is_ok
    (RectifiedFlow.forward Demo.cond_flow Demo.batch (Some [3%nat])
       Demo.world0) = true.
Proof.
  destruct (forward_computes_flow_loss Demo.backend Demo.cond_flow Demo.batch
              (Some [3%nat]) Demo.world0)
    as (t & g1 & z & g2 & z_t & _ & _ & _ & _ & _ & _ & R).
  - exact (proj1 (demo_net_keeps_shape (Some 10%nat))).
  - intros _. discriminate.
  - rewrite R. reflexivity.
Defined.

Lemma loss_nonnegative_zero_at_target_witness :
  exists w',
    RectifiedFlow.forward Demo.oracle_flow Demo.batch None Demo.world0
    = Run.Ok (Torch.Scalar 0, w').
Proof.
  pose proof (loss_nonnegative_zero_at_target Demo.backend Demo.oracle_flow
                Demo.batch None Demo.world0) as H.
  cbv zeta in H.
  destruct H as (q & w' & Hf & _ & Hz).
  - intros H. discriminate H.
  - vm_compute. lia.
  - vm_compute. reflexivity.
  - exists w'. rewrite Hf. rewrite (Hz eq_refl). reflexivity.
Defined.

(** C8 fails on the empty batch: the claim has [forward] return a
    non-negative number for every batch, but for a batch without samples the
    mean-squared error is the mean of no element, which is NaN. *)
Lemma loss_of_empty_batch_is_nan :
  (exists w',
      RectifiedFlow.forward Demo.flow [] None Demo.world0
      = Run.Ok (Torch.NaN, w'))
  /\ ~ (exists q w',
          RectifiedFlow.forward Demo.flow [] None Demo.world0
          = Run.Ok (Torch.Scalar q, w') /\ 0 <= q).
Proof.
  assert (E : match RectifiedFlow.forward Demo.flow [] None Demo.world0 with
              | Run.Ok (v, _) => Some v
              | Run.AssertionError _ => None
              end = Some Torch.NaN) by (vm_compute; reflexivity).
  destruct (RectifiedFlow.forward Demo.flow [] None Demo.world0)
    as [[v w1]|msg]; [|discriminate E].
  injection E as ->. split.
  - exists w1. reflexivity.
  - intros (q & w' & H & _). discriminate H.
Qed.

(** ** Worked runs on the concrete instances *)

Example linspace_three :
  map this (Torch.linspace 0 1 3) = [0; 1 # 2; 1]%Q.
Proof. vm_compute. reflexivity. Qed.

Example sample_times_three :
  map this (Euler.sample_times 3) = [1; 1 # 2; 0]%Q.
Proof. vm_compute. reflexivity. Qed.

Example descending_times_three :
  map this (Euler.descending_times 3) = [1; 1 # 2; 0]%Q.
Proof. vm_compute. reflexivity. Qed.

Example clip_three :
  map this (map (Torch.clip1 (- (1)) 1) [Demo.q (-3) 2; Demo.q 1 4; Demo.q 3 2])
  = [-1; 1 # 4; 1]%Q.
Proof. vm_compute. reflexivity. Qed.

(** One step: the network is asked once, at t = 0, and the velocity is
    divided by 1. *)
Example single_step_events :
  Claims.new_events Demo.world0
    (RectifiedFlow.sample Demo.flow 1 1 false Demo.world0)
  = [Run.NetCall
       (fst (Torch.randn Demo.backend (1%nat, 1%nat, 2%nat, 2%nat) O))
       (Net.T0 0) None;
     Run.DivInt 1].
Proof. vm_compute. reflexivity. Qed.

(** Three steps on a batch of two: three queries and three divisions by 3,
    and a trajectory of four tensors. *)
Example three_steps_counts :
  length (Claims.new_events Demo.world0
            (RectifiedFlow.sample Demo.flow 2 3 true Demo.world0)) = 6%nat
  /\ option_map (@length _)
       (match RectifiedFlow.sample Demo.flow 2 3 true Demo.world0 with
        | Run.Ok (out, _) => steps_of out
        | Run.AssertionError _ => None
        end) = Some 4%nat.
Proof. split; vm_compute; reflexivity. Qed.

(** The loss of the demonstration model on the one-image batch. *)
Example demo_loss :
  match RectifiedFlow.forward Demo.flow Demo.batch None Demo.world0 with
  | Run.Ok (Torch.Scalar v, _) => Some (this v)
  | _ => None
  end = Some (321 # 256)%Q.
Proof. vm_compute. reflexivity. Qed.

(** An empty batch has no entry to average over. *)
Example empty_batch_loss :
  match RectifiedFlow.forward Demo.flow [] None Demo.world0 with
  | Run.Ok (v, _) => Some v
  | Run.AssertionError _ => None
  end = Some Torch.NaN.
Proof. vm_compute. reflexivity. Qed.

(** * Further properties of the code *)

(** ** [num_to_groups] *)

Section Groups.
Local Open Scope Z_scope.

Lemma total_app (l l' : list Z) : Trainer.total (l ++ l') = Trainer.total l + Trainer.total l'.
Proof. induction l as [|a l IH]; simpl; [reflexivity | rewrite IH; lia]. Qed.

Lemma total_repeat (d : Z) (k : nat) : Trainer.total (repeat d k) = d * Z.of_nat k.
Proof.
  induction k as [|k IH]; [simpl; lia|].
  cbn [repeat Trainer.total fold_right]. fold (Trainer.total (repeat d k)). rewrite IH. lia.
Qed.

(** The shape of the result: [divisor] repeated, then the remainder when
    there is one. *)
Lemma num_to_groups_value (num divisor : Z) :
  divisor <> 0 ->
  Trainer.num_to_groups num divisor
  = Py.Returned
      (repeat divisor (Z.to_nat (num / divisor))
       ++ (if 0 <? num mod divisor then [num mod divisor] else [])).
Proof.
  intros Hd. unfold Trainer.num_to_groups.
  destruct (Z.eqb_spec divisor 0) as [E|_]; [contradiction|].
  cbv zeta. destruct (0 <? num mod divisor); [reflexivity|].
  now rewrite app_nil_r.
Qed.

Lemma ceil_div (num divisor : Z) :
  0 <= num -> 0 < divisor ->
  (num + divisor - 1) / divisor
  = num / divisor + (if 0 <? num mod divisor then 1 else 0).
Proof.
  intros Hn Hd.
  pose proof (Z.div_mod num divisor ltac:(lia)) as E.
  pose proof (Z.mod_pos_bound num divisor Hd) as Hr.
  destruct (Z.ltb_spec 0 (num mod divisor)) as [Hp|Hz].
  - symmetry. apply (Z.div_unique (num + divisor - 1) divisor
                       (num / divisor + 1) (num mod divisor - 1)); lia.
  - symmetry. apply (Z.div_unique (num + divisor - 1) divisor
                       (num / divisor + 0) (divisor - 1)); lia.
Qed.

End Groups.

(** X2.  For a non-negative number and a positive divisor, [num_to_groups]
    splits the number into groups: the groups add up to the number, each is
    at least 1 and at most the divisor, every group but the last is the
    divisor itself, and there are ceil(num / divisor) of them. *)
Theorem num_to_groups_partitions (num divisor : Z) :
  (0 <= num)%Z -> (0 < divisor)%Z ->
  exists arr,
    Trainer.num_to_groups num divisor = Py.Returned arr /\
    Trainer.total arr = num /\
    Forall (fun g => (1 <= g <= divisor)%Z) arr /\
    (forall i, (S i < length arr)%nat -> nth i arr 0%Z = divisor) /\
    length arr = Z.to_nat ((num + divisor - 1) / divisor).
Proof.
  intros Hn Hd.
  rewrite (num_to_groups_value num divisor) by lia.
  eexists. split; [reflexivity|].
  pose proof (Z.div_mod num divisor ltac:(lia)) as E.
  pose proof (Z.mod_pos_bound num divisor Hd) as Hr.
  pose proof (Z.div_pos num divisor Hn Hd) as Hq.
  split; [|split; [|split]].
  - rewrite total_app, total_repeat, Z2Nat.id by exact Hq.
    destruct (Z.ltb_spec 0 (num mod divisor)); simpl; lia.
  - apply Forall_app. split.
    + apply Forall_forall. intros g Hg. apply repeat_spec in Hg. lia.
    + destruct (Z.ltb_spec 0 (num mod divisor)); constructor; [lia|constructor].
  - intros i Hi. rewrite length_app, repeat_length in Hi.
    assert (Hi' : (i < Z.to_nat (num / divisor))%nat).
    { destruct (0 <? num mod divisor)%Z; simpl in Hi; lia. }
    rewrite app_nth1 by (now rewrite repeat_length).
    apply nth_repeat_lt. exact Hi'.
  - rewrite length_app, repeat_length, (ceil_div num divisor Hn Hd).
    destruct (Z.ltb_spec 0 (num mod divisor)); simpl length; lia.
Qed.

Lemma num_to_groups_partitions_witness :
  exists arr,
    Trainer.num_to_groups 100 30 = Py.Returned arr /\
    Trainer.total arr = 100%Z /\
    Forall (fun g => (1 <= g <= 30)%Z) arr /\
    (forall i, (S i < length arr)%nat -> nth i arr 0%Z = 30%Z) /\
    length arr = Z.to_nat ((100 + 30 - 1) / 30).
Proof.
  apply (num_to_groups_partitions 100 30); lia.
Defined.

(** ** [save_ckpt]: the checkpoints that are kept *)

Section Checkpoints.

Lemma lastn_short {A : Type} (k : nat) (l : list A) :
  (length l <= k)%nat -> Trainer.lastn k l = l.
Proof.
  intros H. unfold Trainer.lastn.
  replace (length l - k)%nat with O by lia. reflexivity.
Qed.

Lemma lastn_app_drop {A : Type} (k : nat) (pre l : list A) :
  (k <= length l)%nat -> Trainer.lastn k (pre ++ l) = Trainer.lastn k l.
Proof.
  intros H. unfold Trainer.lastn. rewrite length_app, skipn_app.
  rewrite skipn_all2 by lia. simpl. f_equal. lia.
Qed.

Lemma lastn_length {A : Type} (k : nat) (l : list A) :
  length (Trainer.lastn k l) = Nat.min k (length l).
Proof. unfold Trainer.lastn. rewrite length_skipn. lia. Qed.

Lemma lastn_lastn_app {A : Type} (k : nat) (l l' : list A) :
  Trainer.lastn k (Trainer.lastn k l ++ l') = Trainer.lastn k (l ++ l').
Proof.
  destruct (Nat.le_gt_cases (length l) k) as [Hs|Hl].
  - now rewrite (lastn_short k l Hs).
  - rewrite <- (firstn_skipn (length l - k) l) at 2.
    fold (Trainer.lastn k l). rewrite <- app_assoc.
    symmetry. apply lastn_app_drop.
    rewrite length_app, lastn_length. lia.
Qed.

Lemma file_exists_In (p : Trainer.path) (d : Trainer.directory) :
  Trainer.file_exists p d = true <-> In p d.
Proof.
  unfold Trainer.file_exists. rewrite existsb_exists. split.
  - intros (q & Hq & E). apply Nat.eqb_eq in E. now subst.
  - intros H. exists p. split; [exact H | apply Nat.eqb_refl].
Qed.

Lemma torch_save_In (p q : Trainer.path) (d : Trainer.directory) :
  In q (Trainer.torch_save p d) <-> q = p \/ In q d.
Proof.
  unfold Trainer.torch_save.
  destruct (Trainer.file_exists p d) eqn:E.
  - apply file_exists_In in E. split; [auto|]. intros [->|H]; assumption.
  - simpl. split; intros [H|H]; auto.
Qed.

Lemma os_remove_spec (p : Trainer.path) (d : Trainer.directory) :
  In p d ->
  exists d', Trainer.os_remove p d = Py.Returned d'
             /\ forall q, In q d' <-> In q d /\ q <> p.
Proof.
  intros H. unfold Trainer.os_remove.
  rewrite (proj2 (file_exists_In p d) H). eexists. split; [reflexivity|].
  intros q. rewrite filter_In. rewrite negb_true_iff, Nat.eqb_neq. tauto.
Qed.

(** One call: the paths kept afterwards are the last three of the paths kept
    before and the path of the current step. *)
Lemma save_ckpt_paths (self self' : Trainer.t) (d d' : Trainer.directory) :
  (length (Trainer.ckpt_paths self) <= 3)%nat ->
  Trainer.save_ckpt self d = Py.Returned (self', d') ->
  Trainer.ckpt_paths self'
  = Trainer.lastn 3 (Trainer.ckpt_paths self ++ [Trainer.step self])
  /\ Trainer.step self' = Trainer.step self.
Proof.
  intros Hl. unfold Trainer.save_ckpt. cbv zeta.
  destruct (Trainer.ckpt_paths self) as [|a [|b [|c [|e P]]]];
    simpl in Hl; try lia; cbn [app length Nat.ltb Nat.leb].
  - intros E. injection E as <- _. split; reflexivity.
  - intros E. injection E as <- _. split; reflexivity.
  - intros E. injection E as <- _. split; reflexivity.
  - destruct (Trainer.os_remove a _) as [d2|e]; [|discriminate].
    intros E. injection E as <- _. split; reflexivity.
Qed.

Lemma save_at_steps_paths (steps : list nat) :
  forall (self self' : Trainer.t) (d d' : Trainer.directory),
    (length (Trainer.ckpt_paths self) <= 3)%nat ->
    Trainer.save_at_steps steps self d = Py.Returned (self', d') ->
    Trainer.ckpt_paths self'
    = Trainer.lastn 3 (Trainer.ckpt_paths self ++ steps).
Proof.
  induction steps as [|s steps IH]; intros self self' d d' Hl E.
  - simpl in E. injection E as <- _. rewrite app_nil_r.
    symmetry. now apply lastn_short.
  - cbn [Trainer.save_at_steps] in E.
    destruct (Trainer.save_ckpt (Trainer.set_step self s) d)
      as [[self1 d1]|e] eqn:E1; [|discriminate].
    apply save_ckpt_paths in E1; [|exact Hl].
    destruct E1 as [E1 _]. cbn [Trainer.set_step Trainer.ckpt_paths
                                Trainer.step] in E1.
    rewrite (IH self1 self' d1 d') ; [| |exact E].
    + rewrite E1, lastn_lastn_app, <- app_assoc. reflexivity.
    + rewrite E1, lastn_length. lia.
Qed.

End Checkpoints.

(** X3.  However many times [save_ckpt] is called, and at whatever steps, a
    trainer that kept at most three checkpoint paths keeps at most three
    afterwards: the last three of the paths it had and the paths of the steps
    it saved at, in that order. *)
Theorem save_ckpt_keeps_last_three (steps : list nat)
  (self self' : Trainer.t) (d d' : Trainer.directory) :
  (length (Trainer.ckpt_paths self) <= 3)%nat ->
  Trainer.save_at_steps steps self d = Py.Returned (self', d') ->
  Trainer.ckpt_paths self'
  = Trainer.lastn 3 (Trainer.ckpt_paths self ++ steps)
  /\ (length (Trainer.ckpt_paths self') <= 3)%nat.
Proof.
  intros Hl E. pose proof (save_at_steps_paths steps _ _ _ _ Hl E) as P.
  split; [exact P|]. rewrite P, lastn_length. lia.
Qed.

Lemma save_ckpt_keeps_last_three_witness :
  Trainer.ckpt_paths
    (Trainer.set_ckpt_paths (Trainer.set_step TrainerDemo.trainer 50)
       [30; 40; 50]%nat)
  = Trainer.lastn 3
      (Trainer.ckpt_paths TrainerDemo.trainer ++ [10; 20; 30; 40; 50]%nat)
  /\ (length
        (Trainer.ckpt_paths
           (Trainer.set_ckpt_paths (Trainer.set_step TrainerDemo.trainer 50)
              [30; 40; 50]%nat)) <= 3)%nat.
Proof.
  apply (save_ckpt_keeps_last_three [10; 20; 30; 40; 50]%nat
           TrainerDemo.trainer _ [] [50; 40; 30]%nat).
  - simpl. lia.
  - reflexivity.
Defined.

Section CheckpointFiles.

Lemma increasing_tail (a : nat) (l : list nat) :
  Trainer.increasing (a :: l) = true -> Trainer.increasing l = true.
Proof.
  destruct l as [|b l]; [reflexivity|]. cbn [Trainer.increasing].
  intros H. apply andb_true_iff in H. apply H.
Qed.

Lemma increasing_head_lt (l : list nat) :
  forall a x, Trainer.increasing (a :: l) = true -> In x l -> (a < x)%nat.
Proof.
  induction l as [|b l IH]; intros a x H Hx; [destruct Hx|].
  cbn [Trainer.increasing] in H. apply andb_true_iff in H.
  destruct H as [Hab H]. apply Nat.ltb_lt in Hab.
  destruct Hx as [<-|Hx]; [exact Hab|].
  specialize (IH b x H Hx). lia.
Qed.

(** The invariant of the checkpoint files: the kept paths are distinct, at
    most three, on disk, and older than every step still to come. *)
Lemma save_at_steps_files (steps : list nat) :
  forall (self : Trainer.t) (d : Trainer.directory),
    Trainer.increasing steps = true ->
    (length (Trainer.ckpt_paths self) <= 3)%nat ->
    NoDup (Trainer.ckpt_paths self) ->
    (forall p, In p (Trainer.ckpt_paths self) -> In p d) ->
    (forall p s, In p (Trainer.ckpt_paths self) -> In s steps -> (p < s)%nat) ->
    exists self' d',
      Trainer.save_at_steps steps self d = Py.Returned (self', d') /\
      forall q, In q d'
                <-> In q (Trainer.lastn 3 (Trainer.ckpt_paths self ++ steps))
                    \/ (In q d /\ ~ In q (Trainer.ckpt_paths self)
                        /\ ~ In q steps).
Proof.
  induction steps as [|s steps IH]; intros self d Hinc Hl Hnd Hon Hlt.
  - exists self, d. split; [reflexivity|]. intros q.
    rewrite app_nil_r, lastn_short by exact Hl.
    split; [|intros [H|[H _]]; auto].
    intros H. destruct (in_dec Nat.eq_dec q (Trainer.ckpt_paths self)); auto.
  - cbn [Trainer.save_at_steps].
    pose proof (increasing_tail _ _ Hinc) as Hinc'.
    assert (Hs : forall x, In x steps -> (s < x)%nat)
      by (intros x; apply increasing_head_lt; exact Hinc).
    assert (HsP : ~ In s (Trainer.ckpt_paths self)).
    { intros H. specialize (Hlt s s H (or_introl eq_refl)). lia. }
    unfold Trainer.save_ckpt. cbv zeta.
    cbn [Trainer.set_step Trainer.step Trainer.ckpt_paths].
    set (P := Trainer.ckpt_paths self) in *.
    set (d1 := Trainer.torch_save s d).
    assert (Hd1 : forall q, In q d1 <-> q = s \/ In q d)
      by (intros q; apply torch_save_In).
    destruct (Nat.ltb_spec 3 (length (P ++ [s]))) as [Hfull|Hroom].
    + (* the oldest path is popped and its file removed *)
      rewrite length_app in Hfull. simpl in Hfull.
      destruct P as [|p0 rest] eqn:EP; [simpl in Hfull; lia|].
      cbn [app].
      destruct (os_remove_spec p0 d1) as (d2 & Er & Hd2).
      { apply Hd1. right. apply Hon. now left. }
      rewrite Er.
      set (self1 := Trainer.set_ckpt_paths (Trainer.set_step self s)
                      (rest ++ [s])).
      inversion Hnd as [|? ? Hp0 Hnd']. subst.
      destruct (IH self1 d2 Hinc') as (self' & d' & Efin & Hfin).
      * subst self1. cbn [Trainer.set_ckpt_paths Trainer.ckpt_paths].
        rewrite length_app. simpl in *. lia.
      * subst self1. cbn [Trainer.set_ckpt_paths Trainer.ckpt_paths].
        apply NoDup_app_remove_l with (l := []). simpl.
        apply NoDup_app; [exact Hnd' | repeat constructor; auto |].
        intros x Hx [<-|[]]. apply HsP. now right.
      * subst self1. cbn [Trainer.set_ckpt_paths Trainer.ckpt_paths].
        intros p Hp. apply Hd2. apply in_app_or in Hp.
        destruct Hp as [Hp|[<-|[]]].
        -- split; [apply Hd1; right; apply Hon; now right|].
           intros ->. contradiction.
        -- split; [apply Hd1; now left|]. intros ->. apply HsP. now left.
      * subst self1. cbn [Trainer.set_ckpt_paths Trainer.ckpt_paths].
        intros p x Hp Hx. apply in_app_or in Hp.
        destruct Hp as [Hp|[<-|[]]].
        -- apply (Hlt p x); [now right | now right].
        -- now apply Hs.
      * exists self', d'. split; [exact Efin|]. intros q. rewrite Hfin.
        subst self1. cbn [Trainer.set_ckpt_paths Trainer.ckpt_paths].
        assert (EL : Trainer.lastn 3 (p0 :: rest ++ s :: steps)
                     = Trainer.lastn 3 ((rest ++ [s]) ++ steps)).
        { rewrite <- app_assoc. cbn [app].
          change (p0 :: rest ++ s :: steps)
            with ([p0] ++ (rest ++ s :: steps)).
          apply lastn_app_drop.
          rewrite length_app. simpl in *. lia. }
        cbn [app]. rewrite EL.
        rewrite Hd2, Hd1. rewrite in_app_iff. simpl.
        assert (Hp0s : p0 <> s) by (intros ->; apply HsP; now left).
        intuition (subst; try tauto; try congruence).
    + (* there is room: nothing is removed *)
      set (self1 := Trainer.set_ckpt_paths (Trainer.set_step self s)
                      (P ++ [s])).
      rewrite length_app in Hroom. simpl in Hroom.
      destruct (IH self1 d1 Hinc') as (self' & d' & Efin & Hfin).
      * subst self1. cbn [Trainer.set_ckpt_paths Trainer.ckpt_paths].
        rewrite length_app. simpl. lia.
      * subst self1. cbn [Trainer.set_ckpt_paths Trainer.ckpt_paths].
        apply NoDup_app; [exact Hnd | repeat constructor; auto |].
        intros x Hx [<-|[]]. contradiction.
      * subst self1. cbn [Trainer.set_ckpt_paths Trainer.ckpt_paths].
        intros p Hp. apply Hd1. apply in_app_or in Hp.
        destruct Hp as [Hp|[<-|[]]]; [right; now apply Hon | now left].
      * subst self1. cbn [Trainer.set_ckpt_paths Trainer.ckpt_paths].
        intros p x Hp Hx. apply in_app_or in Hp.
        destruct Hp as [Hp|[<-|[]]].
        -- apply (Hlt p x); [exact Hp | now right].
        -- now apply Hs.
      * exists self', d'. split; [exact Efin|]. intros q. rewrite Hfin.
        subst self1. cbn [Trainer.set_ckpt_paths Trainer.ckpt_paths].
        rewrite <- app_assoc. cbn [app]. rewrite Hd1, in_app_iff. simpl.
        intuition (subst; try tauto; try congruence).
Qed.

End CheckpointFiles.

(** X4.  When a trainer that has kept no checkpoint yet saves at strictly
    increasing steps, no call fails, and afterwards the checkpoint files of
    those steps that are still on disk are exactly those of the last three
    steps: every older one has been removed, and files that were in the
    directory for other steps are left alone. *)
Theorem save_ckpt_files_are_last_three (steps : list nat) (self : Trainer.t)
  (d : Trainer.directory) :
  Trainer.ckpt_paths self = [] ->
  Trainer.increasing steps = true ->
  exists self' d',
    Trainer.save_at_steps steps self d = Py.Returned (self', d') /\
    Trainer.ckpt_paths self' = Trainer.lastn 3 steps /\
    forall q, In q d'
              <-> In q (Trainer.lastn 3 steps) \/ (In q d /\ ~ In q steps).
Proof.
  intros E Hinc.
  destruct (save_at_steps_files steps self d Hinc) as (self' & d' & R & H).
  - rewrite E. simpl. lia.
  - rewrite E. constructor.
  - rewrite E. intros p [].
  - rewrite E. intros p s [].
  - exists self', d'. split; [exact R|]. split.
    + rewrite (save_at_steps_paths steps self self' d d'); [|rewrite E; simpl; lia|exact R].
      now rewrite E.
    + intros q. rewrite H, E. simpl. tauto.
Qed.

Lemma save_ckpt_files_are_last_three_witness :
  exists self' d',
    Trainer.save_at_steps [10; 20; 30; 40; 50]%nat TrainerDemo.trainer
      [7; 20]%nat = Py.Returned (self', d') /\
    Trainer.ckpt_paths self' = Trainer.lastn 3 [10; 20; 30; 40; 50]%nat /\
    forall q, In q d'
              <-> In q (Trainer.lastn 3 [10; 20; 30; 40; 50]%nat)
                  \/ (In q [7; 20]%nat /\ ~ In q [10; 20; 30; 40; 50]%nat).
Proof.
  apply (save_ckpt_files_are_last_three [10; 20; 30; 40; 50]%nat
           TrainerDemo.trainer [7; 20]%nat); reflexivity.
Defined.

(** A step saved twice breaks this: after the saves at steps 5, 5, 5 and 5
    the file of step 5 is gone although its path is kept three times, and
    the save at step 6 fails when it removes it again. *)
Example save_ckpt_repeated_step :
  Trainer.save_at_steps [5; 5; 5; 5; 6]%nat TrainerDemo.trainer []
  = Py.Raised Py.FileNotFoundError.
Proof. reflexivity. Qed.

(** ** What the samplers record *)

Section EventCounts.
Import Torch Run.

Lemma events_queries (query : tensor4 -> Qc -> tensor4) (n : nat)
  (ev : tensor4 -> Qc -> event) (ts : list Qc) :
  (forall z t, Trace.is_query (ev z t) = true) ->
  forall z, Trace.count Trace.is_query (Euler.events query n ev ts z)
            = length ts.
Proof.
  intros Hq. unfold Trace.count.
  induction ts as [|t ts IH]; intros z; [reflexivity|].
  cbn [Euler.events filter]. rewrite Hq. cbn [Trace.is_query length].
  now rewrite IH.
Qed.

Lemma events_divisors (query : tensor4 -> Qc -> tensor4) (n : nat)
  (ev : tensor4 -> Qc -> event) (ts : list Qc) :
  (forall z t l, Trace.divisors (ev z t :: l) = Trace.divisors l) ->
  forall z, Trace.divisors (Euler.events query n ev ts z)
            = repeat n (length ts).
Proof.
  intros Hd. induction ts as [|t ts IH]; intros z; [reflexivity|].
  cbn [Euler.events]. rewrite Hd. cbn [Trace.divisors length repeat].
  now rewrite IH.
Qed.

Lemma events_no_code (p : event -> bool) (query : tensor4 -> Qc -> tensor4)
  (n : nat) (ev : tensor4 -> Qc -> event) (ts : list Qc) :
  (forall z t, p (ev z t) = false) -> p (DivInt n) = false ->
  forall z, Trace.count p (Euler.events query n ev ts z) = O.
Proof.
  intros Hq Hd. unfold Trace.count.
  induction ts as [|t ts IH]; intros z; [reflexivity|].
  cbn [Euler.events filter]. rewrite Hq, Hd. apply IH.
Qed.

Lemma count_app (p : event -> bool) (l l' : list event) :
  Trace.count p (l ++ l') = (Trace.count p l + Trace.count p l')%nat.
Proof. unfold Trace.count. now rewrite filter_app, length_app. Qed.

Lemma not_in_repeat_zero (n k : nat) : k = n -> ~ In O (repeat n k).
Proof.
  intros -> H. pose proof (repeat_spec _ _ _ H) as E. subst n. exact H.
Qed.

Lemma new_events_ok {B : Backend} {A : Type} (w : world B) (a : A)
  (g : gstate B) (evs : list event) :
  Claims.new_events w (Ok (a, {| rng := g; trace := trace w ++ evs |}))
  = evs.
Proof. unfold Claims.new_events. cbn [trace]. apply skipn_length_app. Qed.

End EventCounts.

(** X5.  On networks whose predictions have the shape of their input, a run
    of [sample] or of [cond_sample] with [sampling_steps = n] queries the
    network exactly [n] times and divides exactly [n] times,
    every time by [n]; so no run, for any step count, divides by zero. *)
Theorem samplers_query_and_divide_n_times (B : Torch.Backend)
  (self cself : RectifiedFlow.t) (batch_size : nat) (classes : Net.labels)
  (cfg_scale : Qc) (n : nat) (return_all_steps : bool) (w : Run.world B) :
  Net.keeps_shape (RectifiedFlow.net self) ->
  Net.cfg_keeps_shape (RectifiedFlow.net cself) ->
  RectifiedFlow.use_cond cself = true ->
  let e1 := Claims.new_events w
              (RectifiedFlow.sample self batch_size n return_all_steps w) in
  let e2 := Claims.new_events w
              (RectifiedFlow.cond_sample cself classes n cfg_scale
                 return_all_steps w) in
  (Trace.count Trace.is_query e1 = n /\ Trace.divisors e1 = repeat n n
   /\ ~ In O (Trace.divisors e1))
  /\ (Trace.count Trace.is_query e2 = n /\ Trace.divisors e2 = repeat n n
      /\ ~ In O (Trace.divisors e2)).
Proof.
  intros _ _ Hc e1 e2. subst e1 e2. split.
  - rewrite sample_run.
    destruct (Torch.randn B _ (Run.rng w)) as [z0 g]. cbv zeta.
    rewrite new_events_ok.
    rewrite events_queries, events_divisors, sample_times_length
      by reflexivity.
    split; [reflexivity|]. split; [reflexivity|].
    now apply not_in_repeat_zero.
  - rewrite cond_sample_run by exact Hc.
    destruct (Torch.randn B _ (Run.rng w)) as [z0 g]. cbv zeta.
    rewrite new_events_ok.
    rewrite events_queries, events_divisors, sample_times_length
      by reflexivity.
    split; [reflexivity|]. split; [reflexivity|].
    now apply not_in_repeat_zero.
Qed.

Lemma samplers_query_and_divide_n_times_witness :
  Trace.count Trace.is_query
    (Claims.new_events Demo.world0
       (RectifiedFlow.sample Demo.flow 2 3 false Demo.world0)) = 3%nat.
Proof.
  apply (samplers_query_and_divide_n_times Demo.backend Demo.flow
           Demo.cond_flow 2 [3%nat; 1%nat] 1 3 false Demo.world0).
  - exact (proj1 (demo_net_keeps_shape None)).
  - exact (proj2 (demo_net_keeps_shape (Some 10%nat))).
  - reflexivity.
Defined.

(** X6.  In [cond_sample], on a network whose guided prediction has the
    shape of its input, the labels and [cfg_scale] reach the network
    unchanged at every step: the k-th guided query is made with the given
    labels and scale, at the k-th time point repeated once per sample of the
    current state. *)
Theorem cond_sample_threads_labels_and_scale (B : Torch.Backend)
  (self : RectifiedFlow.t) (classes : Net.labels) (cfg_scale : Qc) (n : nat)
  (return_all_steps : bool) (w : Run.world B) :
  Net.cfg_keeps_shape (RectifiedFlow.net self) ->
  RectifiedFlow.use_cond self = true ->
  let z0 := fst (Torch.randn B (length classes, RectifiedFlow.channels self,
                                RectifiedFlow.image_size self,
                                RectifiedFlow.image_size self) (Run.rng w)) in
  let states :=
    Euler.states (Euler.guided (RectifiedFlow.net self) classes cfg_scale) n
      (Euler.sample_times n) z0 in
  Trace.guided_queries
    (Claims.new_events w
       (RectifiedFlow.cond_sample self classes n cfg_scale return_all_steps w))
  = map (fun p => (classes, cfg_scale,
                   Net.T1 (Torch.repeat0 (snd p) (length (fst p))),
                   length (fst p)))
      (combine states (Euler.sample_times n)).
Proof.
  intros _ Hc z0 states. subst z0 states.
  rewrite cond_sample_run by exact Hc.
  destruct (Torch.randn B _ (Run.rng w)) as [z0 g]. cbv zeta. simpl fst.
  rewrite new_events_ok.
  generalize (Euler.sample_times n) as ts. intros ts. revert z0.
  induction ts as [|t ts IH]; intros z0; [reflexivity|].
  cbn [Euler.events Euler.states combine map Trace.guided_queries
       Euler.guided_event fst snd].
  now rewrite IH.
Qed.

Lemma cond_sample_threads_labels_and_scale_witness :
  length
    (Trace.guided_queries
       (Claims.new_events Demo.world0
          (RectifiedFlow.cond_sample Demo.cond_flow [3%nat; 1%nat] 3
             (Demo.q 5 4) false Demo.world0))) = 3%nat.
Proof.
  rewrite (cond_sample_threads_labels_and_scale Demo.backend Demo.cond_flow
             [3%nat; 1%nat] (Demo.q 5 4) 3 false Demo.world0
             (proj2 (demo_net_keeps_shape (Some 10%nat))) eq_refl).
  reflexivity.
Defined.

(** X7.  On networks whose predictions have the shape of their input (and,
    in the latent model, a decoder whose output shape is determined by that
    of its input), [return_all_steps] changes neither the images a sampler
    returns nor the state it leaves the generator in; in the pixel-space model it does
    not change the recorded events either, in the latent model it adds one
    [decode] per recorded state.  With the flag the latent samplers decode
    [sampling_steps + 2] times (the integrated state twice), without it
    once. *)
Theorem return_all_steps_only_adds_trajectory (B : Torch.Backend)
  (self cself : RectifiedFlow.t) (lself clself : LatentRectifiedFlow.t B)
  (batch_size : nat) (classes : Net.labels) (cfg_scale : Qc) (n : nat)
  (w : Run.world B) :
  Net.keeps_shape (RectifiedFlow.net self) ->
  Net.cfg_keeps_shape (RectifiedFlow.net cself) ->
  Net.keeps_shape (RectifiedFlow.net (LatentRectifiedFlow.base lself)) ->
  decode_respects_shape (LatentRectifiedFlow.vae lself) ->
  Net.cfg_keeps_shape (RectifiedFlow.net (LatentRectifiedFlow.base clself)) ->
  decode_respects_shape (LatentRectifiedFlow.vae clself) ->
  RectifiedFlow.use_cond cself = true ->
  RectifiedFlow.use_cond (LatentRectifiedFlow.base clself) = true ->
  let count_decodes o := Trace.count Trace.is_decode (Claims.new_events w o) in
  (Trace.same_images_and_generator
     (RectifiedFlow.sample self batch_size n true w)
     (RectifiedFlow.sample self batch_size n false w)
   /\ Claims.new_events w (RectifiedFlow.sample self batch_size n true w)
      = Claims.new_events w (RectifiedFlow.sample self batch_size n false w))
  /\ (Trace.same_images_and_generator
        (RectifiedFlow.cond_sample cself classes n cfg_scale true w)
        (RectifiedFlow.cond_sample cself classes n cfg_scale false w)
      /\ Claims.new_events w
           (RectifiedFlow.cond_sample cself classes n cfg_scale true w)
         = Claims.new_events w
             (RectifiedFlow.cond_sample cself classes n cfg_scale false w))
  /\ (Trace.same_images_and_generator
        (LatentRectifiedFlow.sample lself batch_size n true w)
        (LatentRectifiedFlow.sample lself batch_size n false w)
      /\ count_decodes (LatentRectifiedFlow.sample lself batch_size n true w)
         = (n + 2)%nat
      /\ count_decodes (LatentRectifiedFlow.sample lself batch_size n false w)
         = 1%nat)
  /\ (Trace.same_images_and_generator
        (LatentRectifiedFlow.cond_sample clself classes n cfg_scale true w)
        (LatentRectifiedFlow.cond_sample clself classes n cfg_scale false w)
      /\ count_decodes
           (LatentRectifiedFlow.cond_sample clself classes n cfg_scale true w)
         = (n + 2)%nat
      /\ count_decodes
           (LatentRectifiedFlow.cond_sample clself classes n cfg_scale false w)
         = 1%nat).
Proof.
  intros _ _ _ _ _ _ Hc Hcl count_decodes. subst count_decodes. cbv beta.
  assert (D : forall l : list Torch.tensor4,
             Trace.count Trace.is_decode (map Latent.decode_event l)
             = length l).
  { intros l. unfold Trace.count. induction l as [|x l IH]; [reflexivity|].
    simpl. now rewrite IH. }
  split; [|split; [|split]].
  - rewrite !sample_run.
    destruct (Torch.randn B _ (Run.rng w)) as [z0 g]. cbv zeta.
    split; [|now rewrite !new_events_ok].
    unfold Trace.same_images_and_generator.
    do 4 eexists. split; [reflexivity|]. split; [reflexivity|].
    split; reflexivity.
  - rewrite !cond_sample_run by exact Hc.
    destruct (Torch.randn B _ (Run.rng w)) as [z0 g]. cbv zeta.
    split; [|now rewrite !new_events_ok].
    unfold Trace.same_images_and_generator.
    do 4 eexists. split; [reflexivity|]. split; [reflexivity|].
    split; reflexivity.
  - rewrite !latent_sample_run. cbv zeta.
    destruct (Torch.randn B _ (Run.rng w)) as [z0 g].
    split; [|split].
    + unfold Trace.same_images_and_generator.
      do 4 eexists. split; [reflexivity|]. split; [reflexivity|].
      split; reflexivity.
    + rewrite new_events_ok, count_app.
      rewrite (events_no_code Trace.is_decode) by reflexivity.
      unfold Latent.decode_events. unfold Trace.count at 1.
      cbn [filter Latent.decode_event Trace.is_decode length].
      fold (Trace.count Trace.is_decode
              (map Latent.decode_event
                 (Euler.states
                    (Euler.plain
                       (RectifiedFlow.net (LatentRectifiedFlow.base lself)))
                    n (Euler.sample_times n) z0))).
      rewrite D, states_length, sample_times_length. lia.
    + rewrite new_events_ok, count_app.
      rewrite (events_no_code Trace.is_decode) by reflexivity.
      reflexivity.
  - rewrite !latent_cond_sample_run by exact Hcl. cbv zeta.
    destruct (Torch.randn B _ (Run.rng w)) as [z0 g].
    split; [|split].
    + unfold Trace.same_images_and_generator.
      do 4 eexists. split; [reflexivity|]. split; [reflexivity|].
      split; reflexivity.
    + rewrite new_events_ok, count_app.
      rewrite (events_no_code Trace.is_decode) by reflexivity.
      unfold Latent.decode_events. unfold Trace.count at 1.
      cbn [filter Latent.decode_event Trace.is_decode length].
      fold (Trace.count Trace.is_decode
              (map Latent.decode_event
                 (Euler.states
                    (Euler.guided
                       (RectifiedFlow.net (LatentRectifiedFlow.base clself))
                       classes cfg_scale)
                    n (Euler.sample_times n) z0))).
      rewrite D, states_length, sample_times_length. lia.
    + rewrite new_events_ok, count_app.
      rewrite (events_no_code Trace.is_decode) by reflexivity.
      reflexivity.
Qed.

Lemma return_all_steps_only_adds_trajectory_witness :
  Trace.count Trace.is_decode
    (Claims.new_events Demo.world0
       (LatentRectifiedFlow.sample Demo.latent_flow 2 3 true Demo.world0))
  = (3 + 2)%nat.
Proof.
  apply (return_all_steps_only_adds_trajectory Demo.backend Demo.flow
           Demo.cond_flow Demo.latent_flow Demo.cond_latent_flow 2
           [3%nat; 1%nat] 1 3 Demo.world0
           (proj1 (demo_net_keeps_shape None))
           (proj2 (demo_net_keeps_shape (Some 10%nat)))
           (proj1 (demo_net_keeps_shape None)) demo_vae_respects_shape
           (proj2 (demo_net_keeps_shape (Some 10%nat)))
           demo_vae_respects_shape eq_refl eq_refl).
Defined.

(** ** The shapes of the samples *)

Section Shapes.
Import Torch.

Lemma forallb_same_len {A C : Type} (p : A -> C -> bool) (Q : C -> bool)
  (Q' : A -> bool) (l : list A) :
  (forall a c, p a c = true -> Q c = true -> Q' a = true) ->
  forall l', same_len p l l' = true -> forallb Q l' = true ->
    forallb Q' l = true.
Proof.
  intros H. induction l as [|a l IH]; intros [|c l'] S F; simpl in *;
    try discriminate; [reflexivity|].
  apply andb_true_iff in S. destruct S as [S1 S2].
  apply andb_true_iff in F. destruct F as [F1 F2].
  now rewrite (H _ _ S1 F1), (IH _ S2 F2).
Qed.

(** A tensor of the shape of a tensor of shape [s] has shape [s]. *)
Lemma has_shape_of_same_shape (s : nat * nat * nat * nat) (x y : tensor4) :
  same_shape x y = true -> has_shape s y = true -> has_shape s x = true.
Proof.
  destruct s as [[[b c] h] w]. unfold same_shape, has_shape.
  intros S H. apply andb_true_iff in H. destruct H as [L F].
  apply andb_true_iff. split.
  - now rewrite (same_len_length _ _ _ S).
  - revert S F. apply forallb_same_len. clear x y L.
    intros x y S H. unfold has_shape3 in *.
    apply andb_true_iff in H. destruct H as [L F].
    apply andb_true_iff. split; [now rewrite (same_len_length _ _ _ S)|].
    revert S F. apply forallb_same_len. clear x y L.
    intros x y S H. unfold has_shape2 in *.
    apply andb_true_iff in H. destruct H as [L F].
    apply andb_true_iff. split; [now rewrite (same_len_length _ _ _ S)|].
    revert S F. apply forallb_same_len. clear x y L.
    intros x y S H. unfold has_shape1 in *.
    now rewrite (same_len_length _ _ _ S).
Qed.

(** When every prediction has the shape of the state it is made for, every
    state of the integration has the shape of the initial one. *)
Lemma states_same_shape (query : tensor4 -> Qc -> tensor4) (n : nat)
  (ts : list Qc) :
  (forall z t, same_shape (query z t) z = true) ->
  forall z, Forall (fun s => same_shape s z = true)
              (Euler.states query n ts z).
Proof.
  intros Hq. induction ts as [|t ts IH]; intros z.
  - repeat constructor. apply same_shape_refl.
  - change (Euler.states query n (t :: ts) z)
      with (z :: Euler.states query n ts (Euler.step query n z t)).
    constructor; [apply same_shape_refl|].
    assert (S1 : same_shape (Euler.step query n z t) z = true).
    { unfold Euler.step, sub. apply same_shape_zip4.
      apply same_shape_sym. unfold div_scalar.
      apply same_shape_trans with (1 := same_shape_map4 _ _). apply Hq. }
    eapply Forall_impl; [|apply IH].
    intros s Hs. cbv beta in Hs. exact (same_shape_trans _ _ _ Hs S1).
Qed.

Lemma final_in_states (query : tensor4 -> Qc -> tensor4) (n : nat)
  (ts : list Qc) :
  forall z, In (Euler.final query n ts z) (Euler.states query n ts z).
Proof.
  induction ts as [|t ts IH]; intros z; [now left|].
  change (Euler.states query n (t :: ts) z)
    with (z :: Euler.states query n ts (Euler.step query n z t)).
  right. apply IH.
Qed.

Lemma to_image_shape (z : tensor4) : same_shape (Euler.to_image z) z = true.
Proof.
  unfold Euler.to_image, Utils.unnormalize_to_0_1, clip.
  apply same_shape_trans with (1 := same_shape_map4 _ _).
  apply same_shape_map4.
Qed.

End Shapes.

(** X9.  When the predictions of the network have the shape of the state
    they are made for, the images [sample] and [cond_sample] return have the
    shape (batch, channels, image_size, image_size), and so has every
    element of the trajectory; all their entries lie in [0,1]. *)
Theorem samplers_return_images_of_the_configured_shape (B : Torch.Backend)
  (self cself : RectifiedFlow.t) (batch_size : nat) (classes : Net.labels)
  (cfg_scale : Qc) (n : nat) (return_all_steps : bool) (w : Run.world B) :
  (forall z t c,
      Torch.same_shape (Net.call (RectifiedFlow.net self) z t c) z = true) ->
  RectifiedFlow.use_cond cself = true ->
  (forall z t y s,
      Torch.same_shape
        (Net.forward_with_cfg (RectifiedFlow.net cself) z t y s) z = true) ->
  let good (shape : nat * nat * nat * nat)
        (o : Run.outcome (sample_output * Run.world B)) :=
    exists out w',
      o = Run.Ok (out, w') /\
      Torch.has_shape shape (images_of out) = true /\
      Forall (fun v => 0 <= v /\ v <= 1) (Torch.flatten4 (images_of out)) /\
      forall frames, steps_of out = Some frames ->
        Forall (fun f => Torch.has_shape shape f = true
                         /\ Forall (fun v => 0 <= v /\ v <= 1)
                              (Torch.flatten4 f)) frames in
  good (batch_size, RectifiedFlow.channels self,
        RectifiedFlow.image_size self, RectifiedFlow.image_size self)
    (RectifiedFlow.sample self batch_size n return_all_steps w)
  /\ good (length classes, RectifiedFlow.channels cself,
           RectifiedFlow.image_size cself, RectifiedFlow.image_size cself)
       (RectifiedFlow.cond_sample cself classes n cfg_scale
          return_all_steps w).
Proof.
  intros Hnet Hc Hcfg good.
  assert (G : forall (query : Torch.tensor4 -> Qc -> Torch.tensor4) shape z0
                     g (evs : list Run.event),
             (forall z t, Torch.same_shape (query z t) z = true) ->
             Torch.has_shape shape z0 = true ->
             good shape
               (Run.Ok (result_of return_all_steps
                          (Euler.to_image
                             (Euler.final query n (Euler.sample_times n) z0))
                          (map Euler.to_image
                             (Euler.states query n (Euler.sample_times n) z0)),
                        {| Run.rng := g; Run.trace := evs |}))).
  { intros query shape z0 g evs Hq Hz. subst good. cbv beta.
    pose proof (states_same_shape query n (Euler.sample_times n) Hq z0) as SS.
    assert (F : forall s, In s (Euler.states query n (Euler.sample_times n) z0)
                          -> Torch.has_shape shape (Euler.to_image s) = true).
    { intros s Hs. rewrite Forall_forall in SS.
      apply (has_shape_of_same_shape shape _ z0); [|exact Hz].
      apply same_shape_trans with (1 := to_image_shape s). now apply SS. }
    do 2 eexists. split; [reflexivity|]. rewrite images_of_result.
    split; [|split].
    - apply F. apply final_in_states.
    - apply to_image_range.
    - intros frames Hf. destruct return_all_steps; [|discriminate Hf].
      injection Hf as <-. apply Forall_forall. intros f Hin.
      apply in_map_iff in Hin. destruct Hin as (s & <- & Hs).
      split; [now apply F | apply to_image_range]. }
  split.
  - rewrite sample_run.
    pose proof (randn_shape B
                  (batch_size, RectifiedFlow.channels self,
                   RectifiedFlow.image_size self,
                   RectifiedFlow.image_size self) (Run.rng w)) as Hz.
    destruct (Torch.randn B _ (Run.rng w)) as [z0 g]. cbv zeta.
    apply G; [|exact Hz]. intros z t. apply Hnet.
  - rewrite cond_sample_run by exact Hc.
    pose proof (randn_shape B
                  (length classes, RectifiedFlow.channels cself,
                   RectifiedFlow.image_size cself,
                   RectifiedFlow.image_size cself) (Run.rng w)) as Hz.
    destruct (Torch.randn B _ (Run.rng w)) as [z0 g]. cbv zeta.
    apply G; [|exact Hz]. intros z t. apply Hcfg.
Qed.

Lemma samplers_return_images_of_the_configured_shape_witness :
  exists out w',
    RectifiedFlow.sample Demo.flow 2 3 true Demo.world0 = Run.Ok (out, w') /\
    Torch.has_shape (2%nat, 1%nat, 2%nat, 2%nat) (images_of out) = true.
Proof.
  destruct (proj1 (samplers_return_images_of_the_configured_shape
                     Demo.backend Demo.flow Demo.cond_flow 2 [3%nat; 1%nat]
                     1 3 true Demo.world0
                     (proj1 (demo_net_keeps_shape None)) eq_refl
                     (proj2 (demo_net_keeps_shape (Some 10%nat)))))
    as (out & w' & E & Hs & _).
  exists out, w'. split; [exact E | exact Hs].
Defined.

(** ** The loss of the latent model *)

Section LatentLoss.
Import Torch Run Calls.
Context {B : Backend}.

Lemma interpolate_entry_any (t : tensor1) (x z : tensor4) (b c h w : nat) :
  length t = length x -> same_shape z x = true ->
  Loss.in_range x b c h w ->
  get (Loss.interpolate t x z) b c h w
  = (1 - nth b t 0) * get x b c h w + nth b t 0 * get z b c h w.
Proof.
  intros Ht Sz Hx.
  assert (Hz : Loss.in_range z b c h w)
    by (apply (same_shape_in_range x z); [now apply same_shape_sym | exact Hx]).
  assert (Hb : (b < length t)%nat) by (rewrite Ht; apply Hx).
  unfold Loss.interpolate, add.
  rewrite get_zip4.
  - rewrite !get_mul_b111; try assumption.
    + unfold rsub1. rewrite (nth_map_in _ t 0 0) by exact Hb. reflexivity.
    + unfold rsub1. now rewrite length_map.
  - apply in_range_mul_b111; [|exact Hx]. unfold rsub1. now rewrite length_map.
  - now apply in_range_mul_b111.
Qed.

Lemma latent_forward_run (self : LatentRectifiedFlow.t B) (x : tensor4)
  (c : option Net.labels) (w : world B) :
  (RectifiedFlow.use_cond (LatentRectifiedFlow.base self) = true ->
   c <> None) ->
  LatentRectifiedFlow.forward self x c w
  = let (t, g1) :=
      Loss.times B
        (RectifiedFlow.logit_normal_sampling_t (LatentRectifiedFlow.base self))
        (length x) (rng w) in
    let xn := Utils.normalize_to_neg1_1 x in
    let (l, g2) := encode_sample (LatentRectifiedFlow.vae self) xn g1 in
    let xe := mul_scalar l LatentRectifiedFlow.scale in
    let (z, g3) := randn_like B xe g2 in
    let z_t := Loss.interpolate t xe z in
    Ok (mse_loss (sub z xe)
          (Net.call (RectifiedFlow.net (LatentRectifiedFlow.base self)) z_t
             (Net.T1 t) c),
        {| rng := g3;
           trace := trace w ++ [Encode xn; NetCall z_t (Net.T1 t) c] |}).
Proof.
  intros Hadm. unfold LatentRectifiedFlow.forward. unfold bind at 1.
  assert (G : (if RectifiedFlow.use_cond (LatentRectifiedFlow.base self)
               then assert_ (RectifiedFlow.is_not_None c)
                      "Conditional model requires class labels"
               else ret tt) w = Ok (tt, w)).
  { destruct (RectifiedFlow.use_cond (LatentRectifiedFlow.base self));
      [|reflexivity].
    destruct c; [reflexivity|]. now destruct Hadm. }
  rewrite G. clear G. unfold bind at 1. unfold Loss.times.
  destruct (RectifiedFlow.logit_normal_sampling_t
              (LatentRectifiedFlow.base self)).
  - unfold bind at 1. unfold draw at 1.
    destruct (randn1 B (length x) (rng w)) as [r g1]. unfold ret at 1.
    cbv zeta. unfold bind at 1. unfold LatentRectifiedFlow.encode at 1.
    unfold bind at 1. unfold call_encode at 1. unfold bind at 1.
    unfold emit at 1. unfold draw at 1. cbn [rng trace].
    destruct (encode_sample (LatentRectifiedFlow.vae self) _ g1) as [l g2].
    unfold ret at 1. unfold bind at 1. unfold draw at 1. cbn [rng trace].
    destruct (randn_like B _ g2) as [z g3].
    unfold bind at 1. rewrite call_net_run. cbn [rng trace].
    rewrite <- app_assoc. reflexivity.
  - unfold draw at 1.
    destruct (rand1 B (length x) (rng w)) as [t g1].
    cbv zeta. unfold bind at 1. unfold LatentRectifiedFlow.encode at 1.
    unfold bind at 1. unfold call_encode at 1. unfold bind at 1.
    unfold emit at 1. unfold draw at 1. cbn [rng trace].
    destruct (encode_sample (LatentRectifiedFlow.vae self) _ g1) as [l g2].
    unfold ret at 1. unfold bind at 1. unfold draw at 1. cbn [rng trace].
    destruct (randn_like B _ g2) as [z g3].
    unfold bind at 1. rewrite call_net_run. cbn [rng trace].
    rewrite <- app_assoc. reflexivity.
Qed.

End LatentLoss.

(** X10.  Given labels whenever the network is conditional, a network whose
    prediction has the shape of its input, and an autoencoder that keeps the
    batch length, the latent [forward] draws the
    times, then encodes -- once, and the batch normalized to [-1,1] -- then
    draws noise of the shape of the scaled latent [xe = 0.13025 * latent];
    the network is queried once, at [(1 - t) * xe + t * z], and the loss is
    the mean-squared error between [z - xe] and its prediction.  Nothing is
    decoded. *)
Theorem latent_forward_computes_latent_loss (B : Torch.Backend)
  (self : LatentRectifiedFlow.t B) (x : Torch.tensor4)
  (c : option Net.labels) (w : Run.world B) :
  let logit :=
    RectifiedFlow.logit_normal_sampling_t (LatentRectifiedFlow.base self) in
  let t := fst (Loss.times B logit (length x) (Run.rng w)) in
  let g1 := snd (Loss.times B logit (length x) (Run.rng w)) in
  let xn := Utils.normalize_to_neg1_1 x in
  let l := fst (encode_sample (LatentRectifiedFlow.vae self) xn g1) in
  let g2 := snd (encode_sample (LatentRectifiedFlow.vae self) xn g1) in
  let xe := Torch.mul_scalar l LatentRectifiedFlow.scale in
  let z := fst (Torch.randn_like B xe g2) in
  Net.keeps_shape (RectifiedFlow.net (LatentRectifiedFlow.base self)) ->
  (RectifiedFlow.use_cond (LatentRectifiedFlow.base self) = true ->
   c <> None) ->
  length l = length x ->
  exists z_t w',
    LatentRectifiedFlow.forward self x c w
    = Run.Ok (Torch.mse_loss (Torch.sub z xe)
                (Net.call (RectifiedFlow.net (LatentRectifiedFlow.base self))
                   z_t (Net.T1 t) c), w') /\
    Claims.new_events w (LatentRectifiedFlow.forward self x c w)
    = [Run.Encode xn; Run.NetCall z_t (Net.T1 t) c] /\
    Torch.same_shape z xe = true /\
    (forall b k h v, Loss.in_range l b k h v ->
       Torch.get z_t b k h v
       = (1 - nth b t 0) * (Torch.get l b k h v * LatentRectifiedFlow.scale)
         + nth b t 0 * Torch.get z b k h v).
Proof.
  intros logit t g1 xn l g2 xe z _ Hadm Hlen.
  pose proof (latent_forward_run self x c w Hadm) as R.
  pose proof (times_length B logit (length x) (Run.rng w)) as Lt.
  pose proof (randn_like_shape B xe g2) as Sz.
  subst z xe g2 l xn g1 t. fold logit in R.
  destruct (Loss.times B logit (length x) (Run.rng w)) as [t g1].
  simpl fst in *. simpl snd in *. cbv zeta in R.
  destruct (encode_sample (LatentRectifiedFlow.vae self) _ g1) as [l g2].
  simpl fst in *. simpl snd in *.
  destruct (Torch.randn_like B _ g2) as [z g3]. simpl fst in *.
  do 2 eexists. split; [exact R|]. split; [|split; [exact Sz|]].
  - rewrite R. unfold Claims.new_events. cbn [Run.trace].
    apply skipn_length_app.
  - intros b k h v Hr.
    assert (Hxe : Loss.in_range (Torch.mul_scalar l LatentRectifiedFlow.scale)
                    b k h v) by (now apply in_range_map4).
    rewrite interpolate_entry_any; [| |exact Sz|exact Hxe].
    + unfold Torch.mul_scalar at 1. now rewrite get_map4.
    + unfold Torch.mul_scalar, Torch.map4. rewrite length_map. congruence.
Qed.

Lemma latent_forward_computes_latent_loss_witness :
  Claims.is_ok
    (LatentRectifiedFlow.forward Demo.cond_latent_flow Demo.batch
       (Some [3%nat]) Demo.world0) = true.
Proof.
  destruct (latent_forward_computes_latent_loss Demo.backend
              Demo.cond_latent_flow Demo.batch (Some [3%nat]) Demo.world0)
    as (z_t & w' & R & _).
  - exact (proj1 (demo_net_keeps_shape (Some 10%nat))).
  - intros _. discriminate.
  - reflexivity.
  - rewrite R. reflexivity.
Defined.

(** ** The label batches of [log_samples] *)

Section LabelBatches.

Lemma chunks_concat {A : Type} (s : nat) :
  forall (m : nat) (y : list A),
    (length y <= m * s)%nat ->
    concat (map (fun i => firstn s (skipn (i * s) y)) (seq 0 m)) = y.
Proof.
  induction m as [|m IH]; intros y Hl.
  - simpl in *. destruct y; [reflexivity | simpl in Hl; lia].
  - cbn [seq map concat]. rewrite <- seq_shift, map_map.
    cbn [Nat.mul skipn].
    rewrite (map_ext _ (fun i => firstn s (skipn (i * s) (skipn s y)))).
    + rewrite IH; [apply firstn_skipn|]. rewrite length_skipn. simpl in Hl. lia.
    + intros i. rewrite skipn_skipn. f_equal. f_equal. simpl. lia.
Qed.

Lemma ceil_times (len s : nat) :
  (0 < s)%nat -> (len <= (len + s - 1) / s * s)%nat.
Proof.
  intros Hs.
  pose proof (Nat.div_mod (len + s - 1) s ltac:(lia)) as E.
  pose proof (Nat.mod_upper_bound (len + s - 1) s ltac:(lia)) as R.
  nia.
Qed.

Lemma ceil_pred_times (len s i : nat) :
  (0 < s)%nat -> (0 < len)%nat -> (i < (len + s - 1) / s)%nat ->
  (i * s < len)%nat.
Proof.
  intros Hs Hl Hi.
  pose proof (Nat.div_mod (len + s - 1) s ltac:(lia)) as E.
  pose proof (Nat.mod_upper_bound (len + s - 1) s ltac:(lia)) as R.
  nia.
Qed.

Lemma repeat1_length (y : list nat) (n : nat) :
  length (Trainer.repeat1 y n) = (length y * n)%nat.
Proof.
  unfold Trainer.repeat1. induction n as [|n IH]; simpl; [lia|].
  rewrite length_app, IH. lia.
Qed.

(** The labels cycle through the classes. *)
Lemma repeat1_arange_nth (k n : nat) :
  forall i, (i < k * n)%nat ->
    nth i (Trainer.repeat1 (Trainer.arange k) n) O = (i mod k)%nat.
Proof.
  unfold Trainer.repeat1, Trainer.arange.
  induction n as [|n IH]; intros i Hi; [lia|].
  cbn [repeat concat].
  destruct (Nat.lt_ge_cases i k) as [Hlt|Hge].
  - rewrite app_nth1 by (now rewrite length_seq).
    rewrite seq_nth by exact Hlt. now rewrite Nat.mod_small.
  - rewrite app_nth2 by (now rewrite length_seq).
    rewrite length_seq, IH by nia.
    assert (Hk : k <> O) by lia.
    replace i with ((i - k) + 1 * k)%nat at 2 by lia.
    now rewrite Nat.Div0.mod_add.
Qed.

Lemma split_value (y : list nat) (s : Z) :
  (0 < s)%Z ->
  Trainer.split y s
  = Py.Returned
      (map (fun i => firstn (Z.to_nat s) (skipn (i * Z.to_nat s) y))
         (seq 0 (Nat.max ((length y + Z.to_nat s - 1) / Z.to_nat s) 1))).
Proof.
  intros Hs. unfold Trainer.split.
  destruct (Z.ltb_spec s 0) as [H|_]; [lia|]. cbv zeta.
  destruct (Nat.eqb_spec (Z.to_nat s) 0) as [H|_]; [lia|]. reflexivity.
Qed.

End LabelBatches.

(** X11.  For a positive [sample_batch_size], the label batches that
    [log_samples] builds are, put end to end, the labels 0 .. num_classes-1
    repeated [n_per_class] times, so the i-th sample has the label
    [i mod num_classes]; no batch is longer than [sample_batch_size], and
    none is empty when there is a label at all.  A batch size of 0 or less
    is refused when there are labels. *)
Theorem label_batches_cover_the_classes (self : Trainer.t)
  (num_classes : nat) :
  let labels :=
    Trainer.repeat1 (Trainer.arange num_classes) (Trainer.n_per_class self) in
  ((0 < Trainer.sample_batch_size self)%Z ->
   exists batches,
     Trainer.label_batches self num_classes = Py.Returned batches /\
     concat batches = labels /\
     length labels = (num_classes * Trainer.n_per_class self)%nat /\
     (forall i, (i < length labels)%nat ->
                nth i (concat batches) O = (i mod num_classes)%nat) /\
     Forall (fun b => (length b
                       <= Z.to_nat (Trainer.sample_batch_size self))%nat)
       batches /\
     (labels <> [] -> Forall (fun b => b <> []) batches))
  /\ ((Trainer.sample_batch_size self <= 0)%Z -> labels <> [] ->
      Trainer.label_batches self num_classes = Py.Raised Py.RuntimeError).
Proof.
  intros labels. split.
  - intros Hs. unfold Trainer.label_batches. fold labels.
    rewrite (split_value labels _ Hs).
    set (s := Z.to_nat (Trainer.sample_batch_size self)).
    assert (Hs' : (0 < s)%nat) by (subst s; lia).
    set (m := Nat.max ((length labels + s - 1) / s) 1).
    eexists. split; [reflexivity|].
    assert (C : concat (map (fun i => firstn s (skipn (i * s) labels))
                          (seq 0 m)) = labels).
    { apply chunks_concat. subst m.
      pose proof (ceil_times (length labels) s Hs'). nia. }
    assert (L : length labels
                = (num_classes * Trainer.n_per_class self)%nat).
    { subst labels. rewrite repeat1_length. unfold Trainer.arange.
      now rewrite length_seq. }
    split; [exact C|]. split; [exact L|]. split; [|split].
    + intros i Hi. rewrite C. subst labels.
      apply repeat1_arange_nth. now rewrite <- L.
    + apply Forall_forall. intros b Hb. apply in_map_iff in Hb.
      destruct Hb as (i & <- & _). apply firstn_le_length.
    + intros Hne. apply Forall_forall. intros b Hb. apply in_map_iff in Hb.
      destruct Hb as (i & <- & Hi). apply in_seq in Hi.
      assert (Hlen : (0 < length labels)%nat)
        by (destruct labels; [congruence | simpl; lia]).
      assert (Hi' : (i * s < length labels)%nat).
      { apply ceil_pred_times; [exact Hs' | exact Hlen |].
        subst m.
        assert ((1 <= (length labels + s - 1) / s)%nat)
          by (apply Nat.div_le_lower_bound; lia).
        lia. }
      intros E. apply (f_equal (@length nat)) in E.
      rewrite length_firstn, length_skipn in E. simpl in E. lia.
  - intros Hs Hne. unfold Trainer.label_batches, Trainer.split. fold labels.
    destruct (Z.ltb_spec (Trainer.sample_batch_size self) 0) as [_|Hz];
      [reflexivity|].
    cbv zeta. replace (Z.to_nat (Trainer.sample_batch_size self)) with O by lia.
    destruct labels as [|a l]; [congruence | reflexivity].
Qed.

Lemma label_batches_cover_the_classes_witness :
  exists batches,
    Trainer.label_batches TrainerDemo.trainer 10 = Py.Returned batches /\
    concat batches = Trainer.repeat1 (Trainer.arange 10) 2.
Proof.
  destruct (proj1 (label_batches_cover_the_classes TrainerDemo.trainer 10)
              eq_refl) as (batches & E & C & _).
  exists batches. split; [exact E | exact C].
Defined.

(** ** [fid_sample] *)

Section FidFacts.
Import Torch Run.
Context {B : Backend}.

Lemma py_new_events_ok {A : Type} (w : world B) (a : A) (g : gstate B)
  (evs : list event) :
  Py.new_events w
    (Py.of_outcome (Ok (a, {| rng := g; trace := trace w ++ evs |})))
  = evs.
Proof. unfold Py.new_events, Py.of_outcome. cbn [trace]. apply skipn_length_app. Qed.

End FidFacts.

(** X12.  On a network whose predictions have the shape of their input,
    [fid_sample], of the pixel-space and of the latent model, never fails
    the assertion of [cond_sample]: it asks for conditional samples
    only from a conditional network.  Unless the network has a class count
    of 0, for which drawing the labels is refused, it returns images alone
    after exactly 50 Euler steps: 50 queries and 50 divisions by 50. *)
Theorem fid_sample_runs_fifty_steps (B : Torch.Backend)
  (I : Fid.IntSource B) (net : Net.t) (channels image_size : nat)
  (logit_normal_sampling_t : bool) (vae : AutoencoderKL B)
  (batch_size : nat) (cfg_scale : Qc) (w : Run.world B) :
  let self :=
    RectifiedFlow.init net channels image_size logit_normal_sampling_t in
  let lself :=
    {| LatentRectifiedFlow.base := self; LatentRectifiedFlow.vae := vae |} in
  let fifty_steps (r : Py.result (sample_output * Run.world B)) :=
    exists z w',
      r = Py.Returned (Images z, w') /\
      Trace.count Trace.is_query (Py.new_events w r) = 50%nat /\
      Trace.divisors (Py.new_events w r) = repeat 50%nat 50 in
  Net.keeps_shape net -> Net.cfg_keeps_shape net ->
  match Net.num_classes net with
  | Some O =>
      Fid.fid_sample I self batch_size cfg_scale w
      = Py.Raised Py.RuntimeError
      /\ Fid.latent_fid_sample I lself batch_size cfg_scale w
         = Py.Raised Py.RuntimeError
  | _ =>
      fifty_steps (Fid.fid_sample I self batch_size cfg_scale w)
      /\ fifty_steps (Fid.latent_fid_sample I lself batch_size cfg_scale w)
  end.
Proof.
  intros self lself fifty_steps _ _.
  assert (P : forall (z : Torch.tensor4) (steps : Torch.tensor5)
                     (g : Torch.gstate B) (evs : list Run.event),
             Trace.count Trace.is_query evs = 50%nat ->
             Trace.divisors evs = repeat 50%nat 50 ->
             fifty_steps
               (Py.of_outcome
                  (Run.Ok (result_of false z steps,
                           {| Run.rng := g;
                              Run.trace := Run.trace w ++ evs |})))).
  { intros z steps g evs Hq Hd. subst fifty_steps. cbv beta.
    exists z. eexists. split; [reflexivity|].
    rewrite py_new_events_ok. split; assumption. }
  assert (Q1 : forall (query : Torch.tensor4 -> Qc -> Torch.tensor4)
                      (ev : Torch.tensor4 -> Qc -> Run.event) z0 tail,
             (forall z t, Trace.is_query (ev z t) = true) ->
             (forall z t l, Trace.divisors (ev z t :: l) = Trace.divisors l) ->
             Trace.count Trace.is_query tail = O ->
             Trace.divisors tail = [] ->
             Trace.count Trace.is_query
               (Euler.events query 50 ev (Euler.sample_times 50) z0 ++ tail)
             = 50%nat
             /\ Trace.divisors
                  (Euler.events query 50 ev (Euler.sample_times 50) z0 ++ tail)
                = repeat 50%nat 50).
  { intros query ev z0 tail Hq Hd Ht1 Ht2. split.
    - rewrite count_app, events_queries, sample_times_length, Ht1 by exact Hq.
      reflexivity.
    - assert (A : forall l l', Trace.divisors (l ++ l')
                               = Trace.divisors l ++ Trace.divisors l').
      { induction l as [|e l IH]; intros l'; [reflexivity|].
        destruct e; cbn [app Trace.divisors]; now rewrite IH. }
      rewrite A, events_divisors, sample_times_length, Ht2, app_nil_r
        by exact Hd.
      reflexivity. }
  assert (T : forall (ras : bool) z (l : list Torch.tensor4),
             Trace.count Trace.is_query (Latent.decode_events ras z l) = O
             /\ Trace.divisors (Latent.decode_events ras z l) = []).
  { intros ras z l. unfold Latent.decode_events. destruct ras.
    - split.
      + unfold Trace.count. cbn [filter Latent.decode_event Trace.is_query].
        induction l as [|x l IH]; [reflexivity | exact IH].
      + cbn [Trace.divisors Latent.decode_event].
        induction l as [|x l IH]; [reflexivity | exact IH].
    - split; reflexivity. }
  assert (U : RectifiedFlow.use_cond self
              = RectifiedFlow.is_not_None (Net.num_classes net))
    by reflexivity.
  unfold Fid.fid_sample, Fid.latent_fid_sample.
  cbn [LatentRectifiedFlow.base lself]. rewrite U.
  assert (N : RectifiedFlow.net self = net) by reflexivity. rewrite N.
  destruct (Net.num_classes net) as [[|k]|] eqn:E.
  all: cbn [RectifiedFlow.is_not_None].
  - split; reflexivity.
  - assert (Hc : RectifiedFlow.use_cond self = true) by exact U.
    unfold Py.bind, Fid.randint. cbn [Nat.leb].
    destruct (Torch.draws (Fid.next_randint I 0 (S k)) batch_size (Run.rng w))
      as [y g].
    unfold Py.lift. split.
    + rewrite cond_sample_run by exact Hc. cbn [Run.rng Run.trace].
      destruct (Torch.randn B _ g) as [z0 g']. cbv zeta.
      rewrite <- (app_nil_r (Euler.events _ _ _ _ _)).
      apply P; apply Q1; reflexivity.
    + rewrite latent_cond_sample_run by exact Hc. cbv zeta.
      cbn [Run.rng Run.trace].
      destruct (Torch.randn B _ g) as [z0 g'].
      apply P; apply Q1; try reflexivity; apply T.
  - unfold Py.lift. split.
    + rewrite sample_run.
      destruct (Torch.randn B _ (Run.rng w)) as [z0 g']. cbv zeta.
      rewrite <- (app_nil_r (Euler.events _ _ _ _ _)).
      apply P; apply Q1; reflexivity.
    + rewrite latent_sample_run. cbv zeta.
      destruct (Torch.randn B _ (Run.rng w)) as [z0 g'].
      apply P; apply Q1; try reflexivity; apply T.
Qed.

Lemma fid_sample_runs_fifty_steps_witness :
  exists z w',
    Fid.fid_sample TrainerDemo.int_source Demo.cond_flow 2 (Demo.q 5 4)
      Demo.world0
    = Py.Returned (Images z, w').
Proof.
  pose proof (fid_sample_runs_fifty_steps Demo.backend TrainerDemo.int_source
                (Demo.net (Some 10%nat)) 1 2 false Demo.doubling_vae 2
                (Demo.q 5 4) Demo.world0
                (proj1 (demo_net_keeps_shape (Some 10%nat)))
                (proj2 (demo_net_keeps_shape (Some 10%nat)))) as H.
  cbn [Net.num_classes Demo.net] in H.
  destruct H as [(z & w' & E & _) _].
  exists z, w'. exact E.
Defined.

(** ** The unconditional branch of [log_samples] *)

Section LogSamples.
Import Torch Run.
Context {B : Backend}.

(** Of a list that is not empty, [torch.cat] returns or raises a
    RuntimeError. *)
Lemma cat_raises_runtime_only {A : Type} (same : A -> A -> bool)
  (ts : list (list A)) :
  ts <> [] ->
  (exists l, Trainer.cat same ts = Py.Returned l)
  \/ Trainer.cat same ts = Py.Raised Py.RuntimeError.
Proof.
  intros Hne. unfold Trainer.cat. destruct ts as [|t ts]; [congruence|].
  destruct (concat (t :: ts)) as [|s0 l]; [left; eauto|].
  destruct (forallb (same s0) (s0 :: l)); [left; eauto | now right].
Qed.

(** Concatenation fails when some slice has another shape than the first. *)
Lemma cat_mismatch {A : Type} (same : A -> A -> bool) (f0 : A)
  (rest : list A) (ts : list (list A)) (f : A) :
  In f (concat ((f0 :: rest) :: ts)) -> same f0 f = false ->
  Trainer.cat same ((f0 :: rest) :: ts) = Py.Raised Py.RuntimeError.
Proof.
  intros Hin Hs. unfold Trainer.cat.
  change (concat ((f0 :: rest) :: ts)) with (f0 :: rest ++ concat ts) in *.
  cbv beta iota zeta.
  match goal with
  | |- (if ?c then _ else _) = _ => destruct c eqn:F; [|reflexivity]
  end.
  rewrite forallb_forall in F. rewrite (F f Hin) in Hs. discriminate Hs.
Qed.

(** The loop of [log_samples]: each group contributes its samples and its
    trajectory, whose first frame has as many images as the group. *)
Lemma log_samples_loop (self : Trainer.t) (groups : list Z) :
  Forall (fun g => (0 <= g)%Z) groups ->
  forall (samples : list tensor4) (each : list tensor5) (w : world B),
  exists (S : list tensor4) (E : list tensor5) (w' : world B),
    Trainer.for_each groups
      (fun _b '(samples, samples_each_step) =>
         if Z.ltb _b 0 then Py.raise Py.RuntimeError
         else
           out <~ Py.lift (RectifiedFlow.sample (Trainer.model self)
                             (Z.to_nat _b) (Trainer.sampling_steps self) true) ;;
           match out with
           | ImagesAndSteps _samples _samples_each_step =>
               Py.ret (samples ++ [_samples],
                       samples_each_step ++ [_samples_each_step])
           | Images _ => Py.raise Py.ValueError
           end)
      (samples, each) w
    = Py.Returned ((samples ++ S, each ++ E), w')
    /\ length S = length groups
    /\ Forall2 (fun g e => exists f rest, e = f :: rest
                                          /\ length f = Z.to_nat g) groups E.
Proof.
  induction 1 as [|g groups Hg _ IH]; intros samples each w.
  - exists [], [], w. split; [|split; [reflexivity | constructor]].
    cbn [Trainer.for_each]. unfold Py.ret. now rewrite !app_nil_r.
  - cbn [Trainer.for_each]. unfold Py.bind at 1.
    destruct (Z.ltb_spec g 0) as [Hneg|_]; [lia|].
    unfold Py.bind at 1. unfold Py.lift at 1.
    rewrite sample_run.
    pose proof (randn_shape B
                  (Z.to_nat g, RectifiedFlow.channels (Trainer.model self),
                   RectifiedFlow.image_size (Trainer.model self),
                   RectifiedFlow.image_size (Trainer.model self)) (rng w))
      as Hz.
    destruct (randn B _ (rng w)) as [z0 g']. cbv zeta. simpl fst in Hz.
    cbn [Py.of_outcome result_of]. unfold Py.ret at 1.
    match goal with
    | |- context [Trainer.for_each groups _ (samples ++ [?s], each ++ [?e]) ?w1] =>
        destruct (IH (samples ++ [s]) (each ++ [e]) w1)
          as (S & E & w' & R & LS & F);
        exists (s :: S), (e :: E), w'
    end.
    split; [|split].
    + rewrite <- !app_assoc in R. exact R.
    + cbn [length]. now rewrite LS.
    + constructor; [|exact F].
      rewrite <- states_head. cbn [map].
      do 2 eexists. split; [reflexivity|].
      unfold Euler.to_image, Utils.unnormalize_to_0_1, clip, map4.
      rewrite !length_map.
      unfold has_shape in Hz. apply andb_true_iff in Hz.
      destruct Hz as [Hz _]. now apply Nat.eqb_eq in Hz.
Qed.

End LogSamples.

(** X13.  The unconditional branch of [log_samples] fails whenever
    [sample_batch_size] is smaller than 100 and does not divide 100: the
    last group of samples is smaller than the others, and the trajectories,
    whose second dimension is the group size, cannot be concatenated along
    the first. *)
Theorem log_samples_fails_on_uneven_groups (B : Torch.Backend)
  (self : Trainer.t) (w : Run.world B) :
  (0 < Trainer.sample_batch_size self < 100)%Z ->
  (100 mod Trainer.sample_batch_size self <> 0)%Z ->
  Trainer.log_samples_else self w = Py.Raised Py.RuntimeError.
Proof.
  intros Hb Hr.
  set (bs := Trainer.sample_batch_size self) in *.
  pose proof (Z.mod_pos_bound 100 bs ltac:(lia)) as Hm.
  pose proof (Z.div_mod 100 bs ltac:(lia)) as Hdm.
  assert (Hq : (1 <= 100 / bs)%Z) by (apply Z.div_le_lower_bound; lia).
  unfold Trainer.log_samples_else. fold bs.
  unfold Py.bind at 1. unfold Py.pure at 1.
  rewrite (num_to_groups_value 100 bs) by lia.
  destruct (Z.ltb_spec 0 (100 mod bs)) as [_|H0]; [|lia].
  set (groups := repeat bs (Z.to_nat (100 / bs)) ++ [(100 mod bs)%Z]).
  assert (Hpos : Forall (fun g => (0 <= g)%Z) groups).
  { subst groups. apply Forall_app. split.
    - apply Forall_forall. intros g Hg. apply repeat_spec in Hg. lia.
    - repeat constructor. lia. }
  destruct (log_samples_loop self groups Hpos [] [] w)
    as (S & E & w' & R & LS & F).
  assert (HS : S <> []).
  { intros ->. subst groups. rewrite length_app in LS. cbn [length] in LS.
    lia. }
  unfold Py.bind at 1.
  match goal with
  | |- context [Trainer.for_each groups ?b ?s ?w0] =>
      replace (Trainer.for_each groups b s w0)
        with (Py.Returned (([] ++ S, [] ++ E), w')) by (symmetry; exact R)
  end.
  cbn [app]. unfold Py.bind at 1. unfold Py.pure at 1.
  destruct (cat_raises_runtime_only Trainer.same_shape3 S HS)
    as [[l ->]| ->]; [|reflexivity].
  unfold Py.bind at 1. unfold Py.pure at 1.
  assert (C : Trainer.cat Torch.same_shape E = Py.Raised Py.RuntimeError).
  { subst groups.
    destruct (Z.to_nat (100 / bs)) as [|k] eqn:Ek; [lia|].
    cbn [repeat app] in F.
    inversion F as [|g0 e0 gs E' H0 F']. subst.
    destruct H0 as (f0 & rest0 & -> & L0).
    apply Forall2_app_inv_l in F'.
    destruct F' as (E1 & E2 & _ & F2 & ->).
    inversion F2 as [|g1 e1 gs1 E3 H1 F3]. subst.
    inversion F3. subst.
    destruct H1 as (f1 & rest1 & -> & L1).
    apply (cat_mismatch _ f0 rest0 _ f1).
    - cbn [concat]. rewrite concat_app. cbn [concat].
      apply in_or_app. right. apply in_or_app. right. now left.
    - destruct (Torch.same_shape f0 f1) eqn:Sh; [|reflexivity].
      unfold Torch.same_shape in Sh.
      apply same_len_length in Sh. lia. }
  rewrite C. reflexivity.
Qed.

Lemma log_samples_fails_on_uneven_groups_witness :
  Trainer.log_samples_else TrainerDemo.trainer Demo.world0
  = Py.Raised Py.RuntimeError.
Proof.
  apply (log_samples_fails_on_uneven_groups Demo.backend TrainerDemo.trainer
           Demo.world0).
  - split; reflexivity.
  - discriminate.
Defined.

Section LogSamplesEven.
Import Torch Run.
Context {B : Backend}.

Lemma same_len_of_Forall {A : Type} (Q : A -> Prop) (p : A -> A -> bool)
  (l : list A) :
  (forall a b, Q a -> Q b -> p a b = true) ->
  forall l', length l = length l' -> Forall Q l -> Forall Q l' ->
    same_len p l l' = true.
Proof.
  intros H. induction l as [|a l IH]; intros [|b l'] E F F'; simpl in *;
    try discriminate; [reflexivity|].
  inversion F; inversion F'; subst.
  rewrite H by assumption. apply IH; [lia | assumption | assumption].
Qed.

Lemma forallb_Forall {A : Type} (q : A -> bool) (l : list A) :
  forallb q l = true <-> Forall (fun a => q a = true) l.
Proof. rewrite forallb_forall, Forall_forall. reflexivity. Qed.

(** Tensors with one declared shape have the same shape. *)
Lemma has_shape3_same (c h w : nat) (x y : tensor3) :
  has_shape3 c h w x = true -> has_shape3 c h w y = true ->
  Trainer.same_shape3 x y = true.
Proof.
  unfold has_shape3, Trainer.same_shape3. intros Hx Hy.
  apply andb_true_iff in Hx. destruct Hx as [Lx Fx].
  apply andb_true_iff in Hy. destruct Hy as [Ly Fy].
  apply Nat.eqb_eq in Lx, Ly. apply forallb_Forall in Fx, Fy.
  apply (same_len_of_Forall (fun m => has_shape2 h w m = true));
    [|congruence|assumption|assumption].
  clear. intros x y Hx Hy. unfold has_shape2 in *.
  apply andb_true_iff in Hx. destruct Hx as [Lx Fx].
  apply andb_true_iff in Hy. destruct Hy as [Ly Fy].
  apply Nat.eqb_eq in Lx, Ly. apply forallb_Forall in Fx, Fy.
  apply (same_len_of_Forall (fun r => has_shape1 w r = true));
    [|congruence|assumption|assumption].
  clear. intros x y Hx Hy. unfold has_shape1 in *.
  apply Nat.eqb_eq in Hx, Hy.
  apply (same_len_of_Forall (fun _ => True)); auto; try congruence;
    apply Forall_forall; auto.
Qed.

Lemma has_shape_same (s : nat * nat * nat * nat) (x y : tensor4) :
  has_shape s x = true -> has_shape s y = true -> same_shape x y = true.
Proof.
  destruct s as [[[b c] h] w]. unfold has_shape, same_shape. intros Hx Hy.
  apply andb_true_iff in Hx. destruct Hx as [Lx Fx].
  apply andb_true_iff in Hy. destruct Hy as [Ly Fy].
  apply Nat.eqb_eq in Lx, Ly. apply forallb_Forall in Fx, Fy.
  apply (same_len_of_Forall (fun m => has_shape3 c h w m = true));
    [|congruence|assumption|assumption].
  intros u v. apply has_shape3_same.
Qed.

Lemma cat_ok {A : Type} (same : A -> A -> bool) (Q : A -> Prop)
  (ts : list (list A)) :
  ts <> [] -> (forall a b, Q a -> Q b -> same a b = true) ->
  Forall Q (concat ts) ->
  Trainer.cat same ts = Py.Returned (concat ts).
Proof.
  intros Hne Hs F. unfold Trainer.cat.
  destruct ts as [|t ts]; [congruence|].
  destruct (concat (t :: ts)) as [|s0 l] eqn:E; [reflexivity|].
  assert (G : forallb (same s0) (s0 :: l) = true).
  { apply forallb_forall. intros a Ha. rewrite Forall_forall in F.
    apply Hs; apply F; [now left | exact Ha]. }
  now rewrite G.
Qed.

(** [sample] with the trajectory, on a network that keeps shapes. *)
Lemma sample_with_steps_shapes (self : RectifiedFlow.t) (b n : nat)
  (w : world B) :
  (forall z t c, same_shape (Net.call (RectifiedFlow.net self) z t c) z
                 = true) ->
  let shape := (b, RectifiedFlow.channels self,
                RectifiedFlow.image_size self,
                RectifiedFlow.image_size self) in
  exists s e w',
    RectifiedFlow.sample self b n true w = Ok (ImagesAndSteps s e, w') /\
    has_shape shape s = true /\
    length e = S n /\
    Forall (fun f => has_shape shape f = true) e.
Proof.
  intros Hnet shape. rewrite sample_run.
  pose proof (randn_shape B shape (rng w)) as Hz. subst shape.
  destruct (randn B _ (rng w)) as [z0 g]. cbv zeta. simpl fst in Hz.
  pose proof (states_same_shape (Euler.plain (RectifiedFlow.net self)) n
                (Euler.sample_times n)
                (fun z t => Hnet z (Net.T0 t) None) z0) as SS.
  rewrite Forall_forall in SS.
  assert (F : forall s,
             In s (Euler.states (Euler.plain (RectifiedFlow.net self)) n
                     (Euler.sample_times n) z0) ->
             has_shape (b, RectifiedFlow.channels self,
                        RectifiedFlow.image_size self,
                        RectifiedFlow.image_size self) (Euler.to_image s)
             = true).
  { intros s Hs. apply (has_shape_of_same_shape _ _ z0); [|exact Hz].
    apply same_shape_trans with (1 := to_image_shape s). now apply SS. }
  do 3 eexists. split; [reflexivity|]. split; [|split].
  - apply F, final_in_states.
  - now rewrite length_map, states_length, sample_times_length.
  - apply Forall_forall. intros f Hf. apply in_map_iff in Hf.
    destruct Hf as (s & <- & Hs). now apply F.
Qed.

Lemma log_samples_loop_even (self : Trainer.t) (b m : nat) :
  (forall z t c,
      same_shape (Net.call (RectifiedFlow.net (Trainer.model self)) z t c) z
      = true) ->
  let shape k := (k, RectifiedFlow.channels (Trainer.model self),
                  RectifiedFlow.image_size (Trainer.model self),
                  RectifiedFlow.image_size (Trainer.model self)) in
  forall (samples : list tensor4) (each : list tensor5) (w : world B),
  exists (S : list tensor4) (E : list tensor5) (w' : world B),
    Trainer.for_each (repeat (Z.of_nat b) m)
      (fun _b '(samples, samples_each_step) =>
         if Z.ltb _b 0 then Py.raise Py.RuntimeError
         else
           out <~ Py.lift (RectifiedFlow.sample (Trainer.model self)
                             (Z.to_nat _b) (Trainer.sampling_steps self) true) ;;
           match out with
           | ImagesAndSteps _samples _samples_each_step =>
               Py.ret (samples ++ [_samples],
                       samples_each_step ++ [_samples_each_step])
           | Images _ => Py.raise Py.ValueError
           end)
      (samples, each) w
    = Py.Returned ((samples ++ S, each ++ E), w')
    /\ length S = m /\ length E = m
    /\ Forall (fun s => has_shape (shape b) s = true) S
    /\ Forall (fun e => length e = Datatypes.S (Trainer.sampling_steps self)
                        /\ Forall (fun f => has_shape (shape b) f = true) e)
         E.
Proof.
  intros Hnet shape. induction m as [|m IH]; intros samples each w.
  - exists [], [], w. cbn [repeat Trainer.for_each]. unfold Py.ret.
    rewrite !app_nil_r. repeat split; constructor.
  - cbn [repeat Trainer.for_each]. unfold Py.bind at 1.
    destruct (Z.ltb_spec (Z.of_nat b) 0) as [Hneg|_]; [lia|].
    unfold Py.bind at 1. unfold Py.lift at 1. rewrite Nat2Z.id.
    destruct (sample_with_steps_shapes (Trainer.model self) b
                (Trainer.sampling_steps self) w Hnet)
      as (s & e & w1 & R & Hs & Le & Fe).
    rewrite R. cbn [Py.of_outcome]. unfold Py.ret at 1.
    destruct (IH (samples ++ [s]) (each ++ [e]) w1)
      as (S & E & w' & R' & LS & LE & FS & FE).
    exists (s :: S), (e :: E), w'.
    split; [rewrite <- !app_assoc in R'; exact R'|].
    split; [simpl; lia|]. split; [simpl; lia|].
    split; constructor; auto.
Qed.

Lemma concat_length_const {A : Type} (k : nat) (l : list (list A)) :
  Forall (fun x => length x = k) l -> length (concat l) = (length l * k)%nat.
Proof.
  induction 1 as [|x l Hx _ IH]; [reflexivity|].
  cbn [concat length]. rewrite length_app, Hx, IH. lia.
Qed.

Lemma Forall_concat_of {A : Type} (P : A -> Prop) (l : list (list A)) :
  Forall (fun x => Forall P x) l -> Forall P (concat l).
Proof.
  induction 1 as [|x l Hx _ IH]; [constructor|].
  cbn [concat]. apply Forall_app. now split.
Qed.

End LogSamplesEven.

(** X14.  When all the groups have one size [b] -- [sample_batch_size]
    divides 100, or is at least 100 -- and the network keeps shapes, the
    unconditional branch of [log_samples] gets 100 samples and, from the [m]
    groups, [m * (sampling_steps + 1)] trajectory frames of [b] images each:
    the trajectories of the groups follow one another along the first
    dimension. *)
Theorem log_samples_even_groups (B : Torch.Backend) (self : Trainer.t)
  (b m : nat) (w : Run.world B) :
  (forall z t c,
      Torch.same_shape
        (Net.call (RectifiedFlow.net (Trainer.model self)) z t c) z = true) ->
  (b * m = 100)%nat ->
  Trainer.sample_batch_size self = Z.of_nat b
  \/ (m = 1%nat /\ (100 < Trainer.sample_batch_size self)%Z) ->
  let shape k := (k, RectifiedFlow.channels (Trainer.model self),
                  RectifiedFlow.image_size (Trainer.model self),
                  RectifiedFlow.image_size (Trainer.model self)) in
  exists samples frames w',
    Trainer.log_samples_else self w = Py.Returned ((samples, frames), w') /\
    Torch.has_shape (shape 100%nat) samples = true /\
    length frames = (m * S (Trainer.sampling_steps self))%nat /\
    Forall (fun f => Torch.has_shape (shape b) f = true) frames.
Proof.
  intros Hnet Hbm Hbs shape.
  assert (Hb : (0 < b)%nat) by nia. assert (Hm : (0 < m)%nat) by nia.
  assert (G : Trainer.num_to_groups 100 (Trainer.sample_batch_size self)
              = Py.Returned (repeat (Z.of_nat b) m)).
  { destruct Hbs as [E|[-> Hbig]].
    - rewrite E, num_to_groups_value by lia.
      assert (Hd : (100 = Z.of_nat b * Z.of_nat m)%Z) by lia.
      assert (Hq : (100 / Z.of_nat b = Z.of_nat m)%Z).
      { symmetry. apply (Z.div_unique 100 (Z.of_nat b) (Z.of_nat m) 0); lia. }
      assert (Hr : (100 mod Z.of_nat b = 0)%Z).
      { symmetry. apply (Z.mod_unique 100 (Z.of_nat b) (Z.of_nat m) 0); lia. }
      rewrite Hq, Hr, Nat2Z.id. cbn [Z.ltb Z.compare]. now rewrite app_nil_r.
    - rewrite num_to_groups_value by lia.
      rewrite Z.div_small, Z.mod_small by lia.
      replace b with 100%nat by lia. reflexivity. }
  unfold Trainer.log_samples_else. unfold Py.bind at 1. unfold Py.pure at 1.
  rewrite G.
  destruct (log_samples_loop_even self b m Hnet [] [] w)
    as (Ss & E & w' & R & LS & LE & FS & FE).
  unfold Py.bind at 1.
  match goal with
  | |- context [Trainer.for_each (repeat (Z.of_nat b) m) ?f ?s ?w0] =>
      replace (Trainer.for_each (repeat (Z.of_nat b) m) f s w0)
        with (Py.Returned (([] ++ Ss, [] ++ E), w')) by (symmetry; exact R)
  end.
  cbn [app].
  assert (Sl : Forall (fun x : Torch.tensor4 => length x = b) Ss).
  { eapply Forall_impl; [|exact FS]. intros s Hs. cbv beta in Hs.
    unfold shape, Torch.has_shape in Hs. apply andb_true_iff in Hs.
    destruct Hs as [Hs _]. now apply Nat.eqb_eq in Hs. }
  assert (Si : Forall (fun x : Torch.tensor3 =>
                         Torch.has_shape3
                           (RectifiedFlow.channels (Trainer.model self))
                           (RectifiedFlow.image_size (Trainer.model self))
                           (RectifiedFlow.image_size (Trainer.model self)) x
                         = true) (concat Ss)).
  { apply Forall_concat_of. eapply Forall_impl; [|exact FS].
    intros s Hs. cbv beta in Hs. unfold shape, Torch.has_shape in Hs.
    apply andb_true_iff in Hs. destruct Hs as [_ Hs].
    now apply forallb_Forall in Hs. }
  assert (C1 : Trainer.cat Trainer.same_shape3 Ss = Py.Returned (concat Ss)).
  { apply (cat_ok _ _ Ss) with (3 := Si).
    - destruct Ss; [simpl in LS; lia | discriminate].
    - intros x y. apply has_shape3_same. }
  assert (Fi : Forall (fun f => Torch.has_shape (shape b) f = true)
                 (concat E)).
  { apply Forall_concat_of. eapply Forall_impl; [|exact FE].
    intros e He. apply He. }
  assert (C2 : Trainer.cat Torch.same_shape E = Py.Returned (concat E)).
  { apply (cat_ok _ _ E) with (3 := Fi).
    - destruct E; [simpl in LE; lia | discriminate].
    - intros x y. apply has_shape_same. }
  unfold Py.bind at 1. unfold Py.pure at 1. rewrite C1.
  unfold Py.bind at 1. unfold Py.pure at 1. rewrite C2.
  unfold Py.ret. do 3 eexists. split; [reflexivity|].
  split; [|split; [|exact Fi]].
  - unfold shape, Torch.has_shape. apply andb_true_iff. split.
    + apply Nat.eqb_eq. rewrite (concat_length_const b) by exact Sl. lia.
    + now apply forallb_Forall.
  - rewrite (concat_length_const (S (Trainer.sampling_steps self))).
    + now rewrite LE.
    + eapply Forall_impl; [|exact FE]. intros e He. apply He.
Qed.

Lemma log_samples_even_groups_witness :
  exists samples frames w',
    Trainer.log_samples_else TrainerDemo.even_trainer Demo.world0
    = Py.Returned ((samples, frames), w') /\
    Torch.has_shape (100%nat, 1%nat, 2%nat, 2%nat) samples = true /\
    length frames = (2 * 3)%nat /\
    Forall (fun f => Torch.has_shape (50%nat, 1%nat, 2%nat, 2%nat) f = true)
      frames.
Proof.
  apply (log_samples_even_groups Demo.backend TrainerDemo.even_trainer 50 2
           Demo.world0).
  - exact (proj1 (demo_net_keeps_shape None)).
  - reflexivity.
  - left. reflexivity.
Defined.
